(** * debate.py: the round engine of the adversarial strategy debate

    A shallow embedding of [skills/adversarial-strategy/scripts/debate.py]:
    marker extraction ([extract_spec]), the cost ledger ([CostTracker]),
    one critic invocation with retry and backoff ([call_single_model]),
    the parallel fan-out ([call_models_parallel]), the aggregation and the
    session bookkeeping of [main].

    Python values are modelled as follows.
    - [str] is [string]; a character is a code point below 256.
    - [int] is [Z]; [float] is the kernel's binary64 [float].
    - [Optional[T]] is [option T]; [dict] is [gmap].
    - Raising is a result [Raise e]; what the script mutates or does to the
      outside (the global cost tracker, the session and checkpoint files,
      the requests sent and the sleeps taken) is a field of an explicit
      [World] threaded through the calls.
    - Text printed to the terminal is left out: nothing reads it back. *)

From Stdlib Require Import ZArith Bool Ascii String Floats Lia.
From stdpp Require Import gmap strings list pretty.

Open Scope string_scope.
Open Scope list_scope.
Open Scope Z_scope.

(** ** Python built-ins used by the script *)

Module Py.

(** Truth value of a [str] and of an [Optional[str]]: [None] and the
    empty string are false. *)
Definition truthy (s : string) : bool :=
  match s with
  | EmptyString => false
  | String _ _ => true
  end.

Definition truthy_opt (o : option string) : bool :=
  match o with
  | None => false
  | Some s => truthy s
  end.

Definition len (s : string) : Z := Z.of_nat (String.length s).

(** [s.startswith(sub)] *)
Fixpoint startswith (sub s : string) : bool :=
  match sub, s with
  | EmptyString, _ => true
  | String _ _, EmptyString => false
  | String a sub', String b s' => Ascii.eqb a b && startswith sub' s'
  end.

(** [sub in s] *)
Fixpoint contains (sub s : string) : bool :=
  startswith sub s ||
  match s with
  | EmptyString => false
  | String _ s' => contains sub s'
  end.

(** [s.find(sub)], counting from offset [i]: the lowest index at which
    [sub] occurs, [-1] when it does not occur. *)
Fixpoint find_from (sub s : string) (i : Z) : Z :=
  if startswith sub s then i
  else match s with
       | EmptyString => -1
       | String _ s' => find_from sub s' (i + 1)
       end.

Definition find (s sub : string) : Z := find_from sub s 0.

(** Slice bounds: a negative index counts from the end, and both bounds
    are clamped to [0 .. len]. *)
Definition slice_index (n i : Z) : Z :=
  if i <? 0 then Z.max 0 (i + n) else Z.min i n.

(** [s[start:stop]]; empty when the bounds cross. *)
Definition slice (s : string) (start stop : Z) : string :=
  let lo := slice_index (len s) start in
  let hi := slice_index (len s) stop in
  substring (Z.to_nat lo) (Z.to_nat (hi - lo)) s.

(** [c.isspace()] on the code points below 256: TAB..CR, FS..US, space,
    NEL and the no-break space. *)
Definition isspace (c : ascii) : bool :=
  let n := N_of_ascii c in
  ((9 <=? n) && (n <=? 13) || (28 <=? n) && (n <=? 32)
   || (n =? 133) || (n =? 160))%N.

Fixpoint lstrip (s : string) : string :=
  match s with
  | EmptyString => EmptyString
  | String c s' => if isspace c then lstrip s' else s
  end.

Fixpoint rstrip (s : string) : string :=
  match s with
  | EmptyString => EmptyString
  | String c s' =>
      match rstrip s' with
      | EmptyString => if isspace c then EmptyString else String c EmptyString
      | r => String c r
      end
  end.

(** [s.strip()] *)
Definition strip (s : string) : string := rstrip (lstrip s).

(** [s.split(",")] *)
Fixpoint split_comma (s : string) : list string :=
  match s with
  | EmptyString => [EmptyString]
  | String c s' =>
      if Ascii.eqb c "," then EmptyString :: split_comma s'
      else match split_comma s' with
           | [] => [String c EmptyString]
           | w :: ws => String c w :: ws
           end
  end.

(** [sep.join(l)] *)
Fixpoint join (sep : string) (l : list string) : string :=
  match l with
  | [] => EmptyString
  | [w] => w
  | w :: ws => w +:+ sep +:+ join sep ws
  end.

End Py.

(** ** ArtifactExtractor: [extract_spec] *)

Definition SPEC_OPEN : string := "[SPEC]".
Definition SPEC_CLOSE : string := "[/SPEC]".
Definition AGREE : string := "[AGREE]".

Definition extract_spec (response : string) : option string :=
  if negb (Py.contains SPEC_OPEN response) || negb (Py.contains SPEC_CLOSE response)
  then None
  else
    let start := Py.find response SPEC_OPEN + Py.len SPEC_OPEN in
    let end_ := Py.find response SPEC_CLOSE in
    Some (Py.strip (Py.slice response start end_)).

(** ** Exceptions, results and the world

    [str e] is the text [str(e)] the script records (it never takes the
    text of a [SystemExit]).  [ProviderError] stands for whatever the
    [try] body of [call_single_model] raises before it reaches the ledger:
    a transport or provider failure of [completion], or a malformed
    reply. *)

Inductive exn : Type :=
  | ProviderError (msg : string)
  | OverflowError (msg : string)
  | ZeroDivisionError (msg : string)
  | ValueError (msg : string)
  | FileNotFoundError (msg : string)
  | SystemExit (code : Z).

Definition str (e : exn) : string :=
  match e with
  | ProviderError msg | OverflowError msg | ZeroDivisionError msg
  | ValueError msg | FileNotFoundError msg => msg
  | SystemExit code => EmptyString
  end.

(** [isinstance(e, Exception)]: [SystemExit] derives from [BaseException]
    only. *)
Definition is_Exception (e : exn) : bool :=
  match e with
  | SystemExit _ => false
  | _ => true
  end.

Definition is_FileNotFoundError (e : exn) : bool :=
  match e with
  | FileNotFoundError _ => true
  | _ => false
  end.

Inductive result (A : Type) : Type :=
  | Return (a : A)
  | Raise (e : exn).
Arguments Return {A} a.
Arguments Raise {A} e.

(** ** Numbers: [int / int] and [float(int)] *)

Definition sf_of_int (n : Z) : spec_float :=
  match n with
  | Z0 => S754_zero false
  | Zpos p => S754_finite false p 0
  | Zneg p => S754_finite true p 0
  end.

(** [float(n)], rounded to nearest even. *)
Definition float_of_int (n : Z) : float :=
  SF2Prim (binary_normalize prec emax n 0 false).

(** [a / b] on two [int]s: the correctly rounded quotient; a zero divisor
    and a quotient beyond the largest float raise. *)
Definition truediv (a b : Z) : result float :=
  if b =? 0 then Raise (ZeroDivisionError "division by zero")
  else match SFdiv prec emax (sf_of_int a) (sf_of_int b) with
       | S754_infinity _ =>
           Raise (OverflowError "integer division result too large for a float")
       | q => Return (SF2Prim q)
       end.

(** ** CostLedger: [MODEL_COSTS], [DEFAULT_COST], [CostTracker] *)

Record Price : Type := mkPrice { input : float; output : float }.

Definition MODEL_COSTS : gmap string Price :=
  list_to_map
    [ ("gpt-5.2", mkPrice 1.75 14.00);
      ("gpt-5.2-pro", mkPrice 15.00 60.00);
      ("o1", mkPrice 15.00 60.00);
      ("claude-opus-4-5", mkPrice 5.00 25.00) ].

Definition DEFAULT_COST : Price := mkPrice 5.00 15.00.

Module ModelTotals.
(** One value of the [by_model] dict. *)
Record t : Type :=
  mk { input_tokens : Z; output_tokens : Z; cost : float }.
Definition zero : t := mk 0 0 0%float.
End ModelTotals.

Module CostTracker.

Record t : Type := mk {
  total_input_tokens : Z;
  total_output_tokens : Z;
  total_cost : float;
  by_model : gmap string ModelTotals.t
}.

(** [CostTracker()] *)
Definition new : t := mk 0 0 0%float ∅.

(** The price tuple [MODEL_COSTS.get(model, DEFAULT_COST)]. *)
Definition costs (model : string) : Price :=
  default DEFAULT_COST (MODEL_COSTS !! model).

(** [self.add(model, input_tokens, output_tokens)]: the cost is computed
    first (and may raise); then the four updates; the result is the cost
    and the updated tracker. *)
Definition add (self : t) (model : string) (input_tokens output_tokens : Z)
  : result (float * t) :=
  match truediv input_tokens 1000000 with
  | Raise e => Raise e
  | Return qi =>
      match truediv output_tokens 1000000 with
      | Raise e => Raise e
      | Return qo =>
          let cost := (qi * input (costs model) + qo * output (costs model))%float in
          let entry := default ModelTotals.zero (by_model self !! model) in
          let entry' :=
            ModelTotals.mk
              (ModelTotals.input_tokens entry + input_tokens)
              (ModelTotals.output_tokens entry + output_tokens)
              (ModelTotals.cost entry + cost)%float in
          Return (cost,
                  mk (total_input_tokens self + input_tokens)
                     (total_output_tokens self + output_tokens)
                     (total_cost self + cost)%float
                     (<[model := entry']> (by_model self)))
      end
  end.

End CostTracker.

(** ** Records of the script *)

Module ModelResponse.
Record t : Type := mk {
  model : string;
  response : string;
  agreed : bool;
  spec : option string;
  error : option string;
  input_tokens : Z;
  output_tokens : Z;
  cost : float
}.
End ModelResponse.

Module Verdict.
(** One element of a history entry's ["models"] list. *)
Record t : Type :=
  mk { model : string; agreed : bool; error : option string }.
Definition of_response (r : ModelResponse.t) : t :=
  mk (ModelResponse.model r) (ModelResponse.agreed r) (ModelResponse.error r).
End Verdict.

Module HistoryEntry.
Record t : Type :=
  mk { round : Z; all_agreed : bool; models : list Verdict.t }.
End HistoryEntry.

Module SessionState.
Record t : Type := mk {
  session_id : string;
  spec : string;
  round : Z;
  models : list string;
  focus : option string;
  persona : option string;
  preserve_intent : bool;
  created_at : string;
  updated_at : string;
  history : list HistoryEntry.t
}.
End SessionState.

(** The reply of one [completion] call, as the script reads it: the text
    [response.choices[0].message.content] and [response.usage]. *)
Record Usage : Type := mkUsage { prompt_tokens : Z; completion_tokens : Z }.

Inductive outcome : Type :=
  | Responded (content : string) (usage : option Usage)
  | Failed (msg : string).

(** What an invocation does to the outside, in the order it does it: a
    [completion] request for a model, a [time.sleep] of some seconds. *)
Inductive event : Type :=
  | Completion (model : string)
  | Sleep (delay : float).

(** The mutable state the script touches: the global [cost_tracker], the
    requests and sleeps performed so far, the session files (one record
    per session id, read back as written), the checkpoint files, and the
    number of clock readings taken so far. *)
Record World : Type := mkWorld {
  cost_tracker : CostTracker.t;
  trace : list event;
  sessions : gmap string SessionState.t;
  checkpoints : gmap (string * Z) string;
  clock : nat
}.

Definition set_cost_tracker (c : CostTracker.t) (w : World) : World :=
  mkWorld c (trace w) (sessions w) (checkpoints w) (clock w).
Definition set_trace (l : list event) (w : World) : World :=
  mkWorld (cost_tracker w) l (sessions w) (checkpoints w) (clock w).
Definition set_sessions (m : gmap string SessionState.t) (w : World) : World :=
  mkWorld (cost_tracker w) (trace w) m (checkpoints w) (clock w).
Definition set_checkpoints (m : gmap (string * Z) string) (w : World) : World :=
  mkWorld (cost_tracker w) (trace w) (sessions w) m (clock w).
Definition set_clock (n : nat) (w : World) : World :=
  mkWorld (cost_tracker w) (trace w) (sessions w) (checkpoints w) n.

(** ** The monad of the script: state and exceptions *)

Definition M (A : Type) : Type := World -> result A * World.

Definition ret {A} (a : A) : M A := fun w => (Return a, w).
Definition raise {A} (e : exn) : M A := fun w => (Raise e, w).
Definition bind {A B} (m : M A) (k : A -> M B) : M B :=
  fun w =>
    match m w with
    | (Return a, w') => k a w'
    | (Raise e, w') => (Raise e, w')
    end.

Notation "x <- m ;; k" := (bind m (fun x => k))
  (at level 100, m at next level, right associativity).
Notation "m ;;; k" := (bind m (fun _ => k))
  (at level 100, right associativity).

(** [try: body except C as e: handler(e)], [catches] being the test
    [isinstance(e, C)]. *)
Definition try_except {A} (body : M A) (catches : exn -> bool)
    (handler : exn -> M A) : M A :=
  fun w =>
    match body w with
    | (Return a, w') => (Return a, w')
    | (Raise e, w') => if catches e then handler e w' else (Raise e, w')
    end.

Definition sys_exit {A} (code : Z) : M A := raise (SystemExit code).

Definition log (e : event) : M unit :=
  fun w => (Return tt, set_trace (trace w ++ [e]) w).

(** [time.sleep(delay)] *)
Definition sleep (delay : float) : M unit := log (Sleep delay).

(** One [completion(model=model, ...)] request, answered by [reply]. *)
Definition completion_call (model : string) (reply : outcome)
  : M (string * option Usage) :=
  log (Completion model) ;;;
  match reply with
  | Failed msg => raise (ProviderError msg)
  | Responded content usage => ret (content, usage)
  end.

(** [cost_tracker.add(...)] on the global tracker. *)
Definition cost_tracker_add (model : string) (input_tokens output_tokens : Z)
  : M float :=
  fun w =>
    match CostTracker.add (cost_tracker w) model input_tokens output_tokens with
    | Return (cost, c') => (Return cost, set_cost_tracker c' w)
    | Raise e => (Raise e, w)
    end.

(** ** CriticInvoker: [call_single_model] *)

Definition MAX_RETRIES : Z := 3.
Definition RETRY_BASE_DELAY : float := 1.0%float.

(** [range(n)] *)
Definition range (n : Z) : list Z := Z.of_nat <$> seq 0 (Z.to_nat n).

(** [response.usage.prompt_tokens if response.usage else 0], and the same
    for [completion_tokens]. *)
Definition tokens_in (usage : option Usage) : Z := from_option prompt_tokens 0 usage.
Definition tokens_out (usage : option Usage) : Z := from_option completion_tokens 0 usage.

(** The [try] body of one attempt; [reply] is what this attempt's
    [completion] call does.  (The warning printed for a critique without
    [SPEC] tags changes no state.) *)
Definition attempt_body (model : string) (reply : outcome) : M ModelResponse.t :=
  response <- completion_call model reply ;;
  let content := response.1 in
  let agreed := Py.contains AGREE content in
  let extracted := extract_spec content in
  let input_tokens := tokens_in response.2 in
  let output_tokens := tokens_out response.2 in
  cost <- cost_tracker_add model input_tokens output_tokens ;;
  ret (ModelResponse.mk model content agreed extracted None
         input_tokens output_tokens cost).

(** The [for attempt in range(MAX_RETRIES)] loop followed by the final
    [return]; [replies k] is the behaviour of the [k]-th [completion]
    call of this invocation. *)
Fixpoint retry_loop (model : string) (replies : nat -> outcome)
    (attempts : list Z) (last_error : option string) : M ModelResponse.t :=
  match attempts with
  | [] =>
      ret (ModelResponse.mk model EmptyString false None last_error 0 0 0%float)
  | attempt :: rest =>
      try_except
        (attempt_body model (replies (Z.to_nat attempt)))
        is_Exception
        (fun e =>
           let last_error := str e in
           (if attempt <? MAX_RETRIES - 1
            then sleep (RETRY_BASE_DELAY * float_of_int (2 ^ attempt))%float
            else ret tt) ;;;
           retry_loop model replies rest (Some last_error))
  end.

(** The prompt sent ([spec], [round_num], [press], [focus], [persona],
    [context], [preserve_intent]) only reaches [completion], whose
    behaviour [replies] is arbitrary. *)
Definition call_single_model (model : string) (replies : nat -> outcome)
  : M ModelResponse.t :=
  retry_loop model replies (range MAX_RETRIES) None.

(** ** Orchestrator: [call_models_parallel]

    One invocation is submitted per roster position, and [results]
    receives the responses in the order in which [as_completed] yields
    the futures: those already finished when it is entered, in the
    iteration order of a set, then the others as they finish.  [order] is
    that order, of which nothing more is known than that it is a list of
    roster positions in which every position occurs once (a position
    outside the roster stands for no future and is passed over).
    [completion i] is the behaviour of the provider towards the
    invocation submitted for position [i].  The effects of the
    invocations on the shared tracker and trace are taken one invocation
    after the other, in that same order. *)

Fixpoint collect (models : list string) (completion : nat -> nat -> outcome)
    (order : list nat) : M (list ModelResponse.t) :=
  match order with
  | [] => ret []
  | i :: rest =>
      match models !! i with
      | None => collect models completion rest
      | Some model =>
          r <- call_single_model model (completion i) ;;
          results <- collect models completion rest ;;
          ret (r :: results)
      end
  end.

Definition call_models_parallel (models : list string)
    (completion : nat -> nat -> outcome) (order : list nat)
  : M (list ModelResponse.t) :=
  if bool_decide (models = [])
  then raise (ValueError "max_workers must be greater than 0")
  else collect models completion order.

(** ** Aggregation and next-artifact selection (from [main]) *)

(** [[r for r in results if not r.error]] *)
Definition successful (results : list ModelResponse.t) : list ModelResponse.t :=
  List.filter (fun r => negb (Py.truthy_opt (ModelResponse.error r))) results.

(** [all(r.agreed for r in successful) if successful else False] *)
Definition all_agreed (results : list ModelResponse.t) : bool :=
  match successful results with
  | [] => false
  | rs => forallb ModelResponse.agreed rs
  end.

(** The loop [for r in successful: if r.spec: latest_spec = r.spec; break]
    started from [latest_spec = spec]. *)
Fixpoint first_spec (spec : string) (rs : list ModelResponse.t) : string :=
  match rs with
  | [] => spec
  | r :: rest =>
      match ModelResponse.spec r with
      | Some s => if Py.truthy s then s else first_spec spec rest
      | None => first_spec spec rest
      end
  end.

Definition latest_spec (spec : string) (results : list ModelResponse.t) : string :=
  first_spec spec (successful results).

(** ** SessionStore: [SessionState.save], [SessionState.load] and [main] *)

Module Args.
(** The parsed command line of the [critique] action, after a profile
    has been merged in. *)
Record t : Type := mk {
  models : string;
  round : Z;
  press : bool;
  focus : option string;
  persona : option string;
  preserve_intent : bool;
  session : option string;
  resume : option string
}.
End Args.

Module RoundOutput.
(** What [main] reports for the round (the ["cost"] block is the global
    tracker of the final world). *)
Record t : Type := mk {
  all_agreed : bool;
  round : Z;
  models : list string;
  results : list ModelResponse.t;
  session : option string
}.
End RoundOutput.

Section Clock.

(** [isoformat k] is the text of the [k]-th reading
    [datetime.now().isoformat()]. *)
Variable isoformat : nat -> string.

Definition datetime_now : M string :=
  fun w => (Return (isoformat (clock w)), set_clock (S (clock w)) w).

(** [self.save()]: stamps [updated_at] and overwrites the session's file
    with the whole record.  The session id is taken to name a file in
    [SESSIONS_DIR]: the write does not fail, and two ids are two files. *)
Definition save (self : SessionState.t) : M SessionState.t :=
  now <- datetime_now ;;
  let self' :=
    SessionState.mk
      (SessionState.session_id self) (SessionState.spec self)
      (SessionState.round self) (SessionState.models self)
      (SessionState.focus self) (SessionState.persona self)
      (SessionState.preserve_intent self) (SessionState.created_at self)
      now (SessionState.history self) in
  fun w =>
    (Return self',
     set_sessions (<[SessionState.session_id self' := self']> (sessions w)) w).

(** [SessionState.load(session_id)] *)
Definition load (session_id : string) : M SessionState.t :=
  fun w =>
    match sessions w !! session_id with
    | None =>
        (Raise (FileNotFoundError ("Session '" +:+ session_id +:+ "' not found")), w)
    | Some s => (Return s, w)
    end.

(** [save_checkpoint(spec, round_num, session_id)]: the file is named by
    the prefix and the round number, and the name is taken to be one the
    file system accepts: the write does not fail. *)
Definition save_checkpoint (spec : string) (round_num : Z)
    (session_id : option string) : M unit :=
  let prefix :=
    match session_id with
    | Some id => if Py.truthy id then id +:+ "-" else EmptyString
    | None => EmptyString
    end in
  fun w =>
    (Return tt, set_checkpoints (<[(prefix, round_num) := spec]> (checkpoints w)) w).

(** [[m.strip() for m in args.models.split(",") if m.strip()]] *)
Definition parse_models (s : string) : list string :=
  List.filter Py.truthy (Py.strip <$> Py.split_comma s).

(** The [if args.resume: ... else: ...] block: the session (if one is
    resumed), the artifact, the arguments and the roster to use. *)
Definition resume_or_read (args : Args.t) (models : list string) (stdin : string)
  : M (option SessionState.t * string * Args.t * list string) :=
  match Args.resume args with
  | Some id =>
      if Py.truthy id then
        try_except
          (session_state <- load id ;;
           let args' :=
             Args.mk
               (Py.join "," (SessionState.models session_state))
               (SessionState.round session_state)
               (Args.press args)
               (if Py.truthy_opt (SessionState.focus session_state)
                then SessionState.focus session_state else Args.focus args)
               (if Py.truthy_opt (SessionState.persona session_state)
                then SessionState.persona session_state else Args.persona args)
               (if SessionState.preserve_intent session_state
                then true else Args.preserve_intent args)
               (Args.session args) (Args.resume args) in
           ret (Some session_state, SessionState.spec session_state, args',
                SessionState.models session_state))
          is_FileNotFoundError
          (fun _ => sys_exit 2)
      else
        let spec := Py.strip stdin in
        if negb (Py.truthy spec) then sys_exit 1
        else ret (None, spec, args, models)
  | None =>
      let spec := Py.strip stdin in
      if negb (Py.truthy spec) then sys_exit 1
      else ret (None, spec, args, models)
  end.

(** [if args.session and not session_state: ...] *)
Definition init_session (args : Args.t) (spec : string) (models : list string)
    (session_state : option SessionState.t) : M (option SessionState.t) :=
  match session_state with
  | Some s => ret (Some s)
  | None =>
      match Args.session args with
      | Some id =>
          if Py.truthy id then
            now <- datetime_now ;;
            s <- save (SessionState.mk id spec (Args.round args) models
                         (Args.focus args) (Args.persona args)
                         (Args.preserve_intent args) now EmptyString []) ;;
            ret (Some s)
          else ret None
      | None => ret None
      end
  end.

(** [if session_state: ...] after the round: the new artifact, the next
    round number, one more history entry, and the save. *)
Definition update_session (args : Args.t) (spec : string)
    (results : list ModelResponse.t) (session_state : option SessionState.t)
  : M (option SessionState.t) :=
  match session_state with
  | None => ret None
  | Some s =>
      let entry :=
        HistoryEntry.mk (Args.round args) (all_agreed results)
          (Verdict.of_response <$> results) in
      s' <- save (SessionState.mk
                    (SessionState.session_id s)
                    (latest_spec spec results)
                    (Args.round args + 1)
                    (SessionState.models s) (SessionState.focus s)
                    (SessionState.persona s) (SessionState.preserve_intent s)
                    (SessionState.created_at s) (SessionState.updated_at s)
                    (SessionState.history s ++ [entry])) ;;
      ret (Some s')
  end.

(** The [critique] action of [main], from the parsing of the roster on
    (the profile step that comes before it is [use_profile], and the two
    together are [critique], below). *)
Definition main (args : Args.t) (stdin : string)
    (completion : nat -> nat -> outcome) (order : list nat)
  : M RoundOutput.t :=
  let models := parse_models (Args.models args) in
  if bool_decide (models = []) then sys_exit 1
  else
    st <- resume_or_read args models stdin ;;
    let '(session_state, spec, args, models) := st in
    session_state <- init_session args spec models session_state ;;
    results <- call_models_parallel models completion order ;;
    let session_id :=
      match session_state with
      | Some s => Some (SessionState.session_id s)
      | None => Args.session args
      end in
    (if Py.truthy_opt session_id || Py.truthy_opt (Args.session args)
     then save_checkpoint spec (Args.round args) session_id
     else ret tt) ;;;
    session_state <- update_session args spec results session_state ;;
    ret (RoundOutput.mk (all_agreed results) (Args.round args) models results
           session_id).

End Clock.

(** ** Vocabulary of the statements *)

(** [sub] occurs in [s] at index [i]; its first occurrence is at [i]; it
    does not occur. *)
Definition occurs_at (sub s : string) (i : nat) : Prop :=
  exists pre post, s = pre +:+ sub +:+ post /\ String.length pre = i.

Definition first_at (sub s : string) (i : nat) : Prop :=
  occurs_at sub s i /\ forall j, (j < i)%nat -> ~ occurs_at sub s j.

Definition absent (sub s : string) : Prop := forall i, ~ occurs_at sub s i.

Fixpoint all_space (s : string) : bool :=
  match s with
  | EmptyString => true
  | String c s' => Py.isspace c && all_space s'
  end.

(** [t] is [s] without its leading and trailing whitespace. *)
Definition trimmed (s t : string) : Prop :=
  (exists l r, s = l +:+ t +:+ r /\ all_space l = true /\ all_space r = true) /\
  (forall c t', t = String c t' -> Py.isspace c = false) /\
  (forall t' c, t = t' +:+ String c EmptyString -> Py.isspace c = false).

(** A response counts as error-free when the script's test [not r.error]
    holds: the error is [None] or the empty text. *)
Definition error_free (r : ModelResponse.t) : Prop :=
  Py.truthy_opt (ModelResponse.error r) = false.

(** The non-empty artifact an error-free response offers, if any. *)
Definition offered (r : ModelResponse.t) : option string :=
  if Py.truthy_opt (ModelResponse.error r) then None
  else match ModelResponse.spec r with
       | Some s => if Py.truthy s then Some s else None
       | None => None
       end.

(** The same response, had it extracted nothing. *)
Definition without_spec (r : ModelResponse.t) : ModelResponse.t :=
  ModelResponse.mk (ModelResponse.model r) (ModelResponse.response r)
    (ModelResponse.agreed r) None (ModelResponse.error r)
    (ModelResponse.input_tokens r) (ModelResponse.output_tokens r) (ModelResponse.cost r).

(** The delay slept after the failed attempt [attempt]. *)
Definition backoff (attempt : Z) : float :=
  (RETRY_BASE_DELAY * float_of_int (2 ^ attempt))%float.

(** The number of [completion] requests in a trace. *)
Fixpoint requests (t : list event) : nat :=
  match t with
  | [] => 0
  | Completion _ :: t' => S (requests t')
  | Sleep _ :: t' => requests t'
  end.

(** The response every failed invocation returns, but for its error. *)
Definition blank_error (r : ModelResponse.t) : Prop :=
  ModelResponse.response r = EmptyString /\ ModelResponse.agreed r = false /\
  ModelResponse.spec r = None /\ ModelResponse.input_tokens r = 0 /\
  ModelResponse.output_tokens r = 0 /\ ModelResponse.cost r = 0%float.

(** A world in which nothing has happened yet. *)
Definition world0 : World := mkWorld CostTracker.new [] ∅ ∅ 0.

(** The response of the invocation of [model] against [replies]; it does
    not depend on the world the invocation starts in
    ([call_single_model_response]). *)
Definition critic_response (model : string) (replies : nat -> outcome) : ModelResponse.t :=
  match call_single_model model replies world0 with
  | (Return r, _) => r
  | (Raise _, _) => ModelResponse.mk model EmptyString false None None 0 0 0%float
  end.

(** The response of the critic at roster position [i], and the responses
    of the positions listed in [order]. *)
Definition response_at (models : list string) (completion : nat -> nat -> outcome)
    (i : nat) : option ModelResponse.t :=
  (fun model => critic_response model (completion i)) <$> models !! i.

Definition responses_in (models : list string) (completion : nat -> nat -> outcome)
    (order : list nat) : list ModelResponse.t :=
  omap (response_at models completion) order.

(** Next-artifact selection as the specification words it: the roster is
    scanned in declaration order for the first response with a non-empty
    extracted artifact; without one the artifact stays. *)
Definition roster_order_artifact (spec : string) (models : list string)
    (completion : nat -> nat -> outcome) : string :=
  default spec
    (head (omap (fun i => response_at models completion i ≫= offered)
             (seq 0 (length models)))).

(** The history entry [main] appends for a round. *)
Definition round_entry (round : Z) (results : list ModelResponse.t) : HistoryEntry.t :=
  HistoryEntry.mk round (all_agreed results) (Verdict.of_response <$> results).

(** Every persisted session holds a non-empty artifact. *)
Definition artifacts_nonempty (w : World) : Prop :=
  forall id s, sessions w !! id = Some s -> SessionState.spec s <> EmptyString.

(** ** Concrete rounds used below *)

Definition ex_roster : list string := ["critic1"; "critic2"].

(** critic1 agrees without a revision; critic2 critiques and revises. *)
Definition ex_completion (i k : nat) : outcome :=
  match i with
  | O => Responded "Looks right. [AGREE]" None
  | _ => Responded "Too vague. [SPEC]Revised V2[/SPEC]" (Some (mkUsage 1200 300))
  end.

(** Both critics revise, each in its own way. *)
Definition both_revise (i k : nat) : outcome :=
  match i with
  | O => Responded "[SPEC]V1[/SPEC]" None
  | _ => Responded "[SPEC]V2[/SPEC]" None
  end.

(** A provider that fails twice and then answers. *)
Definition ex_flaky (k : nat) : outcome :=
  match k with
  | O | S O => Failed "timeout"
  | _ => Responded "[AGREE]" (Some (mkUsage 1000000 0))
  end.

(** A provider that is down; critics that agree and that critique. *)
Definition ex_down (k : nat) : outcome := Failed "connection refused".
Definition ex_agrees (k : nat) : outcome := Responded "[AGREE]" None.
Definition ex_critiques (k : nat) : outcome := Responded "Not yet." None.

Definition ex_clock (k : nat) : string := "2026-01-15T10:00:00".

Definition ex_args : Args.t :=
  Args.mk "critic1, critic2" 1 false None None false (Some "s1") None.

Definition ex_resume_args : Args.t :=
  Args.mk "gpt-5.2" 1 false None None false None (Some "s1").

Definition ex_session : SessionState.t :=
  SessionState.mk "s1" "Draft" 4 ["critic1"; "critic2"] None None false
    "2026-01-14T09:00:00" "2026-01-14T09:30:00"
    [HistoryEntry.mk 3 false []].

(** A world with one stored session and a ledger that has already priced
    one call. *)
Definition ex_tracker : CostTracker.t :=
  CostTracker.mk 1000000 0 1.75%float
    {["gpt-5.2" := ModelTotals.mk 1000000 0 1.75%float]}.

Definition ex_world : World :=
  mkWorld ex_tracker [] {["s1" := ex_session]} ∅ 0.

(** Convergence as the specification words it: a response is errored when
    its error is set, and the round converges when at least one response
    has no error and every response without error agreed. *)
Definition errored (r : ModelResponse.t) : bool :=
  match ModelResponse.error r with
  | Some _ => true
  | None => false
  end.

Definition spec_converged (results : list ModelResponse.t) : bool :=
  match List.filter (fun r => negb (errored r)) results with
  | [] => false
  | rs => forallb ModelResponse.agreed rs
  end.

(** The non-empty artifact a response extracted, if any. *)
Definition extracted (r : ModelResponse.t) : option string :=
  match ModelResponse.spec r with
  | Some s => if Py.truthy s then Some s else None
  | None => None
  end.

(** A provider whose requests fail with an exception without text
    ([str(e)] is empty), and a round in which critic A agrees and the
    requests for critic B fail in that way. *)
Definition ex_silent (k : nat) : outcome := Failed EmptyString.

Definition ex_agree_silent (i k : nat) : outcome :=
  match i with
  | O => ex_agrees k
  | _ => ex_silent k
  end.

(** ** Further code of the script *)

(** [get_critique_summary(response, max_length)]; the script's default for
    [max_length] is 300. *)
Definition get_critique_summary (response : string) (max_length : Z) : string :=
  let spec_start := Py.find response SPEC_OPEN in
  let critique :=
    if 0 <? spec_start then Py.strip (Py.slice response 0 spec_start)
    else response in
  if max_length <? Py.len critique
  then Py.slice critique 0 max_length +:+ "..."
  else critique.

(** The response of an invocation that gave up, with its last error, and
    the response built from an answered request (the two [return]s of
    [call_single_model]). *)
Definition failed_response (model : string) (last_error : option string)
  : ModelResponse.t :=
  ModelResponse.mk model EmptyString false None last_error 0 0 0%float.

Definition success_response (model content : string) (usage : option Usage)
    (cost : float) : ModelResponse.t :=
  ModelResponse.mk model content (Py.contains AGREE content) (extract_spec content)
    None (tokens_in usage) (tokens_out usage) cost.

(** The session id [main] checkpoints and reports under:
    [session_state.session_id if session_state else args.session]. *)
Definition session_id_of (session_state : option SessionState.t) (args : Args.t)
  : option string :=
  match session_state with
  | Some s => Some (SessionState.session_id s)
  | None => Args.session args
  end.

(** The checkpoint step of [main] as a change of the world: under
    [if session_id or args.session], [save_checkpoint] writes the artifact
    the round started from. *)
Definition checkpoint_world (session_state : option SessionState.t) (args : Args.t)
    (spec : string) (w : World) : World :=
  if Py.truthy_opt (session_id_of session_state args) || Py.truthy_opt (Args.session args)
  then set_checkpoints
         (<[(match session_id_of session_state args with
             | Some id => if Py.truthy id then id +:+ "-" else EmptyString
             | None => EmptyString
             end, Args.round args) := spec]> (checkpoints w)) w
  else w.

(** The script run again and again with [--resume]: one run of [main] per
    element of [runs], each with the behaviour of the provider and the
    order in which the responses of its round are returned. *)
Fixpoint resume_rounds (isoformat : nat -> string) (args : Args.t)
    (runs : list ((nat -> nat -> outcome) * list nat)) : M (list RoundOutput.t) :=
  match runs with
  | [] => ret []
  | (completion, order) :: rest =>
      out <- main isoformat args EmptyString completion order ;;
      outs <- resume_rounds isoformat args rest ;;
      ret (out :: outs)
  end.

(** ** The user message of [call_single_model] *)

(** The replacement fields of the two prompt templates. *)
Inductive field : Type := f_round | f_spec | f_context_section | f_focus_section.

(** A template: literal text and replacement fields, in order. *)
Inductive piece : Type :=
| Text (s : string)
| Field (f : field).

Definition REVIEW_PROMPT_TEMPLATE : list piece :=
  [Text "This is round ";
   Field f_round;
   Text " of adversarial strategy development.

Here is the current strategy:

";
   Field f_spec;
   Text "

";
   Field f_context_section;
   Text "
";
   Field f_focus_section;
   Text "

Review this strategy using Rumelt's framework. Either critique and revise it, or say [AGREE] if it's ready for execution."].

Definition PRESS_PROMPT_TEMPLATE : list piece :=
  [Text "This is round ";
   Field f_round;
   Text " of adversarial strategy development. You previously indicated agreement with this strategy.

Here is the current strategy:

";
   Field f_spec;
   Text "

";
   Field f_context_section;
   Text "

**IMPORTANT: Please confirm your agreement by thoroughly reviewing the ENTIRE strategy.**

Before saying [AGREE], you MUST:
1. Confirm you have read every section of this strategy
2. Verify the diagnosis identifies a REAL, SPECIFIC challenge (not generic)
3. Verify the guiding policy is a POLICY (not a goal disguised as strategy)
4. Verify the actions are COHERENT (reinforce each other, not scattered)
5. List at least 3 specific elements you verified
6. Identify ANY remaining concerns, however minor

If after this thorough review you find issues you missed before, provide your critique.

If you genuinely agree after careful review, output:
1. Your verification (what you checked, why you agree)
2. [AGREE] on its own line
3. The final strategy between [SPEC] and [/SPEC] tags"].

(** [template.format(round=..., spec=..., focus_section=...,
    context_section=...)]: each field replaced by its value, the round
    number in decimal. *)
Definition format_piece (round : Z) (spec focus_section context_section : string)
    (p : piece) : string :=
  match p with
  | Text s => s
  | Field f_round => pretty round
  | Field f_spec => spec
  | Field f_context_section => context_section
  | Field f_focus_section => focus_section
  end.

Definition format (template : list piece) (round : Z)
    (spec focus_section context_section : string) : string :=
  foldr (fun p acc => format_piece round spec focus_section context_section p +:+ acc)
    EmptyString template.

(** [user_message] of [call_single_model], from its [focus_section] and
    the [context] it was given. *)
Definition user_message (press : bool) (round_num : Z) (spec focus_section : string)
    (context : option string) : string :=
  let context_section := if Py.truthy_opt context then default EmptyString context
                         else EmptyString in
  let template := if press then PRESS_PROMPT_TEMPLATE else REVIEW_PROMPT_TEMPLATE in
  format template round_num spec focus_section context_section.

(** ** Profiles: [save_profile], [load_profile] and their use in [main]

    [PROFILES_DIR] is a map from profile names to the parsed file, or to
    [None] for a file that is not valid JSON.  Which names denote one and
    the same file, and which names the file system refuses, is not
    modelled: nothing is stated below about a profile other than the one
    written, nor that a write succeeds. *)

(** The settings of the command line a profile can carry. *)
Module Settings.
Record t : Type := mk {
  models : string;                (* default "gpt-5.2" *)
  focus : option string;
  persona : option string;
  context : list string;          (* default [] *)
  preserve_intent : bool
}.
End Settings.

(** A profile: a JSON object in which each of the five keys may be missing;
    the values have the types [save_profile] writes ([null] for a setting
    that was not given). *)
Module Profile.
Record t : Type := mk {
  models : option string;
  focus : option (option string);
  persona : option (option string);
  context : option (list string);
  preserve_intent : option bool
}.
End Profile.

(** The [config] dictionary of the [save-profile] action. *)
Definition profile_config (args : Settings.t) : Profile.t :=
  Profile.mk (Some (Settings.models args)) (Some (Settings.focus args))
    (Some (Settings.persona args)) (Some (Settings.context args))
    (Some (Settings.preserve_intent args)).

Definition save_profile (profile_name : string) (config : Profile.t)
    (profiles : gmap string (option Profile.t)) : gmap string (option Profile.t) :=
  <[profile_name := Some config]> profiles.

Definition load_profile (profile_name : string) (profiles : gmap string (option Profile.t))
  : result Profile.t :=
  match profiles !! profile_name with
  | None => Raise (SystemExit 2)
  | Some None => Raise (SystemExit 2)
  | Some (Some profile) => Return profile
  end.

(** The [save-profile] action of [main]. *)
Definition save_profile_action (profile_name : option string) (args : Settings.t)
    (profiles : gmap string (option Profile.t)) : result unit * gmap string (option Profile.t) :=
  if negb (Py.truthy_opt profile_name) then (Raise (SystemExit 1), profiles)
  else (Return tt, save_profile (default EmptyString profile_name)
                     (profile_config args) profiles).

(** The five [if]s of [main] that follow [load_profile]. *)
Definition apply_profile (profile : Profile.t) (args : Settings.t) : Settings.t :=
  let models :=
    match Profile.models profile with
    | Some m => if String.eqb (Settings.models args) "gpt-5.2" then m
                else Settings.models args
    | None => Settings.models args
    end in
  let focus :=
    match Profile.focus profile with
    | Some f => if negb (Py.truthy_opt (Settings.focus args)) then f
                else Settings.focus args
    | None => Settings.focus args
    end in
  let persona :=
    match Profile.persona profile with
    | Some p => if negb (Py.truthy_opt (Settings.persona args)) then p
                else Settings.persona args
    | None => Settings.persona args
    end in
  let context :=
    match Profile.context profile with
    | Some c => if bool_decide (Settings.context args = []) then c
                else Settings.context args
    | None => Settings.context args
    end in
  let preserve_intent :=
    if default false (Profile.preserve_intent profile)
       && negb (Settings.preserve_intent args)
    then default false (Profile.preserve_intent profile)
    else Settings.preserve_intent args in
  Settings.mk models focus persona context preserve_intent.

(** [if args.profile: profile = load_profile(args.profile); ...] *)
Definition use_profile (profile : option string) (args : Settings.t)
    (profiles : gmap string (option Profile.t)) : result Settings.t :=
  match profile with
  | Some name =>
      if Py.truthy name then
        match load_profile name profiles with
        | Return p => Return (apply_profile p args)
        | Raise e => Raise e
        end
      else Return args
  | None => Return args
  end.

(** The settings of a command line that gives none. *)
Definition default_settings : Settings.t :=
  Settings.mk "gpt-5.2" None None [] false.

(** The [critique] action from the profile step on: the settings of the
    command line with the profile applied, then [main] as above.  (The
    merged list of context files only feeds the prompt.) *)
Definition settings_of (args : Args.t) (context : list string) : Settings.t :=
  Settings.mk (Args.models args) (Args.focus args) (Args.persona args) context
    (Args.preserve_intent args).

Definition with_settings (args : Args.t) (s : Settings.t) : Args.t :=
  Args.mk (Settings.models s) (Args.round args) (Args.press args) (Settings.focus s)
    (Settings.persona s) (Settings.preserve_intent s) (Args.session args)
    (Args.resume args).

Definition critique (isoformat : nat -> string) (profile : option string)
    (context : list string) (profiles : gmap string (option Profile.t))
    (args : Args.t) (stdin : string)
    (completion : nat -> nat -> outcome) (order : list nat) : M RoundOutput.t :=
  match use_profile profile (settings_of args context) profiles with
  | Raise e => raise e
  | Return s => main isoformat (with_settings args s) stdin completion order
  end.

(** ** [load_api_keys] *)

(** [s.endswith(suffix)] *)
Definition endswith (s suffix : string) : bool :=
  (String.length suffix <=? String.length s)%nat &&
  String.eqb
    (String.substring (String.length s - String.length suffix) (String.length suffix) s)
    suffix.

(** Some character of [s] is [c]. *)
Fixpoint has_char (c : ascii) (s : string) : bool :=
  match s with
  | EmptyString => false
  | String c' s' => Ascii.eqb c' c || has_char c s'
  end.

(** A value of the object in [keys.json], as far as the script looks at
    it: a string, or a value of another type with its truth value. *)
Inductive json_value : Type :=
| JString (s : string)
| JOther (truthy : bool).

Definition json_truthy (v : json_value) : bool :=
  match v with
  | JString s => Py.truthy s
  | JOther b => b
  end.

(** What [KEYS_FILE] holds: no file; a file that cannot be read or parsed
    ([IOError], [json.JSONDecodeError]); JSON that is no object; an object,
    as its items in order. *)
Inductive keys_file : Type :=
| NoFile
| Unreadable
| NotAnObject
| Keys (items : list (string * json_value)).

(** The exceptions [load_api_keys] lets through. *)
Inductive crash : Type :=
| TypeError        (* os.environ[name] = value, value not a str *)
| EnvValueError    (* ValueError: illegal name or embedded null byte *)
| AttributeError.  (* keys.items() on something that is no dict *)

(** [os.environ] and the global [_keys_from_config]. *)
Record KeyState : Type := mkKeyState {
  environ : gmap string string;
  keys_from_config : gset string
}.

(** [os.environ[name] = value]: [putenv] refuses a name with [=] in it and
    a name or a value with a null byte. *)
Definition environ_setitem (name : string) (value : json_value)
    (env : gmap string string) : crash + gmap string string :=
  match value with
  | JOther _ => inl TypeError
  | JString v =>
      if has_char "000" name || has_char "000" v || has_char "=" name || negb (Py.truthy name)
      then inl EnvValueError
      else inr (<[name := v]> env)
  end.

(** The body of the loop over [keys.items()]. *)
Definition load_item (key_name : string) (key_value : json_value) (st : KeyState)
  : crash + KeyState :=
  if endswith key_name "_API_KEY" && json_truthy key_value then
    if negb (Py.truthy_opt (environ st !! key_name)) then
      match environ_setitem key_name key_value (environ st) with
      | inl e => inl e
      | inr env => inr (mkKeyState env ({[key_name]} ∪ keys_from_config st))
      end
    else inr st
  else inr st.

Fixpoint load_items (items : list (string * json_value)) (st : KeyState)
  : option crash * KeyState :=
  match items with
  | [] => (None, st)
  | (key_name, key_value) :: rest =>
      match load_item key_name key_value st with
      | inl e => (Some e, st)
      | inr st' => load_items rest st'
      end
  end.

(** [load_api_keys()]: the exception it lets through, if any, and the
    environment and the set of names it leaves. *)
Definition load_api_keys (file : keys_file) (st : KeyState) : option crash * KeyState :=
  match file with
  | NoFile => (None, st)
  | Unreadable => (None, st)
  | NotAnObject => (Some AttributeError, st)
  | Keys items => load_items items st
  end.

(** An item of [keys.json] that can be stored in the environment. *)
Definition storable (item : string * json_value) : Prop :=
  match item.2 with
  | JString v =>
      has_char "000" item.1 = false /\ has_char "000" v = false /\
      has_char "=" item.1 = false
  | JOther b => b = false
  end.

(** A name that [load_api_keys] took from the file: it stands in the file
    with a non-empty string, was not set in the environment, and is set
    to that string and recorded afterwards. *)
Definition taken (items : list (string * json_value)) (st st' : KeyState)
    (name : string) : Prop :=
  exists v,
    (name, JString v) ∈ items /\ v <> EmptyString /\
    endswith name "_API_KEY" = true /\
    Py.truthy_opt (environ st !! name) = false /\
    environ st' !! name = Some v /\ name ∈ keys_from_config st'.

(** A [keys.json] with two keys and a note, and an environment in which
    one of the keys is set. *)
Definition ex_keys : keys_file :=
  Keys [("OPENAI_API_KEY", JString "sk-file"); ("GEMINI_API_KEY", JString "g-file");
        ("comment", JString "shared keys")].

Definition ex_key_state : KeyState :=
  mkKeyState {["OPENAI_API_KEY" := "sk-env"]} ∅.

(** The settings of
    [save-profile rigorous --models gpt-5.2,xai/grok-3 --focus risks --preserve-intent]. *)
Definition ex_settings : Settings.t :=
  Settings.mk "gpt-5.2,xai/grok-3" (Some "risks") None [] true.

(** ** Vocabulary of the further statements *)

(** No character of [s] is a comma. *)
Fixpoint comma_free (s : string) : bool :=
  match s with
  | EmptyString => true
  | String c s' => negb (Ascii.eqb c ",") && comma_free s'
  end.

(** A roster entry as [parse_models] leaves it: not empty, without
    surrounding whitespace, without a comma. *)
Definition clean_model (m : string) : Prop :=
  m <> EmptyString /\ Py.strip m = m /\ comma_free m = true.

(** The sum of one token count over the per-model subtotals. *)
Definition subtotal (f : ModelTotals.t -> Z) (m : gmap string ModelTotals.t) : Z :=
  map_fold (fun _ v acc => f v + acc) 0 m.

(** The token totals of a tracker are the sums of its per-model
    subtotals. *)
Definition balanced (c : CostTracker.t) : Prop :=
  CostTracker.total_input_tokens c
    = subtotal ModelTotals.input_tokens (CostTracker.by_model c) /\
  CostTracker.total_output_tokens c
    = subtotal ModelTotals.output_tokens (CostTracker.by_model c).

(** Token counts summed over a list of responses. *)
Definition sum_tokens (f : ModelResponse.t -> Z) (rs : list ModelResponse.t) : Z :=
  foldr (fun r acc => f r + acc) 0 rs.

(** The two ways in which the opening block of [main] comes through: the
    artifact read from standard input, or the stored session. *)
Definition read_outcome (args : Args.t) (stdin : string) (w : World)
    (st : option SessionState.t * string * Args.t * list string) : Prop :=
  (Py.truthy_opt (Args.resume args) = false /\
   Py.strip stdin <> EmptyString /\
   st = (None, Py.strip stdin, args, parse_models (Args.models args))) \/
  (exists id s0 args',
     Args.resume args = Some id /\ Py.truthy id = true /\
     sessions w !! id = Some s0 /\
     Args.round args' = SessionState.round s0 /\
     Args.session args' = Args.session args /\
     st = (Some s0, SessionState.spec s0, args', SessionState.models s0)).

(** The command line [args] with another roster and round number. *)
Definition with_models_round (args : Args.t) (models : string) (round : Z) : Args.t :=
  Args.mk models round (Args.press args) (Args.focus args) (Args.persona args)
    (Args.preserve_intent args) (Args.session args) (Args.resume args).

(** A command line without [--session] and without [--resume]. *)
Definition ex_plain_args : Args.t :=
  Args.mk "critic1, critic2" 1 false None None false None None.

(** * Proofs *)

(** ** Strings, [find], slices and [strip] *)

Section StringFacts.

Lemma append_cons (c : ascii) (s t : string) : String c s +:+ t = String c (s +:+ t).
Proof. reflexivity. Qed.

Lemma append_nil_l (t : string) : EmptyString +:+ t = t.
Proof. reflexivity. Qed.

Lemma append_assoc (s1 s2 s3 : string) : (s1 +:+ s2) +:+ s3 = s1 +:+ s2 +:+ s3.
Proof. induction s1 as [|c s1 IH]; [reflexivity | rewrite !append_cons; simpl; congruence]. Qed.

Lemma append_empty_r (s : string) : s +:+ EmptyString = s.
Proof. induction s as [|c s IH]; [reflexivity | rewrite append_cons; congruence]. Qed.

Lemma length_append (s1 s2 : string) :
  String.length (s1 +:+ s2) = (String.length s1 + String.length s2)%nat.
Proof. induction s1 as [|c s1 IH]; [reflexivity | rewrite !append_cons; simpl; congruence]. Qed.

Lemma startswith_iff (sub s : string) :
  Py.startswith sub s = true <-> exists post, s = sub +:+ post.
Proof.
  revert s. induction sub as [|a sub IH]; intros s; simpl.
  - split; [intros _; now exists s | reflexivity].
  - destruct s as [|b s].
    + split; [discriminate | intros [post H]; discriminate].
    + rewrite andb_true_iff, Ascii.eqb_eq, IH. split.
      * intros [-> [post ->]]. now exists post.
      * intros [post H]. injection H as -> ->. split; [reflexivity | now exists post].
Qed.

Lemma occurs_at_0 (sub s : string) :
  occurs_at sub s 0 <-> Py.startswith sub s = true.
Proof.
  rewrite startswith_iff. split.
  - intros (pre & post & -> & Hlen). destruct pre; [|discriminate]. now exists post.
  - intros [post ->]. now exists EmptyString, post.
Qed.

Lemma occurs_at_S (sub : string) (c : ascii) (s : string) (i : nat) :
  occurs_at sub (String c s) (S i) <-> occurs_at sub s i.
Proof.
  split.
  - intros (pre & post & H & Hlen). destruct pre as [|a pre]; [discriminate|].
    simpl in H, Hlen. injection H as -> ->. exists pre, post. split; [reflexivity | lia].
  - intros (pre & post & -> & Hlen). exists (String c pre), post. simpl. split; [reflexivity | lia].
Qed.

Lemma occurs_at_empty (sub : string) (i : nat) :
  occurs_at sub EmptyString i -> i = 0%nat.
Proof.
  intros (pre & post & H & Hlen). destruct pre; [simpl in Hlen; lia | discriminate].
Qed.

Lemma contains_iff (sub s : string) :
  Py.contains sub s = true <-> exists i, occurs_at sub s i.
Proof.
  induction s as [|c s IH]; simpl.
  - rewrite orb_false_r, <- occurs_at_0. split; [eauto|].
    intros [i H]. now rewrite (occurs_at_empty _ _ H) in H.
  - rewrite orb_true_iff, IH, <- occurs_at_0. split.
    + intros [H | [i H]]; [eauto|]. exists (S i). now apply occurs_at_S.
    + intros [[|i] H]; [now left|]. right. exists i. now apply occurs_at_S in H.
Qed.

Lemma contains_false_absent (sub s : string) :
  Py.contains sub s = false <-> absent sub s.
Proof.
  rewrite <- not_true_iff_false, contains_iff. unfold absent. firstorder.
Qed.

Lemma first_at_unique (sub s : string) (i j : nat) :
  first_at sub s i -> first_at sub s j -> i = j.
Proof.
  intros [Hi Hi'] [Hj Hj']. destruct (Nat.lt_trichotomy i j) as [H | [H | H]];
    [exfalso; eapply Hj'; eauto | assumption | exfalso; eapply Hi'; eauto].
Qed.

Lemma find_from_spec (sub s : string) (i : Z) :
  (absent sub s /\ Py.find_from sub s i = -1) \/
  (exists n, first_at sub s n /\ Py.find_from sub s i = i + Z.of_nat n).
Proof.
  revert i. induction s as [|c s IH]; intros i; simpl.
  - destruct (Py.startswith sub EmptyString) eqn:E.
    + right. exists 0%nat. split; [|lia]. split; [now apply occurs_at_0 | intros j Hj; lia].
    + left. split; [|reflexivity]. intros j Hj. pose proof (occurs_at_empty _ _ Hj) as ->.
      apply occurs_at_0 in Hj. congruence.
  - destruct (Py.startswith sub (String c s)) eqn:E.
    + right. exists 0%nat. split; [|lia]. split; [now apply occurs_at_0 | intros j Hj; lia].
    + destruct (IH (i + 1)) as [[Ha Hf] | (n & [Hn Hmin] & Hf)].
      * left. split; [|assumption]. intros [|j] Hj.
        -- apply occurs_at_0 in Hj. congruence.
        -- apply occurs_at_S in Hj. now apply (Ha j).
      * right. exists (S n). split; [|lia]. split; [now apply occurs_at_S|].
        intros [|j] Hj Ho.
        -- apply occurs_at_0 in Ho. congruence.
        -- apply occurs_at_S in Ho. apply (Hmin j); [lia | assumption].
Qed.

Lemma find_first_at (sub s : string) (n : nat) :
  first_at sub s n -> Py.find s sub = Z.of_nat n /\ Py.contains sub s = true.
Proof.
  intros Hn. split.
  - unfold Py.find. destruct (find_from_spec sub s 0) as [[Ha _] | (m & Hm & ->)].
    + destruct Hn as [Hn _]. now apply Ha in Hn.
    + rewrite (first_at_unique _ _ _ _ Hm Hn). lia.
  - apply contains_iff. exists n. apply Hn.
Qed.

Lemma find_first_at_inv (sub s : string) (n : nat) :
  Py.find s sub = Z.of_nat n -> first_at sub s n.
Proof.
  unfold Py.find. intros H. destruct (find_from_spec sub s 0) as [[_ Hf] | (m & Hm & Hf)].
  - lia.
  - replace n with m by lia. assumption.
Qed.

Lemma append_split (p1 r1 p2 r2 : string) :
  p1 +:+ r1 = p2 +:+ r2 -> (String.length p1 <= String.length p2)%nat ->
  exists m, p2 = p1 +:+ m /\ r1 = m +:+ r2.
Proof.
  revert p2. induction p1 as [|c p1 IH]; intros p2 H Hlen.
  - exists p2. now rewrite !append_nil_l in *.
  - destruct p2 as [|d p2]; [simpl in Hlen; lia|].
    rewrite !append_cons in H. injection H as -> H.
    destruct (IH p2 H) as (m & -> & ->); [simpl in Hlen; lia|].
    exists m. now rewrite append_cons.
Qed.

Lemma substring_zero (n : nat) (s : string) : substring n 0 s = EmptyString.
Proof.
  revert s. induction n as [|n IH]; intros [|c s]; simpl; auto.
Qed.

Lemma substring_prefix (mid post : string) :
  substring 0 (String.length mid) (mid +:+ post) = mid.
Proof.
  induction mid as [|c mid IH]; [destruct post; reflexivity|].
  rewrite append_cons. simpl. now rewrite IH.
Qed.

Lemma substring_append (pre mid post : string) :
  substring (String.length pre) (String.length mid) (pre +:+ mid +:+ post) = mid.
Proof.
  induction pre as [|c pre IH]; [exact (substring_prefix mid post)|].
  rewrite append_cons. simpl. apply IH.
Qed.

Lemma slice_between (pre mid post : string) :
  Py.slice (pre +:+ mid +:+ post) (Py.len pre) (Py.len pre + Py.len mid) = mid.
Proof.
  unfold Py.slice, Py.slice_index, Py.len. rewrite !length_append.
  destruct (Z.ltb_spec (Z.of_nat (String.length pre)) 0); [lia|].
  destruct (Z.ltb_spec (Z.of_nat (String.length pre) + Z.of_nat (String.length mid)) 0); [lia|].
  rewrite !Z.min_l by lia.
  replace (Z.to_nat (Z.of_nat (String.length pre))) with (String.length pre) by lia.
  replace (Z.to_nat _) with (String.length mid) by lia.
  apply substring_append.
Qed.

Lemma slice_crossed (s : string) (start stop : Z) :
  0 <= stop < start -> Py.slice s start stop = EmptyString.
Proof.
  intros H. unfold Py.slice, Py.slice_index.
  destruct (Z.ltb_spec start 0); [lia|]. destruct (Z.ltb_spec stop 0); [lia|].
  replace (Z.to_nat (Z.min stop (Py.len s) - Z.min start (Py.len s))) with 0%nat by lia.
  apply substring_zero.
Qed.

Lemma get_occurs (sub s : string) (i k : nat) :
  occurs_at sub s i -> (k < String.length sub)%nat ->
  String.get (i + k) s = String.get k sub.
Proof.
  intros (pre & post & -> & <-) Hk.
  rewrite (Nat.add_comm _ k), <- append_correct2. symmetry. now apply append_correct1.
Qed.

(** An opening marker leaves no room for a closing marker to start
    inside it. *)
Lemma markers_apart (s : string) (b e : nat) :
  occurs_at SPEC_OPEN s b -> occurs_at SPEC_CLOSE s e -> (b < e)%nat ->
  (b + 6 <= e)%nat.
Proof.
  intros Hb He Hlt.
  destruct (Nat.le_gt_cases (b + 6) e) as [|Hgt]; [assumption | exfalso].
  pose proof (get_occurs _ _ e 0 He ltac:(simpl; lia)) as H0.
  rewrite Nat.add_0_r in H0.
  assert (exists d, e = (b + d)%nat /\ (1 <= d <= 5)%nat) as (d & -> & Hd)
    by (exists (e - b)%nat; lia).
  assert (d < String.length SPEC_OPEN)%nat as Hd' by (simpl; lia).
  rewrite (get_occurs _ _ b d Hb Hd') in H0.
  destruct d as [|[|[|[|[|[|d]]]]]]; try lia; discriminate H0.
Qed.

Lemma lstrip_spec (s : string) :
  (exists l, s = l +:+ Py.lstrip s /\ all_space l = true) /\
  (forall c t, Py.lstrip s = String c t -> Py.isspace c = false).
Proof.
  induction s as [|a s [(l & Hl & Hsp) IH]]; simpl.
  - split; [now exists EmptyString | discriminate].
  - destruct (Py.isspace a) eqn:E.
    + split; [|assumption]. exists (String a l). rewrite append_cons, <- Hl. simpl.
      now rewrite E, Hsp.
    + split; [now exists EmptyString|]. intros c t [= <- _]. assumption.
Qed.

Lemma rstrip_spec (s : string) :
  (exists r, s = Py.rstrip s +:+ r /\ all_space r = true) /\
  (forall t c, Py.rstrip s = t +:+ String c EmptyString -> Py.isspace c = false) /\
  (forall c t, Py.rstrip s = String c t -> exists t', s = String c t').
Proof.
  induction s as [|a s [(r & Hr & Hsp) [IH1 IH2]]]; simpl.
  - split; [now exists EmptyString|]. split; [|discriminate].
    intros [|? ?] c H; discriminate H.
  - destruct (Py.rstrip s) as [|b u] eqn:E.
    + rewrite append_nil_l in Hr. subst r. destruct (Py.isspace a) eqn:Ea.
      * split; [exists (String a s); simpl; now rewrite Ea, Hsp|].
        split; [|discriminate]. intros [|? ?] c H; discriminate H.
      * split; [now exists s|]. split.
        -- intros [|d t] c H; [injection H as <-; assumption|].
           rewrite append_cons in H. injection H as _ H. destruct t; discriminate H.
        -- intros c t [= <- _]. eauto.
    + split; [exists r; rewrite append_cons; now rewrite <- Hr|]. split.
      * intros [|d t] c H; [discriminate H|].
        rewrite append_cons in H. injection H as _ H. now apply (IH1 t c).
      * intros c t [= <- _]. eauto.
Qed.

Lemma strip_trimmed (s : string) : trimmed s (Py.strip s).
Proof.
  unfold Py.strip.
  destruct (lstrip_spec s) as [(l & Hl & Hlsp) Hfirst].
  destruct (rstrip_spec (Py.lstrip s)) as [(r & Hr & Hrsp) [Hlast Hsame]].
  split; [|split].
  - exists l, r. split; [|now split]. now rewrite <- Hr.
  - intros c t H. destruct (Hsame c t H) as [t' Ht']. now apply (Hfirst c t').
  - assumption.
Qed.

Lemma extract_spec_ordered (text : string) (b e : nat) :
  first_at SPEC_OPEN text b -> first_at SPEC_CLOSE text e -> (b < e)%nat ->
  exists pre mid post,
    text = pre +:+ SPEC_OPEN +:+ mid +:+ SPEC_CLOSE +:+ post /\
    String.length pre = b /\
    String.length (pre +:+ SPEC_OPEN +:+ mid) = e /\
    extract_spec text = Some (Py.strip mid).
Proof.
  intros Hb He Hlt.
  pose proof (markers_apart text b e (proj1 Hb) (proj1 He) Hlt) as Hapart.
  destruct (find_first_at _ _ _ Hb) as [Hfb Hcb].
  destruct (find_first_at _ _ _ He) as [Hfe Hce].
  destruct (proj1 Hb) as (pre & rest & Htext & Hpre).
  destruct (proj1 He) as (pre' & post & Htext' & Hpre').
  assert (Hsplit : (pre +:+ SPEC_OPEN) +:+ rest = pre' +:+ SPEC_CLOSE +:+ post)
    by (rewrite append_assoc; congruence).
  apply append_split in Hsplit as (mid & Hmid & Hrest);
    [|rewrite length_append; simpl; lia].
  exists pre, mid, post. subst pre' rest.
  assert (Hlen : String.length ((pre +:+ SPEC_OPEN) +:+ mid) = e) by assumption.
  rewrite append_assoc in Hlen.
  repeat split; try assumption.
  unfold extract_spec. rewrite Hcb, Hce, Hfb, Hfe. simpl negb. simpl orb. cbv iota.
  f_equal. f_equal.
  rewrite Htext, <- (append_assoc pre SPEC_OPEN).
  replace (Z.of_nat b + Py.len SPEC_OPEN) with (Py.len (pre +:+ SPEC_OPEN))
    by (unfold Py.len; rewrite length_append; simpl; lia).
  replace (Z.of_nat e) with (Py.len (pre +:+ SPEC_OPEN) + Py.len mid)
    by (unfold Py.len; rewrite <- Hlen, <- append_assoc, !length_append; lia).
  apply slice_between.
Qed.

Lemma extract_spec_absent (text : string) :
  absent SPEC_OPEN text \/ absent SPEC_CLOSE text -> extract_spec text = None.
Proof.
  unfold extract_spec. intros [H | H]; apply contains_false_absent in H; rewrite H;
    [reflexivity | now rewrite orb_true_r].
Qed.

Lemma extract_spec_reversed (text : string) (b e : nat) :
  first_at SPEC_OPEN text b -> first_at SPEC_CLOSE text e -> (e < b)%nat ->
  extract_spec text = Some EmptyString.
Proof.
  intros Hb He Hlt.
  destruct (find_first_at _ _ _ Hb) as [Hfb Hcb].
  destruct (find_first_at _ _ _ He) as [Hfe Hce].
  unfold extract_spec. rewrite Hcb, Hce, Hfb, Hfe. simpl negb. simpl orb. cbv iota.
  rewrite slice_crossed; [reflexivity|]. unfold Py.len. simpl. lia.
Qed.

End StringFacts.

(** ** The retry loop *)

Section Invoker.

Lemma truediv_raise (a b : Z) (e : exn) :
  truediv a b = Raise e -> is_Exception e = true.
Proof.
  unfold truediv. destruct (b =? 0); [intros [= <-]; reflexivity|].
  destruct (SFdiv _ _ _ _); intros [= <-]; reflexivity.
Qed.

Lemma add_raise (self : CostTracker.t) (model : string) (i o : Z) (e : exn) :
  CostTracker.add self model i o = Raise e -> is_Exception e = true.
Proof.
  unfold CostTracker.add.
  destruct (truediv i 1000000) eqn:Ei; [|intros [= <-]; eapply truediv_raise; eauto].
  destruct (truediv o 1000000) eqn:Eo; [discriminate|intros [= <-]; eapply truediv_raise; eauto].
Qed.

(** Whether [add] raises, and the cost it returns, do not depend on the
    tracker it is applied to. *)
Lemma add_indep (self1 self2 : CostTracker.t) (model : string) (i o : Z) :
  match CostTracker.add self1 model i o, CostTracker.add self2 model i o with
  | Return (c1, _), Return (c2, _) => c1 = c2
  | Raise e1, Raise e2 => e1 = e2
  | _, _ => False
  end.
Proof.
  unfold CostTracker.add.
  destruct (truediv i 1000000); [|reflexivity].
  destruct (truediv o 1000000); reflexivity.
Qed.

Lemma attempt_body_run (model : string) (reply : outcome) (w : World) :
  let w1 := set_trace (trace w ++ [Completion model]) w in
  attempt_body model reply w =
    match reply with
    | Failed msg => (Raise (ProviderError msg), w1)
    | Responded content usage =>
        match CostTracker.add (cost_tracker w) model (tokens_in usage) (tokens_out usage) with
        | Return (cost, c') =>
            (Return (ModelResponse.mk model content (Py.contains AGREE content)
                       (extract_spec content) None (tokens_in usage) (tokens_out usage) cost),
             set_cost_tracker c' w1)
        | Raise e => (Raise e, w1)
        end
    end.
Proof.
  destruct reply as [content usage | msg]; [|reflexivity].
  cbv zeta. unfold attempt_body, completion_call, bind, log, ret, cost_tracker_add.
  cbn [fst snd cost_tracker set_trace].
  destruct (CostTracker.add _ _ _ _) as [[cost c']|e]; reflexivity.
Qed.

Lemma retry_loop_failed (model : string) (replies : nat -> outcome) (attempt : Z)
    (rest : list Z) (last_error : option string) (w : World) (msg : string) :
  replies (Z.to_nat attempt) = Failed msg ->
  retry_loop model replies (attempt :: rest) last_error w =
    retry_loop model replies rest (Some msg)
      (set_trace
         (trace w ++ Completion model ::
            (if attempt <? MAX_RETRIES - 1 then [Sleep (backoff attempt)] else []))
         w).
Proof.
  intros H. cbn [retry_loop]. unfold try_except. rewrite attempt_body_run, H.
  cbn [is_Exception str]. unfold bind.
  destruct (attempt <? MAX_RETRIES - 1); unfold sleep, log, ret; cbn [trace set_trace];
    [rewrite <- app_assoc|]; reflexivity.
Qed.

Lemma retry_loop_responded (model : string) (replies : nat -> outcome) (attempt : Z)
    (rest : list Z) (last_error : option string) (w : World)
    (content : string) (usage : option Usage) (cost : float) (c' : CostTracker.t) :
  replies (Z.to_nat attempt) = Responded content usage ->
  CostTracker.add (cost_tracker w) model (tokens_in usage) (tokens_out usage)
    = Return (cost, c') ->
  retry_loop model replies (attempt :: rest) last_error w =
    (Return (ModelResponse.mk model content (Py.contains AGREE content)
               (extract_spec content) None (tokens_in usage) (tokens_out usage) cost),
     mkWorld c' (trace w ++ [Completion model]) (sessions w) (checkpoints w) (clock w)).
Proof.
  intros H Hadd. cbn [retry_loop]. unfold try_except. rewrite attempt_body_run, H, Hadd.
  reflexivity.
Qed.

Lemma retry_loop_overflow (model : string) (replies : nat -> outcome) (attempt : Z)
    (rest : list Z) (last_error : option string) (w : World)
    (content : string) (usage : option Usage) (e : exn) :
  replies (Z.to_nat attempt) = Responded content usage ->
  CostTracker.add (cost_tracker w) model (tokens_in usage) (tokens_out usage) = Raise e ->
  retry_loop model replies (attempt :: rest) last_error w =
    retry_loop model replies rest (Some (str e))
      (set_trace
         (trace w ++ Completion model ::
            (if attempt <? MAX_RETRIES - 1 then [Sleep (backoff attempt)] else []))
         w).
Proof.
  intros H Hadd. cbn [retry_loop]. unfold try_except. rewrite attempt_body_run, H, Hadd.
  rewrite (add_raise _ _ _ _ _ Hadd). unfold bind.
  destruct (attempt <? MAX_RETRIES - 1); unfold sleep, log, ret; cbn [trace set_trace];
    [rewrite <- app_assoc|]; reflexivity.
Qed.

Lemma retry_loop_returns (model : string) (replies : nat -> outcome)
    (attempts : list Z) (last_error : option string) (w : World) :
  exists r w',
    retry_loop model replies attempts last_error w = (Return r, w') /\
    sessions w' = sessions w /\ checkpoints w' = checkpoints w /\ clock w' = clock w /\
    ModelResponse.model r = model /\
    (ModelResponse.error r <> None ->
     blank_error r /\ cost_tracker w' = cost_tracker w) /\
    (exists t, trace w' = trace w ++ t /\ (requests t <= length attempts)%nat).
Proof.
  revert last_error w. induction attempts as [|attempt rest IH]; intros last_error w.
  - eexists _, w. cbn. unfold ret. split; [reflexivity|].
    repeat split; try reflexivity; try congruence.
    exists []. now rewrite app_nil_r.
  - destruct (replies (Z.to_nat attempt)) as [content usage | msg] eqn:E.
    + destruct (CostTracker.add (cost_tracker w) model (tokens_in usage) (tokens_out usage))
        as [[cost c']|e] eqn:Hadd.
      * rewrite (retry_loop_responded _ _ _ _ _ _ _ _ _ _ E Hadd).
        eexists _, _. split; [reflexivity|]. cbn. repeat split; try congruence.
        exists [Completion model]. split; [reflexivity | cbn; lia].
      * rewrite (retry_loop_overflow _ _ _ _ _ _ _ _ _ E Hadd).
        destruct (IH (Some (str e)) (set_trace
         (trace w ++ Completion model ::
            (if attempt <? MAX_RETRIES - 1 then [Sleep (backoff attempt)] else []))
         w)) as (r & w' & -> & ? & ? & ? & ? & ? & (t & Ht & Hn)).
        exists r, w'. split; [reflexivity|]. repeat (split; [assumption|]).
        eexists. rewrite Ht. cbn [trace set_trace]. rewrite <- app_assoc. split; [reflexivity|].
        destruct (attempt <? MAX_RETRIES - 1); cbn; lia.
    + rewrite (retry_loop_failed _ _ _ _ _ _ _ E).
      destruct (IH (Some msg) (set_trace
         (trace w ++ Completion model ::
            (if attempt <? MAX_RETRIES - 1 then [Sleep (backoff attempt)] else []))
         w)) as (r & w' & -> & ? & ? & ? & ? & ? & (t & Ht & Hn)).
      exists r, w'. split; [reflexivity|]. repeat (split; [assumption|]).
      eexists. rewrite Ht. cbn [trace set_trace]. rewrite <- app_assoc. split; [reflexivity|].
      destruct (attempt <? MAX_RETRIES - 1); cbn; lia.
Qed.

Lemma retry_loop_indep (model : string) (replies : nat -> outcome)
    (attempts : list Z) (last_error : option string) (w1 w2 : World) :
  (retry_loop model replies attempts last_error w1).1 =
  (retry_loop model replies attempts last_error w2).1.
Proof.
  revert last_error w1 w2. induction attempts as [|attempt rest IH]; intros last_error w1 w2.
  - reflexivity.
  - destruct (replies (Z.to_nat attempt)) as [content usage | msg] eqn:E.
    + pose proof (add_indep (cost_tracker w1) (cost_tracker w2) model
                    (tokens_in usage) (tokens_out usage)) as Hi.
      destruct (CostTracker.add (cost_tracker w1) _ _ _) as [[cost1 c1]|e1] eqn:H1;
        destruct (CostTracker.add (cost_tracker w2) _ _ _) as [[cost2 c2]|e2] eqn:H2;
        try contradiction; subst.
      * rewrite (retry_loop_responded _ _ _ _ _ _ _ _ _ _ E H1),
          (retry_loop_responded _ _ _ _ _ _ _ _ _ _ E H2). reflexivity.
      * rewrite (retry_loop_overflow _ _ _ _ _ _ _ _ _ E H1),
          (retry_loop_overflow _ _ _ _ _ _ _ _ _ E H2). apply IH.
    + rewrite !(retry_loop_failed _ _ _ _ _ _ _ E). apply IH.
Qed.

Lemma call_single_model_response (model : string) (replies : nat -> outcome) (w : World) :
  exists w',
    call_single_model model replies w = (Return (critic_response model replies), w') /\
    sessions w' = sessions w /\ checkpoints w' = checkpoints w /\ clock w' = clock w.
Proof.
  unfold critic_response, call_single_model.
  pose proof (retry_loop_indep model replies (range MAX_RETRIES) None w world0) as Hi.
  destruct (retry_loop_returns model replies (range MAX_RETRIES) None w)
    as (r & w' & Hr & ? & ? & ? & _).
  destruct (retry_loop_returns model replies (range MAX_RETRIES) None world0)
    as (r0 & w0' & Hr0 & _).
  rewrite Hr, Hr0 in Hi |- *. cbn in Hi. injection Hi as ->. eauto.
Qed.

Lemma collect_run (models : list string) (completion : nat -> nat -> outcome)
    (order : list nat) (w : World) :
  exists w',
    collect models completion order w = (Return (responses_in models completion order), w') /\
    sessions w' = sessions w /\ checkpoints w' = checkpoints w /\ clock w' = clock w.
Proof.
  revert w. induction order as [|i rest IH]; intros w.
  - exists w. now cbn.
  - cbn [collect]. unfold responses_in. cbn [omap list_omap]. unfold response_at at 1.
    destruct (models !! i) as [model|]; cbn [fmap option_fmap option_map].
    + destruct (call_single_model_response model (completion i) w) as (w1 & H1 & F1 & F2 & F3).
      destruct (IH w1) as (w2 & H2 & G1 & G2 & G3).
      exists w2. unfold bind. rewrite H1, H2. unfold ret.
      split; [reflexivity|]. repeat split; congruence.
    + apply IH.
Qed.

Lemma call_models_parallel_run (models : list string)
    (completion : nat -> nat -> outcome) (order : list nat) (w : World) :
  models <> [] ->
  exists w',
    call_models_parallel models completion order w
      = (Return (responses_in models completion order), w') /\
    sessions w' = sessions w /\ checkpoints w' = checkpoints w /\ clock w' = clock w.
Proof.
  intros H. unfold call_models_parallel. rewrite bool_decide_eq_false_2 by assumption.
  apply collect_run.
Qed.

Lemma first_spec_offered (spec : string) (results : list ModelResponse.t) :
  latest_spec spec results = default spec (head (omap offered results)).
Proof.
  unfold latest_spec, successful.
  induction results as [|r rs IH]; [reflexivity|].
  cbn [List.filter omap list_omap]. unfold offered at 1.
  destruct (Py.truthy_opt (ModelResponse.error r)); cbn [negb]; [assumption|].
  cbn [first_spec]. destruct (ModelResponse.spec r) as [s|]; [|assumption].
  destruct (Py.truthy s); [reflexivity | assumption].
Qed.

End Invoker.

(** ** Aggregation and retries *)

Lemma successful_elem (results : list ModelResponse.t) (r : ModelResponse.t) :
  r ∈ successful results <-> r ∈ results /\ error_free r.
Proof.
  unfold successful, error_free. rewrite !list_elem_of_In, filter_In, negb_true_iff. tauto.
Qed.

Theorem all_agreed_iff (results : list ModelResponse.t) :
  all_agreed results = true <->
  (exists r, r ∈ results /\ error_free r) /\
  (forall r, r ∈ results -> error_free r -> ModelResponse.agreed r = true).
Proof.
  unfold all_agreed.
  assert (Hall : forallb ModelResponse.agreed (successful results) = true <->
                 forall r, r ∈ results -> error_free r -> ModelResponse.agreed r = true).
  { rewrite forallb_forall. split.
    - intros H r Hr He. apply H, list_elem_of_In, successful_elem. now split.
    - intros H r Hr. apply list_elem_of_In, successful_elem in Hr as [? ?]. now apply H. }
  destruct (successful results) as [|r0 rs] eqn:E.
  - split; [discriminate|]. intros [(r & Hr & He) _].
    assert (r ∈ successful results) as Hin by (apply successful_elem; now split).
    rewrite E in Hin. now apply elem_of_nil in Hin.
  - rewrite Hall. split; [|tauto]. intros H. split; [|assumption].
    exists r0. apply successful_elem. rewrite E. apply list_elem_of_here.
Qed.

Lemma all_agreed_nil : all_agreed [] = false.
Proof. reflexivity. Qed.

Lemma all_agreed_all_errored (results : list ModelResponse.t) :
  (forall r, r ∈ results -> ~ error_free r) -> all_agreed results = false.
Proof.
  intros H. apply not_true_iff_false. rewrite all_agreed_iff.
  intros [(r & Hr & He) _]. now apply (H r).
Qed.

Lemma call_single_model_returns (model : string) (replies : nat -> outcome) (w : World) :
  exists r w' t,
    call_single_model model replies w = (Return r, w') /\
    trace w' = trace w ++ t /\ (requests t <= 3)%nat.
Proof.
  destruct (retry_loop_returns model replies (range MAX_RETRIES) None w)
    as (r & w' & Hr & _ & _ & _ & _ & _ & (t & Ht & Hn)).
  exists r, w', t. auto.
Qed.

Lemma call_single_model_success (model : string) (replies : nat -> outcome) (w : World)
    (k : nat) (content : string) (usage : option Usage) (cost : float) (c' : CostTracker.t) :
  (k < 3)%nat ->
  (forall j, (j < k)%nat -> exists msg, replies j = Failed msg) ->
  replies k = Responded content usage ->
  CostTracker.add (cost_tracker w) model (tokens_in usage) (tokens_out usage)
    = Return (cost, c') ->
  call_single_model model replies w =
    (Return (ModelResponse.mk model content (Py.contains AGREE content)
               (extract_spec content) None (tokens_in usage) (tokens_out usage) cost),
     mkWorld c'
       (trace w ++
        flat_map (fun j => [Completion model; Sleep (backoff (Z.of_nat j))]) (seq 0 k) ++
        [Completion model])
       (sessions w) (checkpoints w) (clock w)).
Proof.
  intros Hk Hfail Hok Hadd. unfold call_single_model.
  change (range MAX_RETRIES) with [0; 1; 2].
  destruct k as [|[|[|k]]]; [| | |lia].
  - erewrite retry_loop_responded by eassumption. reflexivity.
  - destruct (Hfail 0%nat) as [m0 H0]; [lia|].
    erewrite retry_loop_failed by exact H0.
    erewrite retry_loop_responded by eassumption.
    cbn. now rewrite <- app_assoc.
  - destruct (Hfail 0%nat) as [m0 H0]; [lia|]. destruct (Hfail 1%nat) as [m1 H1]; [lia|].
    erewrite retry_loop_failed by exact H0.
    erewrite retry_loop_failed by exact H1.
    erewrite retry_loop_responded by eassumption.
    cbn. now rewrite <- !app_assoc.
Qed.

Lemma call_single_model_exhausted (model : string) (replies : nat -> outcome) (w : World)
    (msg0 msg1 msg2 : string) :
  replies 0%nat = Failed msg0 -> replies 1%nat = Failed msg1 -> replies 2%nat = Failed msg2 ->
  call_single_model model replies w =
    (Return (ModelResponse.mk model EmptyString false None (Some msg2) 0 0 0%float),
     set_trace
       (trace w ++ [Completion model; Sleep (backoff 0); Completion model;
                    Sleep (backoff 1); Completion model])
       w).
Proof.
  intros H0 H1 H2. unfold call_single_model.
  change (range MAX_RETRIES) with [0; 1; 2].
  erewrite retry_loop_failed by exact H0.
  erewrite retry_loop_failed by exact H1.
  erewrite retry_loop_failed by exact H2.
  cbn. now rewrite <- !app_assoc.
Qed.

Lemma call_single_model_error (model : string) (replies : nat -> outcome)
    (w w' : World) (r : ModelResponse.t) :
  call_single_model model replies w = (Return r, w') ->
  ModelResponse.error r <> None ->
  blank_error r /\ cost_tracker w' = cost_tracker w.
Proof.
  intros Hrun Herr.
  destruct (retry_loop_returns model replies (range MAX_RETRIES) None w)
    as (r1 & w1 & Hr & _ & _ & _ & _ & Hblank & _).
  unfold call_single_model in Hrun. rewrite Hr in Hrun. injection Hrun as <- <-.
  now apply Hblank.
Qed.

(** ** The ledger and the fan-out *)

Lemma add_returns (self : CostTracker.t) (model : string)
    (input_tokens output_tokens : Z) (qi qo : float) :
  truediv input_tokens 1000000 = Return qi ->
  truediv output_tokens 1000000 = Return qo ->
  let price := default DEFAULT_COST (MODEL_COSTS !! model) in
  let cost := (qi * input price + qo * output price)%float in
  let before := default ModelTotals.zero (CostTracker.by_model self !! model) in
  exists self',
    CostTracker.add self model input_tokens output_tokens = Return (cost, self') /\
    CostTracker.total_input_tokens self'
      = CostTracker.total_input_tokens self + input_tokens /\
    CostTracker.total_output_tokens self'
      = CostTracker.total_output_tokens self + output_tokens /\
    CostTracker.total_cost self' = (CostTracker.total_cost self + cost)%float /\
    CostTracker.by_model self' !! model =
      Some (ModelTotals.mk
              (ModelTotals.input_tokens before + input_tokens)
              (ModelTotals.output_tokens before + output_tokens)
              (ModelTotals.cost before + cost)%float) /\
    (forall other, other <> model ->
       CostTracker.by_model self' !! other = CostTracker.by_model self !! other).
Proof.
  intros Hi Ho price cost before. unfold CostTracker.add. rewrite Hi, Ho.
  eexists. split; [reflexivity|]. cbn.
  repeat split.
  - apply lookup_insert_eq.
  - intros other Hne. now apply lookup_insert_ne.
Qed.

Lemma add_inv (self self' : CostTracker.t) (model : string)
    (input_tokens output_tokens : Z) (cost : float) :
  CostTracker.add self model input_tokens output_tokens = Return (cost, self') ->
  exists qi qo,
    truediv input_tokens 1000000 = Return qi /\
    truediv output_tokens 1000000 = Return qo.
Proof.
  unfold CostTracker.add.
  destruct (truediv input_tokens 1000000) as [qi|]; [|discriminate].
  destruct (truediv output_tokens 1000000) as [qo|]; [|discriminate]. eauto.
Qed.

Lemma add_twice (self s1 s2 : CostTracker.t) (model : string)
    (i1 o1 i2 o2 : Z) (c1 c2 : float) :
  CostTracker.add self model i1 o1 = Return (c1, s1) ->
  CostTracker.add s1 model i2 o2 = Return (c2, s2) ->
  let before := default ModelTotals.zero (CostTracker.by_model self !! model) in
  CostTracker.by_model s2 !! model =
    Some (ModelTotals.mk
            (ModelTotals.input_tokens before + i1 + i2)
            (ModelTotals.output_tokens before + o1 + o2)
            (ModelTotals.cost before + c1 + c2)%float) /\
  CostTracker.total_input_tokens s2 = CostTracker.total_input_tokens self + i1 + i2 /\
  CostTracker.total_output_tokens s2 = CostTracker.total_output_tokens self + o1 + o2 /\
  CostTracker.total_cost s2 = (CostTracker.total_cost self + c1 + c2)%float.
Proof.
  intros H1 H2 before.
  destruct (add_inv _ _ _ _ _ _ H1) as (qi1 & qo1 & Hi1 & Ho1).
  destruct (add_inv _ _ _ _ _ _ H2) as (qi2 & qo2 & Hi2 & Ho2).
  destruct (add_returns self model i1 o1 qi1 qo1 Hi1 Ho1) as (s1' & E1 & A1 & B1 & C1 & D1 & _).
  destruct (add_returns s1 model i2 o2 qi2 qo2 Hi2 Ho2) as (s2' & E2 & A2 & B2 & C2 & D2 & _).
  rewrite H1 in E1. injection E1 as -> <-. rewrite H2 in E2. injection E2 as -> <-.
  rewrite D2, D1, A2, A1, B2, B1, C2, C1. cbn. auto.
Qed.

Lemma responses_in_valid (models : list string) (completion : nat -> nat -> outcome)
    (order : list nat) :
  Forall (fun i => (i < length models)%nat) order ->
  Forall2 (fun i r => response_at models completion i = Some r) order
    (responses_in models completion order).
Proof.
  unfold responses_in. induction 1 as [|i rest Hi _ IH]; [constructor|].
  cbn [omap list_omap]. destruct (lookup_lt_is_Some_2 models i Hi) as [m Hm].
  destruct (response_at models completion i) as [r|] eqn:E.
  - now constructor.
  - unfold response_at in E. rewrite Hm in E. discriminate E.
Qed.

Lemma order_valid (models : list string) (order : list nat) :
  order ≡ₚ seq 0 (length models) ->
  Forall (fun i => (i < length models)%nat) order.
Proof.
  intros H. apply Forall_forall. intros i Hi. rewrite H in Hi.
  apply elem_of_seq in Hi. lia.
Qed.

(** ** Selection and the session store *)

Lemma truthy_nonempty (s : string) : Py.truthy s = true <-> s <> EmptyString.
Proof. destruct s; cbn; split; congruence. Qed.

Lemma offered_nonempty (r : ModelResponse.t) (s : string) :
  offered r = Some s -> s <> EmptyString /\ error_free r /\ ModelResponse.spec r = Some s.
Proof.
  unfold offered, error_free. destruct (Py.truthy_opt (ModelResponse.error r)); [discriminate|].
  destruct (ModelResponse.spec r) as [t|]; [|discriminate].
  destruct (Py.truthy t) eqn:E; [|discriminate]. intros [= <-].
  split; [now apply truthy_nonempty | auto].
Qed.

Lemma latest_spec_cases (spec : string) (results : list ModelResponse.t) :
  (latest_spec spec results = spec /\ forall r, r ∈ results -> offered r = None) \/
  (exists r, r ∈ results /\ offered r = Some (latest_spec spec results)).
Proof.
  rewrite first_spec_offered. induction results as [|r rs IH]; cbn [omap list_omap].
  - left. split; [reflexivity|]. intros r Hr. now apply elem_of_nil in Hr.
  - destruct (offered r) as [s|] eqn:E.
    + right. exists r. split; [apply list_elem_of_here | assumption].
    + destruct IH as [[Heq Hnone] | (r' & Hr' & Ho)].
      * left. split; [assumption|]. intros r' [->|Hr']%elem_of_cons; auto.
      * right. exists r'. split; [now apply list_elem_of_further | assumption].
Qed.

Lemma latest_spec_nonempty (spec : string) (results : list ModelResponse.t) :
  spec <> EmptyString -> latest_spec spec results <> EmptyString.
Proof.
  intros Hs. destruct (latest_spec_cases spec results) as [[-> _] | (r & _ & Ho)];
    [assumption | now apply offered_nonempty in Ho].
Qed.

Lemma latest_spec_skips_empty (spec : string) (l1 l2 : list ModelResponse.t)
    (r : ModelResponse.t) :
  ModelResponse.spec r = Some EmptyString ->
  latest_spec spec (l1 ++ r :: l2) = latest_spec spec (l1 ++ without_spec r :: l2).
Proof.
  intros H. rewrite !first_spec_offered. f_equal. f_equal.
  induction l1 as [|a l1 IH]; cbn [app omap list_omap].
  - unfold offered. cbn. rewrite H. cbn. now destruct (Py.truthy_opt _).
  - now rewrite IH.
Qed.

Section Sessions.

Variable isoformat : nat -> string.

Lemma save_run (self : SessionState.t) (w : World) :
  save isoformat self w =
    let self' :=
      SessionState.mk
        (SessionState.session_id self) (SessionState.spec self)
        (SessionState.round self) (SessionState.models self)
        (SessionState.focus self) (SessionState.persona self)
        (SessionState.preserve_intent self) (SessionState.created_at self)
        (isoformat (clock w)) (SessionState.history self) in
    (Return self',
     mkWorld (cost_tracker w) (trace w)
       (<[SessionState.session_id self := self']> (sessions w))
       (checkpoints w) (S (clock w))).
Proof. reflexivity. Qed.

Lemma save_nonempty (self self' : SessionState.t) (w w' : World) :
  artifacts_nonempty w -> SessionState.spec self <> EmptyString ->
  save isoformat self w = (Return self', w') -> artifacts_nonempty w'.
Proof.
  intros Hw Hs. rewrite save_run. cbv zeta. intros [= <- <-] id s. cbn [sessions].
  destruct (decide (SessionState.session_id self = id)) as [->|Hne].
  - rewrite lookup_insert_eq. now intros [= <-].
  - rewrite lookup_insert_ne by assumption. apply Hw.
Qed.

Lemma resume_or_read_run (args : Args.t) (models : list string) (stdin : string)
    (w w' : World) (res : result (option SessionState.t * string * Args.t * list string)) :
  artifacts_nonempty w ->
  resume_or_read args models stdin w = (res, w') ->
  w' = w /\
  match res with
  | Raise _ => True
  | Return (_, spec, _, _) => spec <> EmptyString
  end.
Proof.
  intros Hw. unfold resume_or_read.
  assert (Hread :
    (let spec := Py.strip stdin in
     if negb (Py.truthy spec) then sys_exit 1 else ret (None, spec, args, models)) w
      = (res, w') ->
    w' = w /\ match res with Raise _ => True | Return (_, spec, _, _) => spec <> EmptyString end).
  { cbv zeta. destruct (Py.truthy (Py.strip stdin)) eqn:E; cbn [negb].
    - intros [= <- <-]. split; [reflexivity|]. now apply truthy_nonempty.
    - intros [= <- <-]. now split. }
  destruct (Args.resume args) as [id|]; [|exact Hread].
  destruct (Py.truthy id); [|exact Hread].
  unfold try_except, bind, load. destruct (sessions w !! id) as [s0|] eqn:E.
  - unfold ret. intros [= <- <-]. split; [reflexivity|]. now apply (Hw id).
  - cbn [is_FileNotFoundError]. intros [= <- <-]. now split.
Qed.

Lemma init_session_run (args : Args.t) (spec : string) (models : list string)
    (session_state : option SessionState.t) (w w' : World)
    (res : result (option SessionState.t)) :
  artifacts_nonempty w -> spec <> EmptyString ->
  init_session isoformat args spec models session_state w = (res, w') ->
  artifacts_nonempty w'.
Proof.
  intros Hw Hs. unfold init_session.
  destruct session_state as [s|]; [now intros [= <- <-]|].
  destruct (Args.session args) as [id|]; [|now intros [= <- <-]].
  destruct (Py.truthy id); [|now intros [= <- <-]].
  unfold bind, datetime_now. rewrite save_run. cbv zeta. unfold ret.
  intros [= <- <-] id' s'. cbn [sessions set_clock].
  destruct (decide (id = id')) as [->|Hne].
  - rewrite lookup_insert_eq. now intros [= <-].
  - rewrite lookup_insert_ne by assumption. apply Hw.
Qed.

Lemma call_models_parallel_sessions (models : list string)
    (completion : nat -> nat -> outcome) (order : list nat) (w w' : World)
    (res : result (list ModelResponse.t)) :
  call_models_parallel models completion order w = (res, w') ->
  sessions w' = sessions w.
Proof.
  destruct (decide (models = [])) as [->|Hne]; [now intros [= <- <-]|].
  destruct (call_models_parallel_run models completion order w Hne) as (w1 & -> & ? & _).
  now intros [= <- <-].
Qed.

Lemma update_session_run (args : Args.t) (spec : string)
    (results : list ModelResponse.t) (session_state : option SessionState.t)
    (w w' : World) (res : result (option SessionState.t)) :
  artifacts_nonempty w -> spec <> EmptyString ->
  update_session isoformat args spec results session_state w = (res, w') ->
  artifacts_nonempty w'.
Proof.
  intros Hw Hs. unfold update_session.
  destruct session_state as [s|]; [|now intros [= <- <-]].
  unfold bind.
  destruct (save _ _ w) as [[s'|e] w1] eqn:E; [|rewrite save_run in E; discriminate E].
  unfold ret. intros [= <- <-].
  eapply save_nonempty; [exact Hw | | exact E].
  cbn. now apply latest_spec_nonempty.
Qed.

Lemma main_artifacts_nonempty (args : Args.t) (stdin : string)
    (completion : nat -> nat -> outcome) (order : list nat) (w w' : World)
    (res : result RoundOutput.t) :
  artifacts_nonempty w ->
  main isoformat args stdin completion order w = (res, w') ->
  artifacts_nonempty w'.
Proof.
  intros Hw. unfold main. case_bool_decide; [now intros [= <- <-]|].
  unfold bind at 1.
  destruct (resume_or_read _ _ _ w) as [[[[[ss spec] args'] models']|e] w1] eqn:E1;
    apply (resume_or_read_run _ _ _ _ _ _ Hw) in E1 as [-> Hspec]; [|now intros [= <- <-]].
  unfold bind at 1.
  destruct (init_session _ _ _ _ _ w) as [[ss'|e] w2] eqn:E2;
    apply (init_session_run _ _ _ _ _ _ _ Hw Hspec) in E2; [|now intros [= <- <-]].
  unfold bind at 1.
  destruct (call_models_parallel _ _ _ w2) as [[results|e] w3] eqn:E3;
    apply call_models_parallel_sessions in E3;
    assert (Hw3 : artifacts_nonempty w3) by (unfold artifacts_nonempty; now rewrite E3);
    [|now intros [= <- <-]].
  unfold bind at 1.
  assert (Hck : exists w4,
    (if Py.truthy_opt match ss' with Some s => Some (SessionState.session_id s)
                      | None => Args.session args' end
        || Py.truthy_opt (Args.session args')
     then save_checkpoint spec (Args.round args')
            match ss' with Some s => Some (SessionState.session_id s)
            | None => Args.session args' end
     else ret ()) w3 = (Return (), w4) /\ sessions w4 = sessions w3).
  { destruct (_ || _); eexists; split; reflexivity. }
  destruct Hck as (w4 & -> & E4).
  assert (Hw4 : artifacts_nonempty w4) by (unfold artifacts_nonempty; now rewrite E4).
  unfold bind at 1.
  destruct (update_session _ _ _ _ _ w4) as [[ss''|e] w5] eqn:E5;
    apply (update_session_run _ _ _ _ _ _ _ Hw4 Hspec) in E5; now intros [= <- <-].
Qed.

End Sessions.

Section RoundTrip.

Variable isoformat : nat -> string.

Lemma init_session_fresh (args : Args.t) (spec : string) (models : list string)
    (w : World) (id : string) :
  Args.session args = Some id -> Py.truthy id = true ->
  init_session isoformat args spec models None w =
    let s :=
      SessionState.mk id spec (Args.round args) models (Args.focus args)
        (Args.persona args) (Args.preserve_intent args)
        (isoformat (clock w)) (isoformat (S (clock w))) [] in
    (Return (Some s),
     mkWorld (cost_tracker w) (trace w) (<[id := s]> (sessions w))
       (checkpoints w) (S (S (clock w)))).
Proof. intros Hs Hid. unfold init_session. rewrite Hs, Hid. reflexivity. Qed.

Lemma update_session_some (args : Args.t) (spec : string)
    (results : list ModelResponse.t) (s : SessionState.t) (w : World) :
  update_session isoformat args spec results (Some s) w =
    let s' :=
      SessionState.mk (SessionState.session_id s) (latest_spec spec results)
        (Args.round args + 1) (SessionState.models s) (SessionState.focus s)
        (SessionState.persona s) (SessionState.preserve_intent s)
        (SessionState.created_at s) (isoformat (clock w))
        (SessionState.history s ++ [round_entry (Args.round args) results]) in
    (Return (Some s'),
     mkWorld (cost_tracker w) (trace w)
       (<[SessionState.session_id s := s']> (sessions w))
       (checkpoints w) (S (clock w))).
Proof. reflexivity. Qed.

Lemma checkpoint_step (cond : bool) (spec : string) (round_num : Z)
    (session_id : option string) (w : World) :
  exists w',
    (if cond then save_checkpoint spec round_num session_id else ret ()) w
      = (Return (), w') /\
    sessions w' = sessions w /\ clock w' = clock w.
Proof. destruct cond; eexists; repeat split. Qed.

Lemma main_fresh_session (args : Args.t) (stdin : string)
    (completion : nat -> nat -> outcome) (order : list nat) (w : World) (id : string) :
  Args.session args = Some id -> Py.truthy id = true ->
  Py.truthy_opt (Args.resume args) = false ->
  parse_models (Args.models args) <> [] ->
  Py.strip stdin <> EmptyString ->
  exists out w' s,
    main isoformat args stdin completion order w = (Return out, w') /\
    load id w' = (Return s, w') /\
    RoundOutput.results out
      = responses_in (parse_models (Args.models args)) completion order /\
    RoundOutput.all_agreed out = all_agreed (RoundOutput.results out) /\
    RoundOutput.round out = Args.round args /\
    SessionState.session_id s = id /\
    SessionState.round s = Args.round args + 1 /\
    SessionState.spec s = latest_spec (Py.strip stdin) (RoundOutput.results out) /\
    SessionState.models s = parse_models (Args.models args) /\
    SessionState.history s = [round_entry (Args.round args) (RoundOutput.results out)].
Proof.
  intros Hsess Hid Hres Hmodels Hspec. apply truthy_nonempty in Hspec.
  unfold main. rewrite bool_decide_eq_false_2 by assumption.
  assert (E1 : resume_or_read args (parse_models (Args.models args)) stdin w
               = (Return (None, Py.strip stdin, args, parse_models (Args.models args)), w)).
  { unfold resume_or_read. destruct (Args.resume args) as [rid|]; cbn in Hres;
      rewrite ?Hres, Hspec; reflexivity. }
  unfold bind. rewrite E1. cbv beta iota zeta.
  rewrite (init_session_fresh _ _ _ _ id Hsess Hid). cbv beta iota zeta.
  match goal with |- context [call_models_parallel ?m ?c ?o ?w1] =>
    destruct (call_models_parallel_run m c o w1 Hmodels) as (w2 & E2 & F1 & F2 & F3) end.
  rewrite E2. cbv beta iota.
  match goal with |- context [(if ?c then save_checkpoint ?a ?b ?d else ret ()) w2] =>
    destruct (checkpoint_step c a b d w2) as (w3 & E3 & G1 & G2) end.
  rewrite E3. cbv beta iota. rewrite update_session_some. cbv beta iota zeta.
  unfold ret. eexists _, _, _. split; [reflexivity|].
  unfold load. cbn [sessions SessionState.session_id].
  rewrite lookup_insert_eq. split; [reflexivity|].
  cbn. repeat split; reflexivity.
Qed.

Lemma main_resumed_session (args : Args.t) (stdin : string)
    (completion : nat -> nat -> outcome) (order : list nat) (w : World)
    (id : string) (s0 : SessionState.t) :
  Args.resume args = Some id -> Py.truthy id = true ->
  parse_models (Args.models args) <> [] ->
  sessions w !! id = Some s0 ->
  SessionState.session_id s0 = id ->
  SessionState.models s0 <> [] ->
  exists out w' s,
    main isoformat args stdin completion order w = (Return out, w') /\
    load id w' = (Return s, w') /\
    RoundOutput.results out = responses_in (SessionState.models s0) completion order /\
    RoundOutput.round out = SessionState.round s0 /\
    SessionState.round s = SessionState.round s0 + 1 /\
    SessionState.spec s = latest_spec (SessionState.spec s0) (RoundOutput.results out) /\
    SessionState.history s =
      SessionState.history s0 ++
      [round_entry (SessionState.round s0) (RoundOutput.results out)].
Proof.
  intros Hres Hid Hmodels Hs0 Hsid Hm0.
  unfold main. rewrite bool_decide_eq_false_2 by assumption.
  assert (E1 : exists args',
    resume_or_read args (parse_models (Args.models args)) stdin w
      = (Return (Some s0, SessionState.spec s0, args', SessionState.models s0), w) /\
    Args.round args' = SessionState.round s0).
  { unfold resume_or_read. rewrite Hres, Hid. unfold try_except, bind, load.
    rewrite Hs0. unfold ret. eexists. split; reflexivity. }
  destruct E1 as (args' & E1 & Hround).
  unfold bind. rewrite E1. cbv beta iota zeta.
  unfold init_session, ret at 1. cbv beta iota.
  destruct (call_models_parallel_run (SessionState.models s0) completion order w Hm0)
    as (w2 & E2 & F1 & F2 & F3).
  rewrite E2. cbv beta iota.
  match goal with |- context [(if ?c then save_checkpoint ?a ?b ?d else ret ()) w2] =>
    destruct (checkpoint_step c a b d w2) as (w3 & E3 & G1 & G2) end.
  rewrite E3. cbv beta iota. rewrite update_session_some. cbv beta iota zeta.
  unfold ret. eexists _, _, _. split; [reflexivity|].
  unfold load. cbn [sessions SessionState.session_id]. rewrite Hsid.
  rewrite lookup_insert_eq. split; [reflexivity|].
  cbn. rewrite Hround. repeat split; reflexivity.
Qed.

End RoundTrip.

(** ** Blank extractions *)

Lemma append_inj_length (p1 r1 p2 r2 : string) :
  p1 +:+ r1 = p2 +:+ r2 -> String.length p1 = String.length p2 ->
  p1 = p2 /\ r1 = r2.
Proof.
  revert p2. induction p1 as [|c p1 IH]; intros [|d p2] H Hlen;
    try discriminate Hlen.
  - now split.
  - rewrite !append_cons in H. injection H as -> H.
    destruct (IH p2 H) as [-> ->]; [simpl in Hlen; lia | now split].
Qed.

Lemma lstrip_all_space (s : string) : all_space s = true -> Py.lstrip s = EmptyString.
Proof.
  induction s as [|c s IH]; [reflexivity|]. cbn.
  intros [-> Hs]%andb_true_iff. now apply IH.
Qed.

Lemma strip_all_space (s : string) : all_space s = true -> Py.strip s = EmptyString.
Proof. intros H. unfold Py.strip. now rewrite lstrip_all_space. Qed.

Lemma extract_spec_blank (pre mid post : string) :
  let text := pre +:+ SPEC_OPEN +:+ mid +:+ SPEC_CLOSE +:+ post in
  first_at SPEC_OPEN text (String.length pre) ->
  first_at SPEC_CLOSE text (String.length (pre +:+ SPEC_OPEN +:+ mid)) ->
  all_space mid = true ->
  extract_spec text = Some EmptyString.
Proof.
  intros text Hb He Hsp.
  destruct (extract_spec_ordered text _ _ Hb He) as (pre' & mid' & post' & Ht & Hp & Hm & ->).
  { rewrite length_append. simpl. lia. }
  unfold text in Ht. apply append_inj_length in Ht as [<- Ht]; [|congruence].
  apply (append_inj_length SPEC_OPEN _ SPEC_OPEN) in Ht as [_ Ht]; [|reflexivity].
  apply append_inj_length in Ht as [<- _].
  - now rewrite strip_all_space.
  - rewrite !length_append in Hm. lia.
Qed.

(** * The claims *)

(** Evaluates a closed run and offers its result and final world as the
    witnesses of the two leading existentials. *)
Ltac exists_run :=
  match goal with
  | |- exists r w', ?run = (Return r, w') /\ _ =>
      let v := eval vm_compute in run in
      match v with
      | (Return ?r0, ?w0) => exists r0, w0; split; [vm_compute; reflexivity|]
      end
  end.

(** ** Aggregation *)

(** What [all_agreed] computes, in terms of the script's own test
    [not r.error], which takes an error whose text is empty for no error. *)
Lemma round_converges_iff (results : list ModelResponse.t) :
  (all_agreed results = true <->
   (exists r, r ∈ results /\ error_free r) /\
   (forall r, r ∈ results -> error_free r -> ModelResponse.agreed r = true)) /\
  (results = [] -> all_agreed results = false) /\
  ((forall r, r ∈ results -> ~ error_free r) -> all_agreed results = false).
Proof.
  split; [apply all_agreed_iff|]. split.
  - intros ->. apply all_agreed_nil.
  - apply all_agreed_all_errored.
Qed.

(** As long as no response carries an error whose text is empty, the
    script's flag is the convergence of the specification. *)
Lemma all_agreed_spec_converged (results : list ModelResponse.t) :
  (forall r, r ∈ results -> ModelResponse.error r <> Some EmptyString) ->
  all_agreed results = spec_converged results.
Proof.
  intros Hne. unfold all_agreed, spec_converged, successful.
  assert (List.filter (fun r => negb (Py.truthy_opt (ModelResponse.error r))) results
          = List.filter (fun r => negb (errored r)) results) as ->; [|reflexivity].
  induction results as [|r rest IH]; [reflexivity|].
  cbn [List.filter]. rewrite IH by (intros r' Hr'; apply Hne; now right).
  assert (Py.truthy_opt (ModelResponse.error r) = errored r) as ->; [|reflexivity].
  specialize (Hne r (list_elem_of_here _ _)). unfold errored.
  destruct (ModelResponse.error r) as [[|c s]|]; [congruence | reflexivity | reflexivity].
Qed.

(** C1 fails on the script at this round: critic A agrees, and the three
    requests for critic B fail with an exception without text.  B's
    response carries the error (the empty text), so the round converges
    in the words of the specification; the script's test [not r.error]
    takes B's response for a success that did not agree, and the round
    does not converge. *)
Theorem round_blocked_by_silent_failure :
  exists results w',
    call_models_parallel ["A"; "B"] ex_agree_silent [0; 1]%nat world0
      = (Return results, w') /\
    ModelResponse.error <$> results = [None; Some EmptyString] /\
    ModelResponse.agreed <$> results = [true; false] /\
    spec_converged results = true /\
    all_agreed results = false.
Proof. exists_run. repeat split. Qed.

(** ** Extraction *)

(** C7: when both markers occur and the first opening marker comes before
    the first closing marker, [extract_spec] returns the text strictly
    between those two occurrences, trimmed; when either marker is missing
    it returns [None]. *)
Theorem extract_spec_between (text : string) :
  (absent SPEC_OPEN text \/ absent SPEC_CLOSE text -> extract_spec text = None) /\
  (forall b e,
     first_at SPEC_OPEN text b -> first_at SPEC_CLOSE text e -> (b < e)%nat ->
     exists pre mid post t,
       text = pre +:+ SPEC_OPEN +:+ mid +:+ SPEC_CLOSE +:+ post /\
       String.length pre = b /\
       String.length (pre +:+ SPEC_OPEN +:+ mid) = e /\
       trimmed mid t /\
       extract_spec text = Some t).
Proof.
  split; [apply extract_spec_absent|].
  intros b e Hb He Hlt.
  destruct (extract_spec_ordered text b e Hb He Hlt) as (pre & mid & post & ? & ? & ? & ?).
  exists pre, mid, post, (Py.strip mid). repeat (split; [assumption|]).
  split; [apply strip_trimmed | assumption].
Qed.

(** The examples of C7: a revision between the markers; no marker; an
    opening marker only. *)
Lemma extract_spec_between_witness :
  extract_spec "no markers" = None /\
  extract_spec "only [SPEC] opens" = None /\
  exists pre mid post t,
    "prefix [SPEC]Revised X[/SPEC] suffix"
      = pre +:+ SPEC_OPEN +:+ mid +:+ SPEC_CLOSE +:+ post /\
    String.length pre = 7%nat /\
    String.length (pre +:+ SPEC_OPEN +:+ mid) = 22%nat /\
    trimmed mid t /\
    extract_spec "prefix [SPEC]Revised X[/SPEC] suffix" = Some t.
Proof.
  split; [|split].
  - apply (proj1 (extract_spec_between _)). left. now apply contains_false_absent.
  - apply (proj1 (extract_spec_between _)). right. now apply contains_false_absent.
  - apply (proj2 (extract_spec_between _)).
    + now apply find_first_at_inv.
    + now apply find_first_at_inv.
    + lia.
Defined.

(** C8, as the script has it: when the first closing marker comes before
    the first opening marker, [extract_spec] returns the empty text, not
    [None]. *)
Theorem extract_spec_reversed_markers (text : string) (b e : nat) :
  first_at SPEC_OPEN text b -> first_at SPEC_CLOSE text e -> (e < b)%nat ->
  extract_spec text = Some EmptyString.
Proof.
  intros Hb He Hlt.
  destruct (find_first_at _ _ _ Hb) as [Hfb Hcb].
  destruct (find_first_at _ _ _ He) as [Hfe Hce].
  unfold extract_spec. rewrite Hcb, Hce, Hfb, Hfe. cbn [negb orb].
  (* the slice starts after the opening marker, beyond where it stops *)
  rewrite slice_crossed; [reflexivity|]. unfold Py.len. simpl. lia.
Qed.

(** The example of C8: a closing marker, then an opening one. *)
Lemma extract_spec_reversed_markers_witness :
  first_at SPEC_OPEN "[/SPEC] then [SPEC]" 13 /\
  first_at SPEC_CLOSE "[/SPEC] then [SPEC]" 0 /\
  extract_spec "[/SPEC] then [SPEC]" = Some EmptyString.
Proof.
  assert (Hb : first_at SPEC_OPEN "[/SPEC] then [SPEC]" 13) by now apply find_first_at_inv.
  assert (He : first_at SPEC_CLOSE "[/SPEC] then [SPEC]" 0) by now apply find_first_at_inv.
  split; [exact Hb|]. split; [exact He|].
  apply (extract_spec_reversed_markers _ 13 0 Hb He). lia.
Defined.

(** C8 as stated fails: here the closing marker comes first, and the
    result is not [None]. *)
Lemma extract_spec_reversed_not_absent :
  first_at SPEC_CLOSE "[/SPEC] then [SPEC]" 0 /\
  first_at SPEC_OPEN "[/SPEC] then [SPEC]" 13 /\
  extract_spec "[/SPEC] then [SPEC]" <> None.
Proof.
  split; [now apply find_first_at_inv|]. split; [now apply find_first_at_inv|].
  discriminate.
Qed.

(** ** The ledger *)

(** C6: [add] prices the call with the tuple of the critic (the default
    tuple for an unknown one), returns
    [input/1e6 * input price + output/1e6 * output price], and raises the
    totals and the critic's subtotal by exactly the call's tokens and
    cost, leaving the other subtotals alone; two calls in a row for one
    critic add up in its subtotal.  The two quotients are required to fit
    a float. *)
Theorem cost_ledger_add (self : CostTracker.t) (model : string)
    (input_tokens output_tokens : Z) (qi qo : float) :
  truediv input_tokens 1000000 = Return qi ->
  truediv output_tokens 1000000 = Return qo ->
  let price := default DEFAULT_COST (MODEL_COSTS !! model) in
  let cost := (qi * input price + qo * output price)%float in
  let before := default ModelTotals.zero (CostTracker.by_model self !! model) in
  exists self',
    CostTracker.add self model input_tokens output_tokens = Return (cost, self') /\
    CostTracker.total_input_tokens self'
      = CostTracker.total_input_tokens self + input_tokens /\
    CostTracker.total_output_tokens self'
      = CostTracker.total_output_tokens self + output_tokens /\
    CostTracker.total_cost self' = (CostTracker.total_cost self + cost)%float /\
    CostTracker.by_model self' !! model =
      Some (ModelTotals.mk
              (ModelTotals.input_tokens before + input_tokens)
              (ModelTotals.output_tokens before + output_tokens)
              (ModelTotals.cost before + cost)%float) /\
    (forall other, other <> model ->
       CostTracker.by_model self' !! other = CostTracker.by_model self !! other) /\
    (forall i2 o2 c2 self'',
       CostTracker.add self' model i2 o2 = Return (c2, self'') ->
       CostTracker.by_model self'' !! model =
         Some (ModelTotals.mk
                 (ModelTotals.input_tokens before + input_tokens + i2)
                 (ModelTotals.output_tokens before + output_tokens + o2)
                 (ModelTotals.cost before + cost + c2)%float)).
Proof.
  intros Hi Ho price cost before.
  destruct (add_returns self model input_tokens output_tokens qi qo Hi Ho)
    as (self' & Hadd & ? & ? & ? & ? & ?).
  exists self'. repeat (split; [assumption|]).
  intros i2 o2 c2 self'' Hadd2.
  apply (add_twice _ _ _ _ _ _ _ _ _ _ Hadd Hadd2).
Qed.

(** The example of C6: a million input tokens of gpt-5.2 cost 1.75, a
    second call adds to the same subtotal, and an unknown critic is priced
    at 5.00 and 15.00. *)
Lemma cost_ledger_add_witness :
  (exists self',
     CostTracker.add CostTracker.new "gpt-5.2" 1000000 0 = Return (1.75%float, self') /\
     CostTracker.total_input_tokens self' = 1000000 /\
     CostTracker.total_cost self' = 1.75%float /\
     CostTracker.by_model self' !! "gpt-5.2"
       = Some (ModelTotals.mk 1000000 0 1.75%float) /\
     exists self'',
       CostTracker.add self' "gpt-5.2" 2000000 1000000 = Return (17.5%float, self'') /\
       CostTracker.by_model self'' !! "gpt-5.2"
         = Some (ModelTotals.mk 3000000 1000000 19.25%float)) /\
  (exists self',
     CostTracker.add CostTracker.new "criticA" 1000000 1000000
       = Return (20%float, self')).
Proof.
  split.
  - destruct (cost_ledger_add CostTracker.new "gpt-5.2" 1000000 0 1%float 0%float
                eq_refl eq_refl) as (self' & Hadd & Hin & _ & Hcost & Hsub & _ & Htwice).
    exists self'. split; [exact Hadd|]. split; [exact Hin|].
    split; [exact Hcost|]. split; [exact Hsub|].
    destruct (CostTracker.add self' "gpt-5.2" 2000000 1000000) as [[c2 self'']|e] eqn:E2.
    + assert (c2 = 17.5%float) as ->.
      { pose proof (add_indep self' CostTracker.new "gpt-5.2" 2000000 1000000) as Hi.
        rewrite E2 in Hi. vm_compute in Hi. exact Hi. }
      exists self''. split; [reflexivity|]. exact (Htwice _ _ _ _ E2).
    + pose proof (add_indep self' CostTracker.new "gpt-5.2" 2000000 1000000) as Hi.
      rewrite E2 in Hi. vm_compute in Hi. contradiction.
  - destruct (cost_ledger_add CostTracker.new "criticA" 1000000 1000000 1%float 1%float
                eq_refl eq_refl) as (self' & Hadd & _).
    exists self'. exact Hadd.
Defined.

(** ** One critic invocation *)

(** C4: an invocation always returns a response, after at most
    [MAX_RETRIES] = 3 requests; when the first [k] < 3 requests fail and
    the next one is answered, the response is the success response of that
    answer, without error, and the sleeps between the requests are
    [backoff 0], ..., [backoff (k-1)]; when all three requests fail, the
    response carries the error of the third, after sleeps of [backoff 0]
    and [backoff 1] and none after the last request; [backoff 0] is
    [RETRY_BASE_DELAY] and [backoff 1] is twice that.  (An answer counts
    as a success when the ledger accepts its token counts.) *)
Theorem call_single_model_retries (model : string) (replies : nat -> outcome) (w : World) :
  (exists r w' t,
     call_single_model model replies w = (Return r, w') /\
     trace w' = trace w ++ t /\ (requests t <= Z.to_nat MAX_RETRIES)%nat) /\
  (forall k content usage cost c',
     (k < 3)%nat ->
     (forall j, (j < k)%nat -> exists msg, replies j = Failed msg) ->
     replies k = Responded content usage ->
     CostTracker.add (cost_tracker w) model (tokens_in usage) (tokens_out usage)
       = Return (cost, c') ->
     call_single_model model replies w =
       (Return (ModelResponse.mk model content (Py.contains AGREE content)
                  (extract_spec content) None (tokens_in usage) (tokens_out usage) cost),
        mkWorld c'
          (trace w ++
           flat_map (fun j => [Completion model; Sleep (backoff (Z.of_nat j))]) (seq 0 k) ++
           [Completion model])
          (sessions w) (checkpoints w) (clock w))) /\
  (forall msg0 msg1 msg2,
     replies 0%nat = Failed msg0 -> replies 1%nat = Failed msg1 ->
     replies 2%nat = Failed msg2 ->
     call_single_model model replies w =
       (Return (ModelResponse.mk model EmptyString false None (Some msg2) 0 0 0%float),
        set_trace
          (trace w ++ [Completion model; Sleep (backoff 0); Completion model;
                       Sleep (backoff 1); Completion model])
          w)) /\
  backoff 0 = RETRY_BASE_DELAY /\
  backoff 1 = (2 * RETRY_BASE_DELAY)%float.
Proof.
  split; [apply call_single_model_returns|].
  split; [intros; now apply call_single_model_success|].
  split; [intros; eapply call_single_model_exhausted; eassumption|].
  split; reflexivity.
Qed.

(** The example of C4: two timeouts, then an answer; and a provider that
    stays down. *)
Lemma call_single_model_retries_witness :
  (exists r w',
     call_single_model "gpt-5.2" ex_flaky world0 = (Return r, w') /\
     ModelResponse.error r = None /\
     ModelResponse.agreed r = true /\
     trace w' = [Completion "gpt-5.2"; Sleep 1%float; Completion "gpt-5.2";
                 Sleep 2%float; Completion "gpt-5.2"]) /\
  (exists r w',
     call_single_model "gpt-5.2" ex_down world0 = (Return r, w') /\
     ModelResponse.error r = Some "connection refused" /\
     trace w' = [Completion "gpt-5.2"; Sleep 1%float; Completion "gpt-5.2";
                 Sleep 2%float; Completion "gpt-5.2"]).
Proof.
  split.
  - destruct (CostTracker.add (cost_tracker world0) "gpt-5.2"
                (tokens_in (Some (mkUsage 1000000 0))) (tokens_out (Some (mkUsage 1000000 0))))
      as [[cost c']|e] eqn:Hadd; [|vm_compute in Hadd; discriminate Hadd].
    eexists _, _. split.
    + apply (proj1 (proj2 (call_single_model_retries "gpt-5.2" ex_flaky world0))
               2%nat "[AGREE]" (Some (mkUsage 1000000 0)) cost c').
      * lia.
      * intros [|[|j]] Hj; [now exists "timeout" | now exists "timeout" | lia].
      * reflexivity.
      * exact Hadd.
    + repeat split.
  - eexists _, _. split.
    + now apply (proj1 (proj2 (proj2 (call_single_model_retries "gpt-5.2" ex_down world0)))
                   "connection refused" "connection refused" "connection refused").
    + repeat split.
Defined.

(** C5: a response whose error is set has [agreed] false, no extracted
    artifact, no tokens and cost 0, and the invocation that returned it
    left the ledger as it found it; an invocation whose three requests
    fail returns such a response. *)
Theorem error_response_costs_nothing (model : string) (replies : nat -> outcome)
    (w : World) :
  exists r w',
    call_single_model model replies w = (Return r, w') /\
    (ModelResponse.error r <> None ->
     ModelResponse.agreed r = false /\
     ModelResponse.spec r = None /\
     ModelResponse.cost r = 0%float /\
     ModelResponse.input_tokens r = 0 /\
     ModelResponse.output_tokens r = 0 /\
     cost_tracker w' = cost_tracker w) /\
    ((forall k, (k < 3)%nat -> exists msg, replies k = Failed msg) ->
     ModelResponse.error r <> None).
Proof.
  destruct (call_single_model_returns model replies w) as (r & w' & _ & Hrun & _).
  exists r, w'. split; [exact Hrun|]. split.
  - intros Herr.
    destruct (call_single_model_error _ _ _ _ _ Hrun Herr) as [(_ & ? & ? & ? & ? & ?) ?].
    auto 10.
  - intros Hfail.
    destruct (Hfail 0%nat) as [m0 H0]; [lia|]. destruct (Hfail 1%nat) as [m1 H1]; [lia|].
    destruct (Hfail 2%nat) as [m2 H2]; [lia|].
    rewrite (call_single_model_exhausted _ _ w _ _ _ H0 H1 H2) in Hrun.
    injection Hrun as <- _. discriminate.
Qed.

(** The example of C5: the provider is down for all three requests, and
    the ledger, which already holds an earlier call, is not touched. *)
Lemma error_response_costs_nothing_witness :
  exists r w',
    call_single_model "gpt-5.2" ex_down ex_world = (Return r, w') /\
    ModelResponse.error r <> None /\
    ModelResponse.agreed r = false /\
    ModelResponse.spec r = None /\
    ModelResponse.cost r = 0%float /\
    cost_tracker w' = cost_tracker ex_world.
Proof.
  destruct (error_response_costs_nothing "gpt-5.2" ex_down ex_world)
    as (r & w' & Hrun & Hblank & Herr).
  assert (He : ModelResponse.error r <> None).
  { apply Herr. intros k _. now exists "connection refused". }
  destruct (Hblank He) as (? & ? & ? & _ & _ & ?).
  exists r, w'. auto 10.
Defined.

(** ** One round *)

(** C3, as the script has it: for a non-empty roster of N critics the
    round returns exactly N responses, one per roster position, listed
    in the order [order] in which [as_completed] yields the invocations:
    the k-th response is that of the position yielded k-th, and the list
    is a rearrangement of the responses in roster order.  For an empty
    roster the round raises [ValueError] and returns no list. *)
Theorem call_models_parallel_returned_list (models : list string)
    (completion : nat -> nat -> outcome) (order : list nat) (w : World) :
  (models <> [] -> order ≡ₚ seq 0 (length models) ->
   exists results w',
     call_models_parallel models completion order w = (Return results, w') /\
     length results = length models /\
     Forall2 (fun i r => response_at models completion i = Some r) order results /\
     results ≡ₚ responses_in models completion (seq 0 (length models))) /\
  (models = [] ->
   call_models_parallel models completion order w
     = (Raise (ValueError "max_workers must be greater than 0"), w)).
Proof.
  split; [|intros ->; reflexivity].
  intros Hne Hperm.
  destruct (call_models_parallel_run models completion order w Hne) as (w' & Hrun & _).
  exists (responses_in models completion order), w'. split; [assumption|].
  pose proof (responses_in_valid models completion order (order_valid _ _ Hperm)) as HF.
  split; [|split; [assumption|]].
  - rewrite <- (Forall2_length _ _ _ HF), Hperm. apply length_seq.
  - unfold responses_in. now rewrite Hperm.
Qed.

(** The example of C3: the invocation for critic2 is yielded before the
    one for critic1; and a round without critics. *)
Lemma call_models_parallel_returned_list_witness :
  (exists results w',
     call_models_parallel ex_roster ex_completion [1; 0]%nat world0 = (Return results, w') /\
     length results = 2%nat /\
     ModelResponse.model <$> results = ["critic2"; "critic1"] /\
     results ≡ₚ responses_in ex_roster ex_completion [0; 1]%nat) /\
  call_models_parallel [] ex_completion [] ex_world
    = (Raise (ValueError "max_workers must be greater than 0"), ex_world).
Proof.
  destruct (call_models_parallel_returned_list ex_roster ex_completion [1; 0]%nat world0)
    as [Hround _].
  destruct (call_models_parallel_returned_list [] ex_completion [] ex_world)
    as [_ Hempty].
  split; [|exact (Hempty eq_refl)].
  destruct Hround as (results & w' & Hrun & Hlen & Hk & Hperm).
  - discriminate.
  - apply Permutation_swap.
  - exists results, w'. split; [exact Hrun|]. split; [exact Hlen|]. split; [|exact Hperm].
    inversion Hk as [|i1 r1 o1 rs1 H1 Hk1]; subst.
    inversion Hk1 as [|i0 r0 o0 rs0 H0 Hk0]; subst.
    inversion Hk0; subst. vm_compute in H1, H0.
    injection H1 as <-. injection H0 as <-. reflexivity.
Defined.

(** C3 as stated fails: the invocation for critic2 is yielded first and
    its response comes first in the returned list; and an empty roster
    yields no list at all, the pool of workers refusing zero workers. *)
Lemma call_models_parallel_not_roster_order :
  (exists results w',
     call_models_parallel ex_roster ex_completion [1; 0]%nat world0 = (Return results, w') /\
     ModelResponse.model <$> results = ["critic2"; "critic1"] /\
     ModelResponse.model <$> results <> ex_roster) /\
  call_models_parallel [] ex_completion [] world0
    = (Raise (ValueError "max_workers must be greater than 0"), world0).
Proof.
  split; [|reflexivity].
  exists_run. split; [reflexivity | discriminate].
Qed.

(** An errored response of an invocation extracted nothing, so what it
    offers is what it extracted. *)
Lemma critic_response_offered (model : string) (replies : nat -> outcome) :
  offered (critic_response model replies) = extracted (critic_response model replies).
Proof.
  destruct (call_single_model_response model replies world0) as (w' & Hrun & _).
  unfold offered, extracted.
  destruct (Py.truthy_opt (ModelResponse.error (critic_response model replies))) eqn:He;
    [|reflexivity].
  destruct (call_single_model_error model replies world0 w' _ Hrun)
    as [(_ & _ & -> & _) _]; [|reflexivity].
  intros Hnone. rewrite Hnone in He. discriminate He.
Qed.

Lemma responses_in_offered (models : list string) (completion : nat -> nat -> outcome)
    (order : list nat) :
  omap offered (responses_in models completion order)
    = omap extracted (responses_in models completion order).
Proof.
  unfold responses_in. induction order as [|i rest IH]; [reflexivity|].
  cbn [omap list_omap]. destruct (response_at models completion i) as [r|] eqn:Hr;
    [|exact IH].
  unfold response_at in Hr. destruct (models !! i) as [model|]; [|discriminate Hr].
  injection Hr as <-. cbn [omap list_omap]. rewrite critic_response_offered.
  destruct (extracted _); [f_equal|]; exact IH.
Qed.

(** C2, as the script has it: the next artifact is the non-empty
    extraction of the first response that has one, the responses taken in
    the order of the list the round returns; when no response has one,
    the artifact is unchanged. *)
Theorem next_artifact_returned_order (models : list string)
    (completion : nat -> nat -> outcome) (order : list nat) (w w' : World)
    (results : list ModelResponse.t) (spec : string) :
  call_models_parallel models completion order w = (Return results, w') ->
  latest_spec spec results = default spec (head (omap extracted results)).
Proof.
  intros Hrun. destruct (decide (models = [])) as [->|Hne]; [discriminate|].
  destruct (call_models_parallel_run models completion order w Hne) as (w1 & Hrun1 & _).
  rewrite Hrun1 in Hrun. injection Hrun as <- <-.
  now rewrite first_spec_offered, responses_in_offered.
Qed.

(** The example of C2: critic1 agrees and extracts nothing, critic2
    extracts a revision; in whichever order the list comes, the revision
    is next. *)
Lemma next_artifact_returned_order_witness :
  (exists results w',
     call_models_parallel ex_roster ex_completion [1; 0]%nat world0 = (Return results, w') /\
     all_agreed results = false /\
     latest_spec "Draft" results = "Revised V2") /\
  (exists results w',
     call_models_parallel ex_roster ex_completion [0; 1]%nat world0 = (Return results, w') /\
     all_agreed results = false /\
     latest_spec "Draft" results = "Revised V2").
Proof.
  split.
  - destruct (call_models_parallel ex_roster ex_completion [1; 0]%nat world0)
      as [[results|e] w'] eqn:E; [|vm_compute in E; discriminate E].
    exists results, w'. split; [reflexivity|].
    rewrite (next_artifact_returned_order _ _ _ _ _ _ "Draft" E).
    vm_compute in E. injection E as <- _. split; reflexivity.
  - destruct (call_models_parallel ex_roster ex_completion [0; 1]%nat world0)
      as [[results|e] w'] eqn:E; [|vm_compute in E; discriminate E].
    exists results, w'. split; [reflexivity|].
    rewrite (next_artifact_returned_order _ _ _ _ _ _ "Draft" E).
    vm_compute in E. injection E as <- _. split; reflexivity.
Defined.

(** C2 as stated fails: both critics revise and the response of critic2
    comes first in the returned list; the script takes critic2's
    revision, a scan in roster order takes critic1's. *)
Lemma next_artifact_not_roster_order :
  exists results w',
    call_models_parallel ex_roster both_revise [1; 0]%nat world0 = (Return results, w') /\
    latest_spec "Draft" results = "V2" /\
    roster_order_artifact "Draft" ex_roster both_revise = "V1".
Proof. exists_run. split; reflexivity. Qed.

(** ** Sessions *)

(** C9: a run of [main] that creates session [id] and executes one round
    leaves a record that loads with the next round number (round 2 after
    round 1), the artifact selected by that round, and a history of
    exactly one entry holding the round number, the convergence flag and
    one (model, agreed, error) triple per response; a run that resumes
    session [id] raises its round number by one and appends one such
    entry to its history, the earlier entries kept. *)
Theorem session_round_trip (isoformat : nat -> string) (args : Args.t) (stdin : string)
    (completion : nat -> nat -> outcome) (order : list nat) (w : World) (id : string) :
  (Args.session args = Some id -> Py.truthy id = true ->
   Py.truthy_opt (Args.resume args) = false ->
   parse_models (Args.models args) <> [] ->
   Py.strip stdin <> EmptyString ->
   exists out w' s,
     main isoformat args stdin completion order w = (Return out, w') /\
     load id w' = (Return s, w') /\
     RoundOutput.round out = Args.round args /\
     SessionState.session_id s = id /\
     SessionState.round s = Args.round args + 1 /\
     SessionState.spec s = latest_spec (Py.strip stdin) (RoundOutput.results out) /\
     SessionState.history s =
       [HistoryEntry.mk (Args.round args) (RoundOutput.all_agreed out)
          (Verdict.of_response <$> RoundOutput.results out)]) /\
  (forall s0,
   Args.resume args = Some id -> Py.truthy id = true ->
   parse_models (Args.models args) <> [] ->
   sessions w !! id = Some s0 ->
   SessionState.session_id s0 = id ->
   SessionState.models s0 <> [] ->
   exists out w' s,
     main isoformat args stdin completion order w = (Return out, w') /\
     load id w' = (Return s, w') /\
     RoundOutput.round out = SessionState.round s0 /\
     SessionState.round s = SessionState.round s0 + 1 /\
     SessionState.spec s = latest_spec (SessionState.spec s0) (RoundOutput.results out) /\
     SessionState.history s =
       SessionState.history s0 ++
       [HistoryEntry.mk (SessionState.round s0) (all_agreed (RoundOutput.results out))
          (Verdict.of_response <$> RoundOutput.results out)]).
Proof.
  split.
  - intros Hsess Hid Hres Hmodels Hspec.
    destruct (main_fresh_session isoformat args stdin completion order w id
                Hsess Hid Hres Hmodels Hspec)
      as (out & w' & s & Hrun & Hload & _ & Hagreed & ? & ? & ? & ? & _ & Hhist).
    exists out, w', s. repeat (split; [assumption|]).
    rewrite Hhist, Hagreed. reflexivity.
  - intros s0 Hres Hid Hmodels Hs0 Hsid Hm0.
    destruct (main_resumed_session isoformat args stdin completion order w id s0
                Hres Hid Hmodels Hs0 Hsid Hm0)
      as (out & w' & s & Hrun & Hload & _ & ? & ? & ? & Hhist).
    exists out, w', s. repeat (split; [assumption|]). exact Hhist.
Qed.

(** The example of C9: session s1 is created on artifact X with roster
    critic1, critic2 and round 1 is run; then a stored session at round 4
    is resumed. *)
Lemma session_round_trip_witness :
  (exists out w' s,
     main ex_clock ex_args "X" ex_completion [0; 1]%nat world0 = (Return out, w') /\
     load "s1" w' = (Return s, w') /\
     SessionState.round s = 2 /\
     SessionState.spec s = "Revised V2" /\
     length (SessionState.history s) = 1%nat) /\
  (exists out w' s,
     main ex_clock ex_resume_args "" ex_completion [1; 0]%nat ex_world = (Return out, w') /\
     load "s1" w' = (Return s, w') /\
     SessionState.round s = 5 /\
     SessionState.history s =
       SessionState.history ex_session ++
       [HistoryEntry.mk 4 false
          [Verdict.mk "critic2" false None; Verdict.mk "critic1" true None]]).
Proof.
  split.
  - destruct (proj1 (session_round_trip ex_clock ex_args "X" ex_completion
                       [0; 1]%nat world0 "s1"))
      as (out & w' & s & Hrun & Hload & _ & _ & Hround & Hspec & Hhist);
      [reflexivity | reflexivity | reflexivity | discriminate | discriminate |].
    exists out, w', s. split; [exact Hrun|]. split; [exact Hload|].
    split; [exact Hround|]. split.
    + rewrite Hspec. vm_compute in Hrun. injection Hrun as <- _. reflexivity.
    + now rewrite Hhist.
  - destruct (proj2 (session_round_trip ex_clock ex_resume_args "" ex_completion
                       [1; 0]%nat ex_world "s1") ex_session)
      as (out & w' & s & Hrun & Hload & _ & Hround & _ & Hhist);
      [reflexivity | reflexivity | discriminate | reflexivity | reflexivity | discriminate |].
    exists out, w', s. split; [exact Hrun|]. split; [exact Hload|].
    split; [exact Hround|].
    rewrite Hhist. vm_compute in Hrun. injection Hrun as <- _. reflexivity.
Defined.

(** ** Selection *)

(** C10: the next artifact is either the current artifact, no response
    offering one, or the non-empty extraction of an error-free response;
    so a non-empty artifact never becomes empty, and every session [main]
    persists keeps a non-empty artifact; a response whose extraction is
    empty is passed over exactly as if it had extracted nothing; and
    extraction does yield the empty text when only whitespace stands
    between the markers or when the closing marker comes first. *)
Theorem next_artifact_never_empty :
  (forall spec results,
     (latest_spec spec results = spec /\ forall r, r ∈ results -> offered r = None) \/
     (exists r, r ∈ results /\ error_free r /\
        ModelResponse.spec r = Some (latest_spec spec results) /\
        latest_spec spec results <> EmptyString)) /\
  (forall spec results, spec <> EmptyString -> latest_spec spec results <> EmptyString) /\
  (forall spec l1 r l2,
     ModelResponse.spec r = Some EmptyString ->
     latest_spec spec (l1 ++ r :: l2) = latest_spec spec (l1 ++ without_spec r :: l2)) /\
  (forall pre mid post,
     let text := pre +:+ SPEC_OPEN +:+ mid +:+ SPEC_CLOSE +:+ post in
     first_at SPEC_OPEN text (String.length pre) ->
     first_at SPEC_CLOSE text (String.length (pre +:+ SPEC_OPEN +:+ mid)) ->
     all_space mid = true ->
     extract_spec text = Some EmptyString) /\
  (forall text b e,
     first_at SPEC_OPEN text b -> first_at SPEC_CLOSE text e -> (e < b)%nat ->
     extract_spec text = Some EmptyString) /\
  (forall isoformat args stdin completion order w res w',
     artifacts_nonempty w ->
     main isoformat args stdin completion order w = (res, w') ->
     artifacts_nonempty w').
Proof.
  split; [|split; [|split; [|split; [|split]]]].
  - intros spec results.
    destruct (latest_spec_cases spec results) as [H | (r & Hr & Ho)]; [now left | right].
    apply offered_nonempty in Ho as (? & ? & ?). exists r. auto.
  - apply latest_spec_nonempty.
  - intros spec l1 r l2. apply latest_spec_skips_empty.
  - apply extract_spec_blank.
  - apply extract_spec_reversed.
  - intros isoformat args stdin completion order w res w'. apply main_artifacts_nonempty.
Qed.

(** The examples of C10: adjacent markers, markers around blanks and
    reversed markers all extract the empty text; a round in which the only
    critic answers with adjacent markers keeps the artifact, and the
    session it persists holds that artifact. *)
Lemma next_artifact_never_empty_witness :
  extract_spec "[SPEC][/SPEC]" = Some EmptyString /\
  extract_spec "[SPEC]  [/SPEC]" = Some EmptyString /\
  extract_spec "[/SPEC][SPEC]" = Some EmptyString /\
  latest_spec "Draft" [critic_response "A" (fun _ => Responded "[SPEC][/SPEC]" None)]
    = "Draft" /\
  latest_spec "Draft" [critic_response "A" (fun _ => Responded "[SPEC][/SPEC]" None)]
    <> EmptyString /\
  artifacts_nonempty
    (main ex_clock ex_args "X" (fun _ _ => Responded "[SPEC][/SPEC]" None)
       [0; 1]%nat world0).2.
Proof.
  destruct next_artifact_never_empty as (Hcases & Hne & Hskip & Hblank & Hrev & Hinv).
  split; [|split; [|split; [|split; [|split]]]].
  - apply (Hblank "" "" ""); [now apply find_first_at_inv | now apply find_first_at_inv |].
    reflexivity.
  - apply (Hblank "" "  " ""); [now apply find_first_at_inv | now apply find_first_at_inv |].
    reflexivity.
  - apply (Hrev "[/SPEC][SPEC]" 7%nat 0%nat);
      [now apply find_first_at_inv | now apply find_first_at_inv | lia].
  - etransitivity;
      [exact (Hskip "Draft" [] (critic_response "A" (fun _ => Responded "[SPEC][/SPEC]" None))
                [] eq_refl)
      | reflexivity].
  - now apply Hne.
  - eapply (Hinv ex_clock ex_args "X" _ _ world0).
    + intros id s Hs. cbn in Hs. now rewrite lookup_empty in Hs.
    + apply surjective_pairing.
Defined.

(** * Further lemmas *)

(** ** Markers written around a text *)

Lemma occurs_at_within (sub pre rest : string) (j : nat) :
  occurs_at sub (pre +:+ rest) j ->
  (j + String.length sub <= String.length pre)%nat ->
  occurs_at sub pre j.
Proof.
  intros (p & q & H & Hp) Hlen.
  assert (Hs : pre +:+ rest = (p +:+ sub) +:+ q) by (now rewrite append_assoc).
  symmetry in Hs. apply append_split in Hs as (m & -> & _);
    [|rewrite length_append; lia].
  exists p, m. split; [now rewrite append_assoc | assumption].
Qed.

Lemma occurs_at_beyond (sub pre rest : string) (j : nat) :
  occurs_at sub (pre +:+ rest) j -> (String.length pre <= j)%nat ->
  occurs_at sub rest (j - String.length pre).
Proof.
  intros (p & q & H & Hp) Hlen.
  apply append_split in H as (m & -> & ->); [|lia].
  exists m, q. split; [reflexivity|]. rewrite length_append in Hp. lia.
Qed.

(** A marker that has its only bracket in front cannot begin before a
    bracket and run over it. *)
Lemma no_straddle (sub pre rest : string) (j : nat) :
  (forall k, (1 <= k)%nat -> String.get k sub <> Some "["%char) ->
  String.get 0 rest = Some "["%char ->
  occurs_at sub (pre +:+ rest) j ->
  (j < String.length pre)%nat -> (String.length pre < j + String.length sub)%nat ->
  False.
Proof.
  intros Hsub Hrest Hocc Hlt Hover.
  pose proof (get_occurs sub _ j (String.length pre - j) Hocc ltac:(lia)) as Hg.
  replace (j + (String.length pre - j))%nat with (0 + String.length pre)%nat in Hg by lia.
  rewrite <- append_correct2, Hrest in Hg.
  apply (Hsub (String.length pre - j)%nat); [lia | now symmetry].
Qed.

Lemma open_one_bracket (k : nat) :
  (1 <= k)%nat -> String.get k SPEC_OPEN <> Some "["%char.
Proof. destruct k as [|[|[|[|[|[|[|k]]]]]]]; intros; try lia; discriminate. Qed.

Lemma close_one_bracket (k : nat) :
  (1 <= k)%nat -> String.get k SPEC_CLOSE <> Some "["%char.
Proof. destruct k as [|[|[|[|[|[|[|[|k]]]]]]]]; intros; try lia; discriminate. Qed.

Lemma first_at_after_prefix (sub pre rest : string) :
  (forall k, (1 <= k)%nat -> String.get k sub <> Some "["%char) ->
  String.get 0 (sub +:+ rest) = Some "["%char ->
  absent sub pre ->
  first_at sub (pre +:+ sub +:+ rest) (String.length pre).
Proof.
  intros Hsub H0 Habs. split; [now exists pre, rest|].
  intros j Hj Hocc.
  destruct (Nat.le_gt_cases (j + String.length sub) (String.length pre)) as [Hin|Hout].
  - apply (Habs j). eapply occurs_at_within; eauto.
  - eapply no_straddle; eauto.
Qed.

Lemma wrapped_open_first (pre body post : string) :
  absent SPEC_OPEN pre ->
  first_at SPEC_OPEN (pre +:+ SPEC_OPEN +:+ body +:+ SPEC_CLOSE +:+ post)
    (String.length pre).
Proof.
  intros H. apply first_at_after_prefix; [apply open_one_bracket | reflexivity | assumption].
Qed.

Lemma wrapped_close_first (pre body post : string) :
  absent SPEC_CLOSE pre -> absent SPEC_CLOSE body ->
  first_at SPEC_CLOSE (pre +:+ SPEC_OPEN +:+ body +:+ SPEC_CLOSE +:+ post)
    (String.length (pre +:+ SPEC_OPEN +:+ body)).
Proof.
  intros Hpre Hbody. split.
  - exists (pre +:+ SPEC_OPEN +:+ body), post. split; [|reflexivity].
    now rewrite !append_assoc.
  - intros j Hj Hocc. rewrite !length_append in Hj. cbn [String.length SPEC_OPEN] in Hj.
    destruct (Nat.le_gt_cases (String.length pre) j) as [Hge|Hlt].
    + (* the occurrence begins in the marker or in the body *)
      apply occurs_at_beyond in Hocc; [|assumption].
      set (j' := (j - String.length pre)%nat) in *.
      destruct (Nat.le_gt_cases 6 j') as [Hge6|Hlt6].
      * change (SPEC_OPEN +:+ body +:+ SPEC_CLOSE +:+ post)
          with (SPEC_OPEN +:+ (body +:+ SPEC_CLOSE +:+ post)) in Hocc.
        apply occurs_at_beyond in Hocc; [|cbn; lia].
        cbn [String.length SPEC_OPEN] in Hocc.
        set (j'' := (j' - 6)%nat) in *.
        destruct (Nat.le_gt_cases (j'' + String.length SPEC_CLOSE) (String.length body))
          as [Hin|Hout].
        -- apply (Hbody j''). eapply occurs_at_within; eauto.
        -- eapply (no_straddle SPEC_CLOSE body); eauto using close_one_bracket.
           ++ reflexivity.
           ++ lia.
      * pose proof (get_occurs SPEC_CLOSE _ j' 0 Hocc ltac:(cbn; lia)) as H0.
        pose proof (get_occurs SPEC_CLOSE _ j' 1 Hocc ltac:(cbn; lia)) as H1.
        rewrite Nat.add_0_r in H0.
        destruct j' as [|[|[|[|[|[|j']]]]]]; try lia; cbn in H0, H1; discriminate.
    + (* the occurrence begins in the prefix *)
      destruct (Nat.le_gt_cases (j + String.length SPEC_CLOSE) (String.length pre))
        as [Hin|Hout].
      * apply (Hpre j). eapply occurs_at_within; eauto.
      * eapply (no_straddle SPEC_CLOSE pre); eauto using close_one_bracket. reflexivity.
Qed.

(** ** The critique summary *)

Lemma length_substring_0 (n : nat) (s : string) :
  String.length (substring 0 n s) = Nat.min n (String.length s).
Proof.
  revert s. induction n as [|n IH]; intros [|c s]; cbn; try reflexivity.
  now rewrite IH.
Qed.

Lemma len_nonneg (s : string) : 0 <= Py.len s.
Proof. unfold Py.len. lia. Qed.

Lemma len_append (s t : string) : Py.len (s +:+ t) = Py.len s + Py.len t.
Proof. unfold Py.len. rewrite length_append. lia. Qed.

Lemma len_slice_head (s : string) (n : Z) :
  0 <= n -> Py.len (Py.slice s 0 n) = Z.min n (Py.len s).
Proof.
  intros Hn. unfold Py.slice, Py.slice_index.
  destruct (Z.ltb_spec n 0); [lia|]. cbn [Z.ltb Z.compare].
  pose proof (len_nonneg s).
  replace (Z.to_nat (Z.min 0 (Py.len s))) with 0%nat by lia.
  unfold Py.len at 1. rewrite length_substring_0. unfold Py.len in *. lia.
Qed.

Lemma slice_head_prefix (pre rest : string) :
  Py.slice (pre +:+ rest) 0 (Py.len pre) = pre.
Proof.
  pose proof (slice_between EmptyString pre rest) as H.
  rewrite !append_nil_l in H. exact H.
Qed.

(** ** The roster on the command line *)

Lemma lstrip_id (s : string) :
  (forall c t, s = String c t -> Py.isspace c = false) -> Py.lstrip s = s.
Proof.
  destruct s as [|c s]; [reflexivity|]. intros H. cbn. now rewrite (H c s eq_refl).
Qed.

Lemma rstrip_id (s : string) :
  (forall t c, s = t +:+ String c EmptyString -> Py.isspace c = false) -> Py.rstrip s = s.
Proof.
  induction s as [|a s IH]; [reflexivity|]. intros H. cbn.
  destruct s as [|b s].
  - cbn. now rewrite (H EmptyString a eq_refl).
  - rewrite IH; [reflexivity|]. intros t c Ht. apply (H (String a t) c).
    now rewrite append_cons, <- Ht.
Qed.

Lemma strip_strip (s : string) : Py.strip (Py.strip s) = Py.strip s.
Proof.
  destruct (strip_trimmed s) as (_ & Hfirst & Hlast).
  unfold Py.strip at 1. rewrite (lstrip_id _ Hfirst). now apply rstrip_id.
Qed.

Lemma comma_free_lstrip (s : string) : comma_free s = true -> comma_free (Py.lstrip s) = true.
Proof.
  induction s as [|c s IH]; [reflexivity|]. cbn. intros [Hc Hs]%andb_true_iff.
  destruct (Py.isspace c); [now apply IH | cbn; now rewrite Hc, Hs].
Qed.

Lemma comma_free_rstrip (s : string) : comma_free s = true -> comma_free (Py.rstrip s) = true.
Proof.
  induction s as [|c s IH]; [reflexivity|]. cbn. intros [Hc Hs]%andb_true_iff.
  specialize (IH Hs). destruct (Py.rstrip s) as [|b r].
  - destruct (Py.isspace c); [reflexivity | cbn; now rewrite Hc].
  - cbn in *. now rewrite Hc, IH.
Qed.

Lemma comma_free_split (s : string) :
  Forall (fun w => comma_free w = true) (Py.split_comma s).
Proof.
  induction s as [|c s IH]; cbn; [repeat constructor|].
  destruct (Ascii.eqb c ",") eqn:E; [now constructor|].
  destruct (Py.split_comma s) as [|w ws]; inversion IH; subst;
    constructor; cbn; try rewrite E; auto.
Qed.

Lemma split_comma_single (w : string) :
  comma_free w = true -> Py.split_comma w = [w].
Proof.
  induction w as [|c w IH]; [reflexivity|]. cbn. intros [Hc Hw]%andb_true_iff.
  apply negb_true_iff in Hc. now rewrite Hc, (IH Hw).
Qed.

Lemma split_comma_cons (w rest : string) :
  comma_free w = true ->
  Py.split_comma (w +:+ "," +:+ rest) = w :: Py.split_comma rest.
Proof.
  induction w as [|c w IH]; [reflexivity|]. intros [Hc Hw]%andb_true_iff.
  apply negb_true_iff in Hc. rewrite append_cons. cbn [Py.split_comma].
  now rewrite Hc, (IH Hw).
Qed.

Lemma split_join (ms : list string) :
  ms <> [] -> Forall (fun w => comma_free w = true) ms ->
  Py.split_comma (Py.join "," ms) = ms.
Proof.
  induction ms as [|w ms IH]; [congruence|]. intros _ Hall.
  inversion Hall as [|? ? Hw Hms]; subst.
  destruct ms as [|w' ms]; [now apply split_comma_single|].
  cbn [Py.join]. rewrite split_comma_cons by assumption. f_equal.
  apply IH; [discriminate | assumption].
Qed.

(** ** Every run of the retry loop *)

Lemma retry_loop_cases (model : string) (replies : nat -> outcome)
    (attempts : list Z) (last_error : option string) (w : World) :
  exists r w' t,
    retry_loop model replies attempts last_error w = (Return r, w') /\
    trace w' = trace w ++ t /\
    (attempts <> [] -> (1 <= requests t)%nat) /\
    (requests t <= length attempts)%nat /\
    ((exists content usage cost k,
        k ∈ attempts /\ replies (Z.to_nat k) = Responded content usage /\
        CostTracker.add (cost_tracker w) model (tokens_in usage) (tokens_out usage)
          = Return (cost, cost_tracker w') /\
        r = success_response model content usage cost) \/
     (exists err,
        cost_tracker w' = cost_tracker w /\ r = failed_response model err /\
        (attempts <> [] \/ last_error <> None -> err <> None) /\
        (forall k, k ∈ attempts -> forall content usage,
           replies (Z.to_nat k) = Responded content usage ->
           exists e, CostTracker.add (cost_tracker w) model
                       (tokens_in usage) (tokens_out usage) = Raise e))).
Proof.
  revert last_error w. induction attempts as [|attempt rest IH]; intros last_error w.
  - exists (failed_response model last_error), w, []. cbn. unfold ret.
    split; [reflexivity|]. split; [now rewrite app_nil_r|]. split; [congruence|].
    split; [lia|]. right. exists last_error.
    split; [reflexivity|]. split; [reflexivity|]. split; [intros [?|?]; congruence|].
    intros k Hk. now apply elem_of_nil in Hk.
  - set (w1 := set_trace
           (trace w ++ Completion model ::
              (if attempt <? MAX_RETRIES - 1 then [Sleep (backoff attempt)] else []))
           w).
    assert (Hstep : forall err,
      retry_loop model replies (attempt :: rest) last_error w
        = retry_loop model replies rest (Some err) w1 ->
      (forall content usage, replies (Z.to_nat attempt) = Responded content usage ->
         exists e, CostTracker.add (cost_tracker w) model
                     (tokens_in usage) (tokens_out usage) = Raise e) ->
      exists r w' t,
        retry_loop model replies (attempt :: rest) last_error w = (Return r, w') /\
        trace w' = trace w ++ t /\
        (attempt :: rest <> [] -> (1 <= requests t)%nat) /\
        (requests t <= length (attempt :: rest))%nat /\
        ((exists content usage cost k,
            k ∈ attempt :: rest /\ replies (Z.to_nat k) = Responded content usage /\
            CostTracker.add (cost_tracker w) model (tokens_in usage) (tokens_out usage)
              = Return (cost, cost_tracker w') /\
            r = success_response model content usage cost) \/
         (exists err',
            cost_tracker w' = cost_tracker w /\ r = failed_response model err' /\
            (attempt :: rest <> [] \/ last_error <> None -> err' <> None) /\
            (forall k, k ∈ attempt :: rest -> forall content usage,
               replies (Z.to_nat k) = Responded content usage ->
               exists e, CostTracker.add (cost_tracker w) model
                           (tokens_in usage) (tokens_out usage) = Raise e)))).
    { intros err Heq Hhere. rewrite Heq.
      destruct (IH (Some err) w1) as (r & w' & t & Hrun & Ht & _ & Hn & Hcase).
      exists r, w',
        (Completion model ::
           (if attempt <? MAX_RETRIES - 1 then [Sleep (backoff attempt)] else []) ++ t).
      split; [exact Hrun|]. split.
      { rewrite Ht. unfold w1. cbn [trace set_trace]. rewrite <- app_assoc. reflexivity. }
      split; [intros _; cbn; lia|]. split.
      { destruct (attempt <? MAX_RETRIES - 1); cbn; lia. }
      destruct Hcase as [(content & usage & cost & k & Hk & Hrep & Hadd & ->)
                        | (err' & Htr & -> & Herr & Hall)].
      - left. exists content, usage, cost, k.
        split; [now apply list_elem_of_further|]. auto.
      - right. exists err'. split; [exact Htr|]. split; [reflexivity|].
        split.
        + intros _. apply Herr. now right.
        + intros k [->|Hk]%elem_of_cons; [exact Hhere | now apply Hall]. }
    destruct (replies (Z.to_nat attempt)) as [content usage | msg] eqn:E.
    + destruct (CostTracker.add (cost_tracker w) model (tokens_in usage) (tokens_out usage))
        as [[cost c']|e] eqn:Hadd.
      * rewrite (retry_loop_responded _ _ _ _ _ _ _ _ _ _ E Hadd).
        eexists _, _, [Completion model]. split; [reflexivity|].
        split; [reflexivity|]. split; [cbn; lia|]. split; [cbn; lia|].
        left. exists content, usage, cost, attempt.
        split; [apply list_elem_of_here|]. auto.
      * apply (Hstep (str e)).
        -- apply (retry_loop_overflow _ _ _ _ _ _ _ _ _ E Hadd).
        -- intros content' usage' [= <- <-]. eauto.
    + apply (Hstep msg).
      * apply (retry_loop_failed _ _ _ _ _ _ _ E).
      * intros content usage Hc. discriminate Hc.
Qed.

(** ** The ledger's token totals *)

Lemma subtotal_insert (f : ModelTotals.t -> Z) (m : gmap string ModelTotals.t)
    (k : string) (v : ModelTotals.t) :
  f ModelTotals.zero = 0 ->
  subtotal f (<[k := v]> m)
    = subtotal f m - f (default ModelTotals.zero (m !! k)) + f v.
Proof.
  intros Hzero. unfold subtotal.
  assert (Hcomm : forall (m' : gmap string ModelTotals.t) (j1 j2 : string)
                    (z1 z2 : ModelTotals.t) (y : Z),
             j1 <> j2 -> m' !! j1 = Some z1 -> m' !! j2 = Some z2 ->
             f z1 + (f z2 + y) = f z2 + (f z1 + y)) by (intros; lia).
  destruct (m !! k) as [old|] eqn:E; cbn [default].
  - rewrite <- insert_delete_eq.
    rewrite map_fold_insert_L; [|apply Hcomm | apply lookup_delete_eq].
    rewrite (map_fold_delete_L _ _ k old m); [unfold id; lia | apply Hcomm | exact E].
  - rewrite map_fold_insert_L; [rewrite Hzero; lia | apply Hcomm | exact E].
Qed.

Lemma add_totals (self self' : CostTracker.t) (model : string) (i o : Z) (cost : float) :
  CostTracker.add self model i o = Return (cost, self') ->
  CostTracker.total_input_tokens self' = CostTracker.total_input_tokens self + i /\
  CostTracker.total_output_tokens self' = CostTracker.total_output_tokens self + o /\
  (balanced self -> balanced self').
Proof.
  unfold CostTracker.add.
  destruct (truediv i 1000000) as [qi|]; [|discriminate].
  destruct (truediv o 1000000) as [qo|]; [|discriminate].
  intros [= <- <-]. cbn. split; [reflexivity|]. split; [reflexivity|].
  intros [Hin Hout]. split; cbn.
  - rewrite subtotal_insert by reflexivity. cbn. lia.
  - rewrite subtotal_insert by reflexivity. cbn. lia.
Qed.

Lemma balanced_new : balanced CostTracker.new.
Proof. split; reflexivity. Qed.

Lemma requests_app (t1 t2 : list event) :
  requests (t1 ++ t2) = (requests t1 + requests t2)%nat.
Proof. induction t1 as [|[m|d] t1 IH]; cbn; lia. Qed.

(** ** One invocation, whatever the provider does *)

Lemma call_single_model_cases (model : string) (replies : nat -> outcome) (w : World) :
  exists r w' t,
    call_single_model model replies w = (Return r, w') /\
    trace w' = trace w ++ t /\ (1 <= requests t <= 3)%nat /\
    CostTracker.total_input_tokens (cost_tracker w')
      = CostTracker.total_input_tokens (cost_tracker w) + ModelResponse.input_tokens r /\
    CostTracker.total_output_tokens (cost_tracker w')
      = CostTracker.total_output_tokens (cost_tracker w) + ModelResponse.output_tokens r /\
    (balanced (cost_tracker w) -> balanced (cost_tracker w')).
Proof.
  unfold call_single_model.
  destruct (retry_loop_cases model replies (range MAX_RETRIES) None w)
    as (r & w' & t & Hrun & Ht & Hlo & Hhi & Hcase).
  exists r, w', t. split; [exact Hrun|]. split; [exact Ht|].
  split; [split; [apply Hlo; discriminate | exact Hhi]|].
  destruct Hcase as [(content & usage & cost & k & _ & _ & Hadd & ->)
                    | (err & -> & -> & _)].
  - destruct (add_totals _ _ _ _ _ _ Hadd) as (? & ? & ?). auto.
  - cbn. split; [lia|]. split; [lia | auto].
Qed.

Lemma collect_cases (models : list string) (completion : nat -> nat -> outcome)
    (order : list nat) (w : World) :
  exists results w' t,
    collect models completion order w = (Return results, w') /\
    trace w' = trace w ++ t /\
    (length results <= requests t <= 3 * length results)%nat /\
    CostTracker.total_input_tokens (cost_tracker w')
      = CostTracker.total_input_tokens (cost_tracker w)
        + sum_tokens ModelResponse.input_tokens results /\
    CostTracker.total_output_tokens (cost_tracker w')
      = CostTracker.total_output_tokens (cost_tracker w)
        + sum_tokens ModelResponse.output_tokens results /\
    (balanced (cost_tracker w) -> balanced (cost_tracker w')).
Proof.
  revert w. induction order as [|i rest IH]; intros w.
  - exists [], w, []. cbn. unfold ret. rewrite app_nil_r.
    split; [reflexivity|]. split; [reflexivity|]. split; [lia|].
    split; [lia|]. split; [lia | auto].
  - cbn [collect]. destruct (models !! i) as [model|]; [|apply IH].
    destruct (call_single_model_cases model (completion i) w)
      as (r & w1 & t1 & Hr & Ht1 & Hn1 & Hin1 & Hout1 & Hb1).
    destruct (IH w1) as (rs & w2 & t2 & Hrs & Ht2 & Hn2 & Hin2 & Hout2 & Hb2).
    exists (r :: rs), w2, (t1 ++ t2). unfold bind. rewrite Hr, Hrs. unfold ret.
    split; [reflexivity|]. split; [now rewrite Ht2, Ht1, app_assoc|].
    split; [rewrite requests_app; cbn; lia|].
    cbn [sum_tokens foldr]. fold (sum_tokens ModelResponse.input_tokens rs).
    fold (sum_tokens ModelResponse.output_tokens rs).
    split; [lia|]. split; [lia | auto].
Qed.

(** ** The steps of [main] *)

Lemma call_models_parallel_cases (models : list string)
    (completion : nat -> nat -> outcome) (order : list nat) (w : World) :
  (models = [] /\
   call_models_parallel models completion order w
     = (Raise (ValueError "max_workers must be greater than 0"), w)) \/
  (models <> [] /\
   exists w' t,
     call_models_parallel models completion order w
       = (Return (responses_in models completion order), w') /\
     sessions w' = sessions w /\ checkpoints w' = checkpoints w /\ clock w' = clock w /\
     trace w' = trace w ++ t /\
     (length (responses_in models completion order) <= requests t
      <= 3 * length (responses_in models completion order))%nat /\
     CostTracker.total_input_tokens (cost_tracker w')
       = CostTracker.total_input_tokens (cost_tracker w)
         + sum_tokens ModelResponse.input_tokens (responses_in models completion order) /\
     CostTracker.total_output_tokens (cost_tracker w')
       = CostTracker.total_output_tokens (cost_tracker w)
         + sum_tokens ModelResponse.output_tokens (responses_in models completion order) /\
     (balanced (cost_tracker w) -> balanced (cost_tracker w'))).
Proof.
  destruct (decide (models = [])) as [->|Hne]; [left; now split | right].
  split; [assumption|].
  destruct (call_models_parallel_run models completion order w Hne)
    as (w' & Hrun & ? & ? & ?).
  destruct (collect_cases models completion order w)
    as (results & w'' & t & Hc & Ht & Hn & Hin & Hout & Hb).
  unfold call_models_parallel in Hrun. rewrite bool_decide_eq_false_2 in Hrun by assumption.
  rewrite Hc in Hrun. injection Hrun as -> ->.
  exists w', t. unfold call_models_parallel. rewrite bool_decide_eq_false_2 by assumption.
  rewrite Hc. auto 12.
Qed.

Section MainSteps.

Variable isoformat : nat -> string.

Lemma resume_or_read_cases (args : Args.t) (stdin : string) (w : World) :
  (resume_or_read args (parse_models (Args.models args)) stdin w
     = (Raise (SystemExit 1), w) /\
   Py.truthy_opt (Args.resume args) = false /\ Py.strip stdin = EmptyString) \/
  (resume_or_read args (parse_models (Args.models args)) stdin w
     = (Raise (SystemExit 2), w) /\
   exists id, Args.resume args = Some id /\ Py.truthy id = true /\
              sessions w !! id = None) \/
  (exists st,
     resume_or_read args (parse_models (Args.models args)) stdin w = (Return st, w) /\
     read_outcome args stdin w st).
Proof.
  unfold resume_or_read, read_outcome.
  assert (Hread : Py.truthy_opt (Args.resume args) = false ->
    ((let spec := Py.strip stdin in
      if negb (Py.truthy spec) then sys_exit 1
      else ret (@None SessionState.t, spec, args, parse_models (Args.models args))) w
       = (Raise (SystemExit 1), w) /\
     Py.truthy_opt (Args.resume args) = false /\ Py.strip stdin = EmptyString) \/
    (exists st,
       (let spec := Py.strip stdin in
        if negb (Py.truthy spec) then sys_exit 1
        else ret (@None SessionState.t, spec, args, parse_models (Args.models args))) w = (Return st, w) /\
       ((Py.truthy_opt (Args.resume args) = false /\
         Py.strip stdin <> EmptyString /\
         st = (None, Py.strip stdin, args, parse_models (Args.models args))) \/
        (exists id s0 args',
           Args.resume args = Some id /\ Py.truthy id = true /\
           sessions w !! id = Some s0 /\
           Args.round args' = SessionState.round s0 /\
           Args.session args' = Args.session args /\
           st = (Some s0, SessionState.spec s0, args', SessionState.models s0))))).
  { intros Hres. cbv zeta. destruct (Py.strip stdin) eqn:E; cbn.
    - left. auto.
    - right. eexists. split; [reflexivity|]. left. repeat split; [assumption | discriminate]. }
  destruct (Args.resume args) as [id|] eqn:Hres.
  - destruct (Py.truthy id) eqn:Hid.
    + right. unfold try_except, bind, load.
      destruct (sessions w !! id) as [s0|] eqn:Hs0.
      * right. unfold ret. eexists. split; [reflexivity|]. right.
        do 3 eexists. repeat apply conj; cycle 5;
          [reflexivity | reflexivity | assumption | assumption | reflexivity | reflexivity].
      * left. cbn. split; [reflexivity|]. exists id. auto.
    + destruct (Hread Hid) as [H | H]; [left; exact H | right; right; exact H].
  - destruct (Hread eq_refl) as [H | H]; [left; exact H | right; right; exact H].
Qed.

(** What [init_session] does: nothing, or the creation of the session
    named on the command line. *)
Lemma init_session_cases (args : Args.t) (spec : string) (models : list string)
    (session_state : option SessionState.t) (w : World) :
  (init_session isoformat args spec models session_state w = (Return session_state, w) /\
   (session_state = None -> Py.truthy_opt (Args.session args) = false)) \/
  (exists id,
     session_state = None /\ Args.session args = Some id /\ Py.truthy id = true /\
     let s :=
       SessionState.mk id spec (Args.round args) models (Args.focus args)
         (Args.persona args) (Args.preserve_intent args)
         (isoformat (clock w)) (isoformat (S (clock w))) [] in
     init_session isoformat args spec models session_state w =
       (Return (Some s),
        mkWorld (cost_tracker w) (trace w) (<[id := s]> (sessions w))
          (checkpoints w) (S (S (clock w))))).
Proof.
  destruct session_state as [s|]; [left; split; [reflexivity | discriminate]|].
  unfold init_session. destruct (Args.session args) as [id|] eqn:Hs.
  - destruct (Py.truthy id) eqn:Hid.
    + right. exists id. repeat split; try assumption.
    + left. split; [reflexivity|]. intros _. exact Hid.
  - left. split; [reflexivity | reflexivity].
Qed.

Lemma main_tail (args : Args.t) (spec : string) (models : list string)
    (results : list ModelResponse.t) (ss1 ss2 : option SessionState.t) (w2 w' : World) :
  update_session isoformat args spec results ss1 (checkpoint_world ss1 args spec w2)
    = (Return ss2, w') ->
  ((if Py.truthy_opt (session_id_of ss1 args) || Py.truthy_opt (Args.session args)
    then save_checkpoint spec (Args.round args) (session_id_of ss1 args)
    else ret tt) ;;;
   (session_state <- update_session isoformat args spec results ss1 ;;
    ret (RoundOutput.mk (all_agreed results) (Args.round args) models results
           (session_id_of ss1 args)))) w2
  = (Return (RoundOutput.mk (all_agreed results) (Args.round args) models results
               (session_id_of ss1 args)), w').
Proof.
  intros Hu. unfold checkpoint_world in Hu. unfold bind.
  destruct (Py.truthy_opt (session_id_of ss1 args) || Py.truthy_opt (Args.session args));
    unfold save_checkpoint, ret at 1; cbv beta iota zeta; rewrite Hu; reflexivity.
Qed.

(** Every run of [main]: either it stops at once, the world untouched, or
    it goes through its five steps. *)
Lemma main_steps (args : Args.t) (stdin : string)
    (completion : nat -> nat -> outcome) (order : list nat) (w : World) :
  (exists e,
     main isoformat args stdin completion order w = (Raise e, w) /\
     ((e = SystemExit 1 /\
       (parse_models (Args.models args) = [] \/
        (Py.truthy_opt (Args.resume args) = false /\ Py.strip stdin = EmptyString))) \/
      (e = SystemExit 2 /\ parse_models (Args.models args) <> [] /\
       exists id, Args.resume args = Some id /\ Py.truthy id = true /\
                  sessions w !! id = None) \/
      (e = ValueError "max_workers must be greater than 0" /\
       parse_models (Args.models args) <> [] /\
       exists id s0, Args.resume args = Some id /\ Py.truthy id = true /\
                     sessions w !! id = Some s0 /\ SessionState.models s0 = []))) \/
  (exists ss spec args' models' ss1 w1 w2 ss2 w',
     parse_models (Args.models args) <> [] /\
     read_outcome args stdin w (ss, spec, args', models') /\
     models' <> [] /\
     init_session isoformat args' spec models' ss w = (Return ss1, w1) /\
     call_models_parallel models' completion order w1
       = (Return (responses_in models' completion order), w2) /\
     update_session isoformat args' spec (responses_in models' completion order) ss1
       (checkpoint_world ss1 args' spec w2) = (Return ss2, w') /\
     main isoformat args stdin completion order w
       = (Return (RoundOutput.mk (all_agreed (responses_in models' completion order))
                    (Args.round args') models'
                    (responses_in models' completion order)
                    (session_id_of ss1 args')), w')).
Proof.
  unfold main. cbv zeta. unfold bind. case_bool_decide as Hm.
  { left. exists (SystemExit 1). split; [reflexivity|]. left. split; [reflexivity|]. now left. }
  destruct (resume_or_read_cases args stdin w)
    as [(-> & Hres & Hblank) | [(-> & id & Hres & Hid & Hnone) | (st & -> & Hst)]].
  { left. exists (SystemExit 1). split; [reflexivity|]. left. split; [reflexivity|]. now right. }
  { left. exists (SystemExit 2). split; [reflexivity|]. right. left. eauto 8. }
  destruct st as [[[ss spec] args'] models']. cbv beta iota zeta.
  assert (Hmodels : models' = [] ->
            exists id s0, Args.resume args = Some id /\ Py.truthy id = true /\
                          sessions w !! id = Some s0 /\ SessionState.models s0 = [] /\
                          ss = Some s0).
  { intros ->. destruct Hst as [(_ & _ & [= -> _ _ Hp]) | (id & s0 & a & ? & ? & ? & _ & _ & Heq)].
    - congruence.
    - injection Heq as -> _ _ Hm0. exists id, s0. auto. }
  destruct (call_models_parallel_cases models' completion order)
    with (w := w) as [[-> Hv] | [Hne _]].
  - (* a resumed session without a roster *)
    destruct (Hmodels eq_refl) as (id & s0 & ? & ? & ? & ? & ->).
    left. exists (ValueError "max_workers must be greater than 0").
    split; [|right; right; split; [reflexivity|]; split; [assumption|]; eauto 8].
    unfold init_session, ret. cbv beta iota. reflexivity.
  - right.
    destruct (init_session_cases args' spec models' ss w)
      as [[Hi Hnone] | (id & -> & Hs & Hid & Hi)].
    + destruct (call_models_parallel_cases models' completion order w)
        as [[? _] | (_ & w2 & t & Hc & _)]; [congruence|].
      destruct (update_session isoformat args' spec
                  (responses_in models' completion order) ss
                  (checkpoint_world ss args' spec w2)) as [[ss2|e] w'] eqn:Hu.
      2:{ destruct ss; [rewrite update_session_some in Hu | cbn in Hu]; discriminate Hu. }
      exists ss, spec, args', models', ss, w, w2, ss2, w'.
      repeat (split; [assumption|]).
      rewrite Hi, Hc. cbv beta iota.
      exact (main_tail args' spec models' _ ss ss2 w2 w' Hu).
    + cbv zeta in Hi.
      match type of Hi with _ = (Return (Some ?s), ?w1) =>
        destruct (call_models_parallel_cases models' completion order w1)
          as [[? _] | (_ & w2 & t & Hc & _)]; [congruence|];
        destruct (update_session isoformat args' spec
                    (responses_in models' completion order) (Some s)
                    (checkpoint_world (Some s) args' spec w2)) as [[ss2|e] w'] eqn:Hu;
          [|rewrite update_session_some in Hu; discriminate Hu];
        exists None, spec, args', models', (Some s), w1, w2, ss2, w'
      end.
      repeat (split; [assumption|]).
      rewrite Hi, Hc. cbv beta iota.
      exact (main_tail args' spec models' _ _ ss2 w2 w' Hu).
Qed.

End MainSteps.

(** ** A round in which every request fails *)

Lemma critic_response_failed (model : string) (replies : nat -> outcome) :
  (forall k, exists msg, replies k = Failed msg) ->
  exists msg, critic_response model replies = failed_response model (Some msg).
Proof.
  intros Hfail.
  destruct (Hfail 0%nat) as [m0 H0]. destruct (Hfail 1%nat) as [m1 H1].
  destruct (Hfail 2%nat) as [m2 H2].
  exists m2. unfold critic_response.
  now rewrite (call_single_model_exhausted model replies world0 m0 m1 m2 H0 H1 H2).
Qed.

Lemma all_agreed_nobody (results : list ModelResponse.t) :
  Forall (fun r => ModelResponse.agreed r = false) results ->
  all_agreed results = false.
Proof.
  intros Hall. unfold all_agreed.
  destruct (successful results) as [|r rs] eqn:E; [reflexivity|].
  assert (Hr : r ∈ successful results) by (rewrite E; apply list_elem_of_here).
  apply successful_elem in Hr as [Hr _].
  rewrite Forall_forall in Hall. cbn. now rewrite (Hall r Hr).
Qed.

Lemma latest_spec_nothing (spec : string) (results : list ModelResponse.t) :
  Forall (fun r => ModelResponse.spec r = None) results ->
  latest_spec spec results = spec.
Proof.
  intros Hall. destruct (latest_spec_cases spec results) as [[H _] | (r & Hr & Ho)];
    [assumption|].
  rewrite Forall_forall in Hall. apply offered_nonempty in Ho as (_ & _ & Hs).
  rewrite (Hall r Hr) in Hs. discriminate Hs.
Qed.

Lemma responses_in_failed (models : list string) (completion : nat -> nat -> outcome)
    (order : list nat) :
  (forall i k, exists msg, completion i k = Failed msg) ->
  Forall (fun r => exists model msg, r = failed_response model (Some msg))
    (responses_in models completion order).
Proof.
  intros Hfail. unfold responses_in. induction order as [|i rest IH]; [constructor|].
  cbn [omap list_omap]. unfold response_at at 1.
  destruct (models !! i) as [model|]; cbn; [|assumption].
  constructor; [|assumption].
  destruct (critic_response_failed model (completion i) (Hfail i)) as [msg ->]. eauto.
Qed.

Lemma sum_tokens_zero (f : ModelResponse.t -> Z) (rs : list ModelResponse.t) :
  Forall (fun r => f r = 0) rs -> sum_tokens f rs = 0.
Proof. induction 1 as [|r rs Hr _ IH]; cbn; [reflexivity|]. unfold sum_tokens in IH. lia. Qed.

(** ** What a round asks of the provider and adds to the ledger *)

Lemma round_tokens (models : list string) (completion : nat -> nat -> outcome)
    (order : list nat) (w w' : World) (results : list ModelResponse.t) :
  call_models_parallel models completion order w = (Return results, w') ->
  CostTracker.total_input_tokens (cost_tracker w')
    = CostTracker.total_input_tokens (cost_tracker w)
      + sum_tokens ModelResponse.input_tokens results /\
  CostTracker.total_output_tokens (cost_tracker w')
    = CostTracker.total_output_tokens (cost_tracker w)
      + sum_tokens ModelResponse.output_tokens results /\
  (balanced (cost_tracker w) -> balanced (cost_tracker w')).
Proof.
  intros Hrun.
  destruct (call_models_parallel_cases models completion order w)
    as [[_ Hv] | (_ & w2 & t & Hc & _ & _ & _ & _ & _ & Hin & Hout & Hb)];
    [rewrite Hv in Hrun; discriminate Hrun|].
  rewrite Hc in Hrun. injection Hrun as <- <-. auto.
Qed.

Section MainFacts.

Variable isoformat : nat -> string.

(** ** Failed starts *)

Lemma main_raise (args : Args.t) (stdin : string)
    (completion : nat -> nat -> outcome) (order : list nat) (w w' : World) (e : exn) :
  main isoformat args stdin completion order w = (Raise e, w') ->
  w' = w /\
  ((e = SystemExit 1 /\
    (parse_models (Args.models args) = [] \/
     (Py.truthy_opt (Args.resume args) = false /\ Py.strip stdin = EmptyString))) \/
   (e = SystemExit 2 /\ parse_models (Args.models args) <> [] /\
    exists id, Args.resume args = Some id /\ Py.truthy id = true /\
               sessions w !! id = None) \/
   (e = ValueError "max_workers must be greater than 0" /\
    parse_models (Args.models args) <> [] /\
    exists id s0, Args.resume args = Some id /\ Py.truthy id = true /\
                  sessions w !! id = Some s0 /\ SessionState.models s0 = [])).
Proof.
  intros Hrun.
  destruct (main_steps isoformat args stdin completion order w)
    as [(e0 & Hm & Hcase) | (ss & spec & a & ms & ss1 & w1 & w2 & ss2 & w3 & _ & _ & _ & _ & _ & _ & Hm)];
    rewrite Hm in Hrun; [|discriminate Hrun].
  injection Hrun as <- <-. auto.
Qed.

(** ** What a run leaves behind *)

Lemma init_session_frame (args : Args.t) (spec : string) (models : list string)
    (ss ss1 : option SessionState.t) (w w1 : World) :
  init_session isoformat args spec models ss w = (Return ss1, w1) ->
  cost_tracker w1 = cost_tracker w /\ trace w1 = trace w /\
  checkpoints w1 = checkpoints w /\
  ((w1 = w /\ ss1 = ss /\ (ss = None -> Py.truthy_opt (Args.session args) = false)) \/
   (exists id,
      ss = None /\ Args.session args = Some id /\ Py.truthy id = true /\
      ss1 = Some (SessionState.mk id spec (Args.round args) models (Args.focus args)
                    (Args.persona args) (Args.preserve_intent args)
                    (isoformat (clock w)) (isoformat (S (clock w))) []) /\
      sessions w1 = <[id := SessionState.mk id spec (Args.round args) models
                              (Args.focus args) (Args.persona args)
                              (Args.preserve_intent args)
                              (isoformat (clock w)) (isoformat (S (clock w))) []]>
                      (sessions w))).
Proof.
  intros Hrun.
  destruct (init_session_cases isoformat args spec models ss w)
    as [[Hi Hnone] | (id & -> & Hs & Hid & Hi)]; rewrite Hi in Hrun.
  - injection Hrun as <- <-. repeat split. left. auto.
  - cbv zeta in Hrun. injection Hrun as <- <-. repeat split. right. exists id. auto.
Qed.

Lemma update_session_frame (args : Args.t) (spec : string)
    (results : list ModelResponse.t) (ss1 ss2 : option SessionState.t) (w w' : World) :
  update_session isoformat args spec results ss1 w = (Return ss2, w') ->
  cost_tracker w' = cost_tracker w /\ trace w' = trace w /\
  checkpoints w' = checkpoints w /\
  match ss1 with
  | None => w' = w
  | Some s =>
      sessions w' =
        <[SessionState.session_id s :=
            SessionState.mk (SessionState.session_id s) (latest_spec spec results)
              (Args.round args + 1) (SessionState.models s) (SessionState.focus s)
              (SessionState.persona s) (SessionState.preserve_intent s)
              (SessionState.created_at s) (isoformat (clock w))
              (SessionState.history s ++ [round_entry (Args.round args) results])]>
          (sessions w)
  end.
Proof.
  destruct ss1 as [s|].
  - rewrite update_session_some. cbv zeta. intros [= <- <-]. repeat split.
  - cbn. intros [= <- <-]. repeat split.
Qed.

Lemma checkpoint_world_frame (ss : option SessionState.t) (args : Args.t)
    (spec : string) (w : World) :
  cost_tracker (checkpoint_world ss args spec w) = cost_tracker w /\
  trace (checkpoint_world ss args spec w) = trace w /\
  sessions (checkpoint_world ss args spec w) = sessions w /\
  clock (checkpoint_world ss args spec w) = clock w.
Proof. unfold checkpoint_world. destruct (_ || _); repeat split. Qed.

End MainFacts.

Section Resume.

Variable isoformat : nat -> string.

(** A resumed run, in full. *)
Lemma main_resumed (args : Args.t) (stdin : string)
    (completion : nat -> nat -> outcome) (order : list nat) (w : World)
    (id : string) (s0 : SessionState.t) :
  Args.resume args = Some id -> Py.truthy id = true ->
  parse_models (Args.models args) <> [] ->
  sessions w !! id = Some s0 ->
  Py.truthy (SessionState.session_id s0) = true ->
  SessionState.models s0 <> [] ->
  exists w2,
    let results := responses_in (SessionState.models s0) completion order in
    let s :=
      SessionState.mk (SessionState.session_id s0)
        (latest_spec (SessionState.spec s0) results)
        (SessionState.round s0 + 1) (SessionState.models s0) (SessionState.focus s0)
        (SessionState.persona s0) (SessionState.preserve_intent s0)
        (SessionState.created_at s0) (isoformat (clock w))
        (SessionState.history s0 ++ [round_entry (SessionState.round s0) results]) in
    call_models_parallel (SessionState.models s0) completion order w
      = (Return results, w2) /\
    main isoformat args stdin completion order w =
      (Return (RoundOutput.mk (all_agreed results) (SessionState.round s0)
                 (SessionState.models s0) results (Some (SessionState.session_id s0))),
       mkWorld (cost_tracker w2) (trace w2)
         (<[SessionState.session_id s0 := s]> (sessions w))
         (<[(SessionState.session_id s0 +:+ "-", SessionState.round s0)
              := SessionState.spec s0]> (checkpoints w))
         (S (clock w))).
Proof.
  intros Hres Hid Hne Hs0 Hsid Hm0.
  destruct (main_steps isoformat args stdin completion order w)
    as [(e0 & Hm & [[_ [? | [Hr _]]] | [(_ & _ & id' & Hr & _ & Hnone)
                                      | (_ & _ & id' & s0' & Hr & _ & Hs & Hnil)]])
       | (ss & spec & a & ms & ss1 & w1 & w2 & ss2 & w3 & _ & Hread & _ & Hi & Hc & Hu & Hm)].
  - congruence.
  - rewrite Hres in Hr. cbn in Hr. congruence.
  - congruence.
  - congruence.
  - destruct Hread as [(Hr & _) | (id' & s0' & a' & Hr & _ & Hs0' & Hround & _ & [= -> -> -> ->])];
      [rewrite Hres in Hr; cbn in Hr; congruence|].
    assert (id' = id) as -> by congruence. assert (s0' = s0) as -> by congruence.
    apply init_session_frame in Hi as (_ & _ & _ & [(-> & -> & _) | (? & [=] & _)]).
    destruct (call_models_parallel_cases (SessionState.models s0) completion order w)
      as [[? _] | (_ & w2' & t & Hc' & F1 & F2 & F3 & _)]; [congruence|].
    rewrite Hc' in Hc. injection Hc as ->.
    exists w2. cbv zeta. split; [exact Hc'|]. rewrite Hm.
    rewrite update_session_some in Hu. cbv zeta in Hu. injection Hu as _ <-.
    unfold checkpoint_world, session_id_of. cbn [Py.truthy_opt]. rewrite Hsid.
    cbn [orb cost_tracker trace sessions checkpoints clock set_checkpoints].
    rewrite F1, F2, F3, Hround. reflexivity.
Qed.

End Resume.

(** ** [load_api_keys] *)

(** What one item of [keys.json] does to one name. *)
Lemma load_item_cases (key_name : string) (key_value : json_value) (st st' : KeyState) :
  load_item key_name key_value st = inr st' ->
  (st' = st /\
   (endswith key_name "_API_KEY" = false \/ json_truthy key_value = false \/
    Py.truthy_opt (environ st !! key_name) = true)) \/
  (exists v,
     key_value = JString v /\ Py.truthy v = true /\
     endswith key_name "_API_KEY" = true /\
     Py.truthy_opt (environ st !! key_name) = false /\
     st' = mkKeyState (<[key_name := v]> (environ st))
             ({[key_name]} ∪ keys_from_config st)).
Proof.
  unfold load_item.
  destruct (endswith key_name "_API_KEY") eqn:Hend; cbn [andb];
    [|intros [= <-]; left; auto].
  destruct (json_truthy key_value) eqn:Hv; [|intros [= <-]; left; auto].
  destruct (Py.truthy_opt (environ st !! key_name)) eqn:Henv; cbn [negb];
    [intros [= <-]; left; auto|].
  unfold environ_setitem. destruct key_value as [v|b]; [|discriminate].
  destruct (_ || _); [discriminate|]. intros [= <-]. right. exists v. auto.
Qed.

Lemma load_item_storable (key_name : string) (key_value : json_value) (st : KeyState) :
  storable (key_name, key_value) -> exists st', load_item key_name key_value st = inr st'.
Proof.
  unfold storable, load_item, environ_setitem. cbn [fst snd].
  destruct (endswith key_name "_API_KEY") eqn:Hend; cbn [andb]; [|eauto].
  destruct key_value as [v|b]; cbn [json_truthy].
  - intros (-> & -> & ->). destruct (Py.truthy v); [|eauto].
    destruct (Py.truthy_opt _); cbn [negb]; [eauto|].
    assert (Py.truthy key_name = true) as ->.
    { destruct key_name; [discriminate Hend | reflexivity]. }
    cbn. eauto.
  - intros ->. eauto.
Qed.

Lemma truthy_neq (v : string) : Py.truthy v = true -> v <> EmptyString.
Proof. intros H ->. discriminate H. Qed.

Lemma load_items_cases (items : list (string * json_value)) (st st' : KeyState)
    (r : option crash) :
  load_items items st = (r, st') ->
  forall name,
    (environ st' !! name = environ st !! name /\
     (name ∈ keys_from_config st' <-> name ∈ keys_from_config st)) \/
    taken items st st' name.
Proof.
  revert st. induction items as [|[k v] rest IH]; intros st Hrun name.
  - injection Hrun as <- <-. left. split; reflexivity.
  - cbn [load_items] in Hrun.
    destruct (load_item k v st) as [e|st1] eqn:Hitem.
    { injection Hrun as <- <-. left. split; reflexivity. }
    specialize (IH st1 Hrun name).
    apply load_item_cases in Hitem as [[-> _] | (s & -> & Hs & Hend & Henv & ->)].
    + destruct IH as [IH | (s & Hin & ?)]; [left; exact IH | right].
      exists s. split; [right; exact Hin | assumption].
    + destruct (decide (name = k)) as [->|Hne].
      * right. exists s. split; [left|]. split; [now apply truthy_neq|].
        split; [assumption|]. split; [assumption|].
        destruct IH as [[He Hk] | (s' & _ & _ & _ & Hfalse & _)].
        -- cbn [environ keys_from_config] in He, Hk.
           rewrite lookup_insert_eq in He. split; [exact He | apply Hk, elem_of_union; left; now apply elem_of_singleton].
        -- cbn [environ] in Hfalse. rewrite lookup_insert_eq in Hfalse.
           cbn in Hfalse. congruence.
      * destruct IH as [[He Hk] | (s' & Hin & Hs' & Hend' & Hfalse & He & Hk)].
        -- left. cbn [environ keys_from_config] in He, Hk.
           rewrite lookup_insert_ne in He by congruence. split; [exact He|].
           rewrite Hk, elem_of_union, elem_of_singleton. tauto.
        -- right. exists s'. cbn [environ] in Hfalse.
           rewrite lookup_insert_ne in Hfalse by congruence.
           split; [right; exact Hin | auto].
Qed.

Lemma load_api_keys_cases (file : keys_file) (st st' : KeyState) (r : option crash) :
  load_api_keys file st = (r, st') ->
  forall name,
    (environ st' !! name = environ st !! name /\
     (name ∈ keys_from_config st' <-> name ∈ keys_from_config st)) \/
    (exists items, file = Keys items /\ taken items st st' name).
Proof.
  destruct file as [| | |items]; cbn [load_api_keys].
  1-3: intros [= <- <-] name; left; split; reflexivity.
  intros Hrun name.
  destruct (load_items_cases items st st' r Hrun name) as [H | H]; [left; exact H | right].
  exists items. auto.
Qed.

Lemma load_items_kept (items : list (string * json_value)) (st st' : KeyState)
    (r : option crash) (name value : string) :
  load_items items st = (r, st') ->
  environ st !! name = Some value -> value <> EmptyString ->
  environ st' !! name = Some value /\
  (name ∈ keys_from_config st -> name ∈ keys_from_config st').
Proof.
  intros Hrun Hv Hne.
  destruct (load_items_cases items st st' r Hrun name)
    as [[He Hk] | (s & _ & _ & _ & Hfalse & _)].
  - split; [congruence | apply Hk].
  - rewrite Hv in Hfalse. destruct value; [congruence | discriminate Hfalse].
Qed.

(** ** Profiles *)

Lemma apply_profile_config (args : Settings.t) :
  apply_profile (profile_config args) default_settings = args.
Proof.
  destruct args as [m f p c b]. unfold apply_profile, profile_config, default_settings.
  cbn. destruct b; reflexivity.
Qed.

(** ** The user message *)

Lemma append_cancel_l (pre x y : string) : pre +:+ x = pre +:+ y -> x = y.
Proof.
  induction pre as [|c pre IH]; [now rewrite !append_nil_l|].
  rewrite !append_cons. intros [= H]. auto.
Qed.

Lemma append_cancel_r (x y post : string) : x +:+ post = y +:+ post -> x = y.
Proof.
  intros H. apply (append_inj_length x post y post H).
  apply (f_equal String.length) in H. rewrite !length_append in H. lia.
Qed.

(** Unfolds the two templates in an equation between messages. *)
Ltac unfold_messages H :=
  unfold user_message, format, REVIEW_PROMPT_TEMPLATE, PRESS_PROMPT_TEMPLATE in H;
  cbn [foldr format_piece] in H.

(** * Further properties *)

(** ** Extraction and the critique summary *)

(** X1: whatever stands around them, an artifact wrapped in the two
    markers is extracted, trimmed, as soon as the text before the opening
    marker holds neither marker and the artifact itself holds no closing
    marker; what follows the closing marker plays no part. *)
Theorem extract_spec_wrapped (pre body post : string) :
  absent SPEC_OPEN pre -> absent SPEC_CLOSE pre -> absent SPEC_CLOSE body ->
  extract_spec (pre +:+ SPEC_OPEN +:+ body +:+ SPEC_CLOSE +:+ post)
    = Some (Py.strip body).
Proof.
  intros Ho Hc Hb.
  pose proof (wrapped_open_first pre body post Ho) as Hfo.
  pose proof (wrapped_close_first pre body post Hc Hb) as Hfc.
  destruct (extract_spec_ordered _ _ _ Hfo Hfc) as (pre' & mid' & post' & Ht & Hp & Hm & ->).
  { rewrite !length_append. cbn. lia. }
  apply append_inj_length in Ht as [<- Ht]; [|congruence].
  apply (append_inj_length SPEC_OPEN _ SPEC_OPEN) in Ht as [_ Ht]; [|reflexivity].
  apply append_inj_length in Ht as [<- _]; [reflexivity|].
  rewrite !length_append in Hm. lia.
Qed.

Lemma extract_spec_wrapped_witness :
  extract_spec ("Too vague. " +:+ SPEC_OPEN +:+ " Plan B " +:+ SPEC_CLOSE
                +:+ " [SPEC]late[/SPEC]")
    = Some "Plan B".
Proof.
  refine (extract_spec_wrapped "Too vague. " " Plan B " " [SPEC]late[/SPEC]" _ _ _);
    apply contains_false_absent; reflexivity.
Defined.

(** X2: a critique summary is never longer than [max_length] plus the
    three characters of the ellipsis. *)
Theorem get_critique_summary_length (response : string) (max_length : Z) :
  0 <= max_length ->
  Py.len (get_critique_summary response max_length) <= max_length + 3.
Proof.
  intros Hmax. unfold get_critique_summary. cbv zeta.
  set (critique := if 0 <? Py.find response SPEC_OPEN then _ else _).
  clearbody critique.
  destruct (Z.ltb_spec max_length (Py.len critique)) as [Hlong|Hfits]; [|lia].
  rewrite len_append, len_slice_head by assumption.
  change (Py.len "...") with 3. lia.
Qed.

Lemma get_critique_summary_length_witness :
  Py.len (get_critique_summary "The diagnosis is thin. [SPEC]Plan[/SPEC]" 8) <= 8 + 3.
Proof.
  apply (get_critique_summary_length "The diagnosis is thin. [SPEC]Plan[/SPEC]" 8). lia.
Defined.

(** X3: when the response has text before its first opening marker, the
    summary is that text, trimmed, as long as it fits [max_length]: the
    artifact is left out of the summary. *)
Theorem get_critique_summary_cut (pre rest : string) (max_length : Z) :
  absent SPEC_OPEN pre -> pre <> EmptyString ->
  Py.len (Py.strip pre) <= max_length ->
  get_critique_summary (pre +:+ SPEC_OPEN +:+ rest) max_length = Py.strip pre.
Proof.
  intros Habs Hne Hfits. unfold get_critique_summary. cbv zeta.
  assert (Hf : first_at SPEC_OPEN (pre +:+ SPEC_OPEN +:+ rest) (String.length pre))
    by (apply first_at_after_prefix; [apply open_one_bracket | reflexivity | assumption]).
  apply find_first_at in Hf as [-> _].
  destruct (Z.ltb_spec 0 (Z.of_nat (String.length pre))) as [_|Hz];
    [|destruct pre; [congruence | cbn in Hz; lia]].
  change (Z.of_nat (String.length pre)) with (Py.len pre).
  rewrite slice_head_prefix.
  destruct (Z.ltb_spec max_length (Py.len (Py.strip pre))); [lia | reflexivity].
Qed.

Lemma get_critique_summary_cut_witness :
  get_critique_summary ("  Too vague.  " +:+ SPEC_OPEN +:+ "Plan B[/SPEC]") 300
    = "Too vague.".
Proof.
  refine (get_critique_summary_cut "  Too vague.  " "Plan B[/SPEC]" 300 _ _ _).
  - apply contains_false_absent. reflexivity.
  - discriminate.
  - vm_compute. discriminate.
Defined.

(** X4: a response without opening marker, and a response that opens with
    the marker (the test is [spec_start > 0]), is summarised as it stands,
    artifact included and untrimmed, when it fits [max_length]. *)
Theorem get_critique_summary_uncut (response : string) (max_length : Z) :
  (absent SPEC_OPEN response \/ exists rest, response = SPEC_OPEN +:+ rest) ->
  Py.len response <= max_length ->
  get_critique_summary response max_length = response.
Proof.
  intros Hcase Hfits. unfold get_critique_summary. cbv zeta.
  assert (Hfind : Py.find response SPEC_OPEN <= 0).
  { destruct Hcase as [Habs | [rest ->]].
    - unfold Py.find. destruct (find_from_spec SPEC_OPEN response 0)
        as [[_ ->] | (n & [Hn _] & _)]; [lia | now apply Habs in Hn].
    - assert (first_at SPEC_OPEN (SPEC_OPEN +:+ rest) 0) as Hf
        by (split; [now apply occurs_at_0 | intros j Hj; lia]).
      apply find_first_at in Hf as [-> _]. lia. }
  destruct (Z.ltb_spec 0 (Py.find response SPEC_OPEN)); [lia|].
  destruct (Z.ltb_spec max_length (Py.len response)); [lia | reflexivity].
Qed.

Lemma get_critique_summary_uncut_witness :
  get_critique_summary "[SPEC]Plan B[/SPEC] " 300 = "[SPEC]Plan B[/SPEC] ".
Proof.
  refine (get_critique_summary_uncut "[SPEC]Plan B[/SPEC] " 300 _ _).
  - right. exists "Plan B[/SPEC] ". reflexivity.
  - vm_compute. discriminate.
Defined.

(** ** The roster *)

(** X5: whatever [--models] holds, every entry of the parsed roster is
    non-empty, has no whitespace around it and holds no comma. *)
Theorem parse_models_clean (s : string) : Forall clean_model (parse_models s).
Proof.
  unfold parse_models. apply Forall_forall. intros m Hm.
  apply list_elem_of_In, filter_In in Hm as [Hin Ht].
  apply list_elem_of_In, list_elem_of_fmap in Hin as (w & -> & Hw).
  pose proof (comma_free_split s) as Hcf. rewrite Forall_forall in Hcf.
  split; [destruct (Py.strip w); [discriminate | congruence]|].
  split; [apply strip_strip|].
  unfold Py.strip. apply comma_free_rstrip, comma_free_lstrip, Hcf, Hw.
Qed.

(** X6: joining such a roster with commas and parsing it again gives the
    roster back: on resume, the [args.models] rebuilt from the session and
    the roster taken from the session agree. *)
Theorem parse_models_join (ms : list string) :
  Forall clean_model ms -> parse_models (Py.join "," ms) = ms.
Proof.
  intros Hall. destruct ms as [|w ms]; [reflexivity|].
  unfold parse_models. rewrite split_join; [|discriminate|].
  - induction Hall as [|m ms' (Hne & Hs & _) _ IH]; [reflexivity|].
    cbn. rewrite Hs. destruct m; [congruence|]. cbn. now rewrite IH.
  - eapply Forall_impl; [exact Hall|]. now intros m (_ & _ & ?).
Qed.

Lemma parse_models_join_witness :
  parse_models (Py.join "," ["gpt-5.2"; "xai/grok-3"]) = ["gpt-5.2"; "xai/grok-3"].
Proof.
  apply (parse_models_join ["gpt-5.2"; "xai/grok-3"]).
  repeat (apply Forall_cons; split; [split; [discriminate | split; reflexivity]|]).
  apply Forall_nil_2.
Defined.

(** ** The ledger *)

(** X7: [add] keeps the ledger balanced: when the token totals are the
    sums of the per-model subtotals before a call is recorded, they are
    so afterwards. *)
Theorem add_keeps_balance (self self' : CostTracker.t) (model : string)
    (input_tokens output_tokens : Z) (cost : float) :
  balanced self ->
  CostTracker.add self model input_tokens output_tokens = Return (cost, self') ->
  balanced self'.
Proof.
  intros Hb Hadd.
  destruct (add_totals _ _ _ _ _ _ Hadd) as (_ & _ & H). exact (H Hb).
Qed.

Lemma add_keeps_balance_witness :
  exists cost self',
    CostTracker.add ex_tracker "xai/grok-3" 1200 300 = Return (cost, self') /\
    balanced self'.
Proof.
  destruct (CostTracker.add ex_tracker "xai/grok-3" 1200 300) as [[cost self']|e] eqn:E;
    [|vm_compute in E; discriminate E].
  exists cost, self'. split; [reflexivity|].
  refine (add_keeps_balance ex_tracker self' "xai/grok-3" 1200 300 cost _ E).
  split; reflexivity.
Defined.

(** ** One invocation and one round *)

(** X8: an invocation sends at least one request, and the ledger's token
    totals rise by exactly the tokens its response reports (none for a
    failed one); a balanced ledger stays balanced. *)
Theorem call_single_model_accounts (model : string) (replies : nat -> outcome)
    (w w' : World) (r : ModelResponse.t) :
  call_single_model model replies w = (Return r, w') ->
  (exists t, trace w' = trace w ++ t /\ (1 <= requests t)%nat) /\
  CostTracker.total_input_tokens (cost_tracker w')
    = CostTracker.total_input_tokens (cost_tracker w) + ModelResponse.input_tokens r /\
  CostTracker.total_output_tokens (cost_tracker w')
    = CostTracker.total_output_tokens (cost_tracker w) + ModelResponse.output_tokens r /\
  (balanced (cost_tracker w) -> balanced (cost_tracker w')).
Proof.
  intros Hrun.
  destruct (call_single_model_cases model replies w)
    as (r0 & w0 & t & Hc & Ht & Hn & Hin & Hout & Hb).
  rewrite Hc in Hrun. injection Hrun as <- <-.
  split; [exists t; split; [assumption | lia]|]. auto.
Qed.

Lemma call_single_model_accounts_witness :
  exists r w',
    call_single_model "gpt-5.2" ex_flaky ex_world = (Return r, w') /\
    CostTracker.total_input_tokens (cost_tracker w') = 1000000 + ModelResponse.input_tokens r /\
    balanced (cost_tracker w').
Proof.
  destruct (call_single_model "gpt-5.2" ex_flaky ex_world) as [[r|e] w'] eqn:E;
    [|vm_compute in E; discriminate E].
  exists r, w'. split; [reflexivity|].
  destruct (call_single_model_accounts _ _ _ _ _ E) as (_ & Hin & _ & Hb).
  split; [exact Hin | apply Hb; split; reflexivity].
Defined.

(** X9: a round in which every request fails returns only error
    responses, does not converge, leaves the artifact as it was and the
    ledger's token totals unchanged. *)
Theorem failed_round (models : list string) (completion : nat -> nat -> outcome)
    (order : list nat) (w w' : World) (results : list ModelResponse.t) (spec : string) :
  (forall i k, exists msg, completion i k = Failed msg) ->
  call_models_parallel models completion order w = (Return results, w') ->
  Forall (fun r => ModelResponse.error r <> None) results /\
  all_agreed results = false /\
  latest_spec spec results = spec /\
  CostTracker.total_input_tokens (cost_tracker w')
    = CostTracker.total_input_tokens (cost_tracker w) /\
  CostTracker.total_output_tokens (cost_tracker w')
    = CostTracker.total_output_tokens (cost_tracker w).
Proof.
  intros Hfail Hrun.
  destruct (call_models_parallel_cases models completion order w)
    as [[_ Hv] | (_ & w2 & t & Hc & _ & _ & _ & _ & _ & Hin & Hout & _)];
    [rewrite Hv in Hrun; discriminate Hrun|].
  rewrite Hc in Hrun. injection Hrun as <- <-.
  pose proof (responses_in_failed models completion order Hfail) as Hall.
  split; [|split; [|split; [|split]]].
  - eapply Forall_impl; [exact Hall|]. intros r (m & msg & ->). discriminate.
  - apply all_agreed_nobody. eapply Forall_impl; [exact Hall|]. now intros r (m & msg & ->).
  - apply latest_spec_nothing. eapply Forall_impl; [exact Hall|]. now intros r (m & msg & ->).
  - rewrite Hin, sum_tokens_zero; [lia|].
    eapply Forall_impl; [exact Hall|]. now intros r (m & msg & ->).
  - rewrite Hout, sum_tokens_zero; [lia|].
    eapply Forall_impl; [exact Hall|]. now intros r (m & msg & ->).
Qed.

Lemma failed_round_witness :
  exists results w',
    call_models_parallel ex_roster (fun _ => ex_down) [1; 0]%nat world0
      = (Return results, w') /\
    all_agreed results = false /\
    latest_spec "Draft" results = "Draft".
Proof.
  destruct (call_models_parallel ex_roster (fun _ => ex_down) [1; 0]%nat world0)
    as [[results|e] w'] eqn:E; [|vm_compute in E; discriminate E].
  exists results, w'. split; [reflexivity|].
  destruct (failed_round ex_roster (fun _ => ex_down) [1; 0]%nat world0 w' results "Draft"
              (fun _ _ => ex_intro _ "connection refused" eq_refl) E)
    as (_ & Ha & Hl & _).
  split; assumption.
Defined.

(** X10: a round over a roster of N critics sends at least N and at most
    3 N requests to the provider. *)
Theorem round_requests (models : list string) (completion : nat -> nat -> outcome)
    (order : list nat) (w w' : World) (results : list ModelResponse.t) :
  order ≡ₚ seq 0 (length models) ->
  call_models_parallel models completion order w = (Return results, w') ->
  exists t,
    trace w' = trace w ++ t /\
    (length models <= requests t <= 3 * length models)%nat.
Proof.
  intros Hperm Hrun.
  destruct (call_models_parallel_cases models completion order w)
    as [[_ Hv] | (Hne & w2 & t & Hc & _ & _ & _ & Ht & Hn & _)];
    [rewrite Hv in Hrun; discriminate Hrun|].
  rewrite Hc in Hrun. injection Hrun as <- <-.
  exists t. split; [exact Ht|].
  pose proof (responses_in_valid models completion order (order_valid _ _ Hperm)) as HF.
  apply Forall2_length in HF. apply Permutation_length in Hperm.
  rewrite length_seq in Hperm. lia.
Qed.

Lemma round_requests_witness :
  exists t,
    trace (call_models_parallel ex_roster (fun _ => ex_flaky) [1; 0]%nat world0).2
      = trace world0 ++ t /\
    (length ex_roster <= requests t <= 3 * length ex_roster)%nat.
Proof.
  destruct (call_models_parallel ex_roster (fun _ => ex_flaky) [1; 0]%nat world0)
    as [[results|e] w'] eqn:E; [|vm_compute in E; discriminate E].
  refine (round_requests ex_roster (fun _ => ex_flaky) [1; 0]%nat world0 w' results _ E).
  apply Permutation_swap.
Defined.

(** ** Runs of [main] and of the critique action *)

(** Where [main] stops with [sys.exit(1)] and with [sys.exit(2)]. *)
Lemma main_exit_1 (isoformat : nat -> string) (args : Args.t) (stdin : string)
    (completion : nat -> nat -> outcome) (order : list nat) (w : World) :
  main isoformat args stdin completion order w = (Raise (SystemExit 1), w) <->
  parse_models (Args.models args) = [] \/
  (Py.truthy_opt (Args.resume args) = false /\ Py.strip stdin = EmptyString).
Proof.
  split.
  - intros Hrun. apply main_raise in Hrun as [_ [[_ H] | [[[=] _] | [[=] _]]]]. exact H.
  - intros Hcond.
    destruct (main_steps isoformat args stdin completion order w)
      as [(e0 & Hm & [[-> _] | [(-> & Hne & id & Hres & Hid & _)
                               | (-> & Hne & id & s0 & Hres & Hid & _)]])
         | (ss & spec & a & ms & ss1 & w1 & w2 & ss2 & w3 & Hne & Hread & _)].
    + exact Hm.
    + destruct Hcond as [? | [Hr _]]; [congruence|]. rewrite Hres in Hr. cbn in Hr. congruence.
    + destruct Hcond as [? | [Hr _]]; [congruence|]. rewrite Hres in Hr. cbn in Hr. congruence.
    + destruct Hcond as [? | [Hr Hblank]]; [congruence|].
      destruct Hread as [(_ & ? & _) | (id & s0 & a' & Hres & Hid & _)]; [congruence|].
      rewrite Hres in Hr. cbn in Hr. congruence.
Qed.

Lemma main_exit_2 (isoformat : nat -> string) (args : Args.t) (stdin : string)
    (completion : nat -> nat -> outcome) (order : list nat) (w : World) :
  main isoformat args stdin completion order w = (Raise (SystemExit 2), w) <->
  parse_models (Args.models args) <> [] /\
  exists id, Args.resume args = Some id /\ Py.truthy id = true /\ sessions w !! id = None.
Proof.
  split.
  - intros Hrun. apply main_raise in Hrun as [_ [[[=] _] | [[_ H] | [[=] _]]]]. exact H.
  - intros (Hne & id & Hres & Hid & Hnone).
    destruct (main_steps isoformat args stdin completion order w)
      as [(e0 & Hm & [[-> [? | [Hr _]]] | [(-> & _) | (-> & _ & id' & s0 & Hres' & _ & Hs & _)]])
         | (ss & spec & a & ms & ss1 & w1 & w2 & ss2 & w3 & _ & Hread & _)].
    + congruence.
    + rewrite Hres in Hr. cbn in Hr. congruence.
    + exact Hm.
    + congruence.
    + destruct Hread as [(Hr & _) | (id' & s0 & a' & Hres' & _ & Hs & _)]; [|congruence].
      rewrite Hres in Hr. cbn in Hr. congruence.
Qed.

(** The profile step stops the action with [sys.exit(2)], before anything
    else is done, or hands the merged settings to [main]. *)
Lemma critique_cases (isoformat : nat -> string) (profile : option string)
    (context : list string) (profiles : gmap string (option Profile.t))
    (args : Args.t) (stdin : string) (completion : nat -> nat -> outcome)
    (order : list nat) (w : World) :
  (critique isoformat profile context profiles args stdin completion order w
     = (Raise (SystemExit 2), w) /\
   (forall s, use_profile profile (settings_of args context) profiles <> Return s) /\
   exists name,
     profile = Some name /\ Py.truthy name = true /\
     (profiles !! name = None \/ profiles !! name = Some None)) \/
  (exists s,
     use_profile profile (settings_of args context) profiles = Return s /\
     (forall name, profile = Some name -> Py.truthy name = true ->
                   exists p, profiles !! name = Some (Some p)) /\
     critique isoformat profile context profiles args stdin completion order w
       = main isoformat (with_settings args s) stdin completion order w).
Proof.
  unfold critique, use_profile, load_profile.
  destruct profile as [name|]; [destruct (Py.truthy name) eqn:Hname|].
  - destruct (profiles !! name) as [[p|]|] eqn:Hp.
    + right. eexists. split; [reflexivity|]. split; [|reflexivity].
      intros name' [= <-] _. eauto.
    + left. split; [reflexivity|]. split; [discriminate|]. exists name. auto.
    + left. split; [reflexivity|]. split; [discriminate|]. exists name. auto.
  - right. eexists. split; [reflexivity|]. split; [|reflexivity].
    intros name' [= <-] H. congruence.
  - right. eexists. split; [reflexivity|]. split; [|reflexivity]. discriminate.
Qed.

(** X11: when the critique action stops with [sys.exit], the status is 1
    or 2 and nothing has been done: no request sent, no session and no
    checkpoint written, the clock not read, the ledger not touched. *)
Theorem critique_exit_changes_nothing (isoformat : nat -> string)
    (profile : option string) (context : list string)
    (profiles : gmap string (option Profile.t)) (args : Args.t) (stdin : string)
    (completion : nat -> nat -> outcome) (order : list nat) (w w' : World)
    (status : Z) :
  critique isoformat profile context profiles args stdin completion order w
    = (Raise (SystemExit status), w') ->
  w' = w /\ (status = 1 \/ status = 2).
Proof.
  intros Hrun.
  destruct (critique_cases isoformat profile context profiles args stdin completion order w)
    as [(Hc & _) | (s & _ & _ & Hc)]; rewrite Hc in Hrun.
  - injection Hrun as <- <-. auto.
  - apply main_raise in Hrun as [-> [[[= ->] _] | [[[= ->] _] | [[=] _]]]]; auto.
Qed.

Lemma critique_exit_changes_nothing_witness :
  (critique ex_clock None [] ∅ ex_resume_args "Draft" ex_completion [0; 1]%nat world0).2
    = world0.
Proof.
  destruct (critique ex_clock None [] ∅ ex_resume_args "Draft" ex_completion [0; 1]%nat
              world0) as [[out|e] w'] eqn:E; [vm_compute in E; discriminate E|].
  assert (e = SystemExit 2) as -> by (vm_compute in E; now injection E as <- _).
  exact (proj1 (critique_exit_changes_nothing _ _ _ _ _ _ _ _ _ _ _ E)).
Defined.

(** X12: the critique action stops with [sys.exit(1)], nothing done,
    exactly when the profile step comes through and either the roster of
    the merged settings parses to nothing, or no session is resumed and
    standard input is blank. *)
Theorem critique_exit_1 (isoformat : nat -> string) (profile : option string)
    (context : list string) (profiles : gmap string (option Profile.t))
    (args : Args.t) (stdin : string) (completion : nat -> nat -> outcome)
    (order : list nat) (w : World) :
  critique isoformat profile context profiles args stdin completion order w
    = (Raise (SystemExit 1), w) <->
  exists s,
    use_profile profile (settings_of args context) profiles = Return s /\
    (parse_models (Settings.models s) = [] \/
     (Py.truthy_opt (Args.resume args) = false /\ Py.strip stdin = EmptyString)).
Proof.
  destruct (critique_cases isoformat profile context profiles args stdin completion order w)
    as [(Hc & Hno & _) | (s & Hs & _ & Hc)]; rewrite Hc.
  - split; [discriminate|]. intros (s & Hs & _). now apply Hno in Hs.
  - rewrite main_exit_1. cbn [with_settings Args.models Args.resume]. split.
    + intros H. exists s. auto.
    + intros (s' & Hs' & H). rewrite Hs in Hs'. now injection Hs' as <-.
Qed.

Lemma critique_exit_1_witness :
  critique ex_clock (Some "rigorous") [] {["rigorous" := Some (profile_config ex_settings)]}
    ex_plain_args "  " ex_completion [0; 1]%nat ex_world
    = (Raise (SystemExit 1), ex_world).
Proof.
  apply (critique_exit_1 ex_clock (Some "rigorous") []
           {["rigorous" := Some (profile_config ex_settings)]}
           ex_plain_args "  " ex_completion [0; 1]%nat ex_world).
  eexists. split; [reflexivity|]. right. split; reflexivity.
Defined.

(** X13: the critique action stops with [sys.exit(2)], nothing done,
    exactly when the profile named by [--profile] is missing or is not
    valid JSON, or the profile step comes through, the roster parses to
    something and the session to resume does not exist. *)
Theorem critique_exit_2 (isoformat : nat -> string) (profile : option string)
    (context : list string) (profiles : gmap string (option Profile.t))
    (args : Args.t) (stdin : string) (completion : nat -> nat -> outcome)
    (order : list nat) (w : World) :
  critique isoformat profile context profiles args stdin completion order w
    = (Raise (SystemExit 2), w) <->
  (exists name,
     profile = Some name /\ Py.truthy name = true /\
     (profiles !! name = None \/ profiles !! name = Some None)) \/
  (exists s,
     use_profile profile (settings_of args context) profiles = Return s /\
     parse_models (Settings.models s) <> [] /\
     exists id, Args.resume args = Some id /\ Py.truthy id = true /\
                sessions w !! id = None).
Proof.
  destruct (critique_cases isoformat profile context profiles args stdin completion order w)
    as [(Hc & Hno & Hname) | (s & Hs & Hok & Hc)]; rewrite Hc.
  - split; [intros _; left; exact Hname | reflexivity].
  - rewrite main_exit_2. cbn [with_settings Args.models Args.resume]. split.
    + intros H. right. exists s. auto.
    + intros [(name & Hp & Hname & Hmiss) | (s' & Hs' & H)].
      * destruct (Hok name Hp Hname) as (p & Hsome).
        destruct Hmiss as [Hm | Hm]; rewrite Hm in Hsome; discriminate Hsome.
      * rewrite Hs in Hs'. now injection Hs' as <-.
Qed.

Lemma critique_exit_2_witness :
  critique ex_clock (Some "nosuch") [] ∅ ex_plain_args "Draft" ex_completion [0; 1]%nat
    ex_world
    = (Raise (SystemExit 2), ex_world) /\
  critique ex_clock None [] ∅ ex_resume_args "Draft" ex_completion [0; 1]%nat world0
    = (Raise (SystemExit 2), world0).
Proof.
  split.
  - apply (critique_exit_2 ex_clock (Some "nosuch") [] ∅ ex_plain_args "Draft"
             ex_completion [0; 1]%nat ex_world).
    left. exists "nosuch". split; [reflexivity|]. split; [reflexivity|]. now left.
  - apply (critique_exit_2 ex_clock None [] ∅ ex_resume_args "Draft"
             ex_completion [0; 1]%nat world0).
    right. eexists. split; [reflexivity|]. split; [discriminate|].
    exists "s1". repeat split.
Defined.

(** X14: without [--session] and without [--resume], a run of [main]
    writes no session and no checkpoint and never reads the clock. *)
Theorem main_stateless (isoformat : nat -> string) (args : Args.t) (stdin : string)
    (completion : nat -> nat -> outcome) (order : list nat) (w w' : World)
    (res : result RoundOutput.t) :
  Py.truthy_opt (Args.session args) = false ->
  Py.truthy_opt (Args.resume args) = false ->
  main isoformat args stdin completion order w = (res, w') ->
  sessions w' = sessions w /\ checkpoints w' = checkpoints w /\ clock w' = clock w.
Proof.
  intros Hsess Hres Hrun.
  destruct (main_steps isoformat args stdin completion order w)
    as [(e0 & Hm & _)
       | (ss & spec & a & ms & ss1 & w1 & w2 & ss2 & w3 & _ & Hread & Hne & Hi & Hc & Hu & Hm)];
    rewrite Hm in Hrun; injection Hrun as <- <-; [repeat split|].
  destruct Hread as [(_ & _ & [= -> -> -> ->]) | (id & s0 & a' & Hr & Hid & _)];
    [|rewrite Hr in Hres; cbn in Hres; congruence].
  apply init_session_frame in Hi as (_ & _ & _ & [(-> & -> & _) | (id & _ & Hs & Hid & _)]);
    [|rewrite Hs in Hsess; cbn in Hsess; congruence].
  destruct (call_models_parallel_cases (parse_models (Args.models args)) completion order w)
    as [[? _] | (_ & w2' & t & Hc' & F1 & F2 & F3 & _)]; [congruence|].
  rewrite Hc' in Hc. injection Hc as ->.
  apply update_session_frame in Hu as (_ & _ & _ & ->).
  unfold checkpoint_world, session_id_of. rewrite Hsess. cbn [orb]. auto.
Qed.

Lemma main_stateless_witness :
  sessions (main ex_clock ex_plain_args "Draft" ex_completion [0; 1]%nat ex_world).2
    = sessions ex_world /\
  checkpoints (main ex_clock ex_plain_args "Draft" ex_completion [0; 1]%nat ex_world).2
    = checkpoints ex_world /\
  clock (main ex_clock ex_plain_args "Draft" ex_completion [0; 1]%nat ex_world).2
    = clock ex_world.
Proof.
  refine (main_stateless ex_clock ex_plain_args "Draft" ex_completion [0; 1]%nat ex_world
            _ (main ex_clock ex_plain_args "Draft" ex_completion [0; 1]%nat ex_world).1
            _ _ _);
    [reflexivity | reflexivity | apply surjective_pairing].
Defined.

(** X15: the checkpoint of a round holds the artifact the round started
    from, not the one it selected: in a new session, standard input
    trimmed, under the session id and the round number of the command
    line; in a resumed session, the stored artifact, under the stored
    round number. *)
Theorem main_checkpoint (isoformat : nat -> string) (args : Args.t) (stdin : string)
    (completion : nat -> nat -> outcome) (order : list nat) (w w' : World)
    (out : RoundOutput.t) :
  main isoformat args stdin completion order w = (Return out, w') ->
  (forall id,
     Py.truthy_opt (Args.resume args) = false ->
     Args.session args = Some id -> Py.truthy id = true ->
     checkpoints w' !! (id +:+ "-", Args.round args) = Some (Py.strip stdin)) /\
  (forall id s0,
     Args.resume args = Some id -> Py.truthy id = true ->
     sessions w !! id = Some s0 -> Py.truthy (SessionState.session_id s0) = true ->
     checkpoints w' !! (SessionState.session_id s0 +:+ "-", SessionState.round s0)
       = Some (SessionState.spec s0)).
Proof.
  intros Hrun.
  destruct (main_steps isoformat args stdin completion order w)
    as [(e0 & Hm & _)
       | (ss & spec & a & ms & ss1 & w1 & w2 & ss2 & w3 & _ & Hread & Hne & Hi & Hc & Hu & Hm)];
    rewrite Hm in Hrun; [discriminate Hrun|]. injection Hrun as <- <-.
  apply update_session_frame in Hu as (_ & _ & -> & _).
  split.
  - intros id Hres Hs Hid.
    destruct Hread as [(_ & _ & [= -> -> -> ->]) | (id' & s0 & a' & Hr & Hid' & _)];
      [|rewrite Hr in Hres; cbn in Hres; congruence].
    apply init_session_frame in Hi
      as (_ & _ & _ & [(_ & _ & Hnone) | (id' & _ & Hs' & _ & -> & _)]).
    + rewrite Hs in Hnone. cbn in Hnone. rewrite Hid in Hnone. now specialize (Hnone eq_refl).
    + assert (id' = id) as -> by congruence.
      unfold checkpoint_world, session_id_of. cbn [SessionState.session_id Py.truthy_opt].
      rewrite Hid. cbn [orb checkpoints set_checkpoints]. apply lookup_insert_eq.
  - intros id s0 Hres Hid Hs0 Hsid.
    destruct Hread as [(Hr & _) | (id' & s0' & a' & Hr & _ & Hs0' & Hround & _ & [= -> -> -> ->])];
      [rewrite Hres in Hr; cbn in Hr; congruence|].
    assert (id' = id) as -> by congruence. assert (s0' = s0) as -> by congruence.
    apply init_session_frame in Hi as (_ & _ & _ & [(_ & -> & _) | (? & [=] & _)]).
    unfold checkpoint_world, session_id_of. cbn [Py.truthy_opt].
    rewrite Hsid, Hround. cbn [orb checkpoints set_checkpoints]. apply lookup_insert_eq.
Qed.

Lemma main_checkpoint_witness :
  checkpoints (main ex_clock ex_args " Draft " ex_completion [0; 1]%nat world0).2
    !! ("s1-", 1) = Some "Draft".
Proof.
  destruct (main ex_clock ex_args " Draft " ex_completion [0; 1]%nat world0)
    as [[out|e] w'] eqn:E; [|vm_compute in E; discriminate E].
  exact (proj1 (main_checkpoint _ _ _ _ _ _ _ _ E) "s1" eq_refl eq_refl eq_refl).
Defined.

(** X16: when a run of [main] returns, a ledger that was balanced is
    still balanced, and the token totals have risen by the tokens of the
    responses the run reports. *)
Theorem main_ledger (isoformat : nat -> string) (args : Args.t) (stdin : string)
    (completion : nat -> nat -> outcome) (order : list nat) (w w' : World)
    (out : RoundOutput.t) :
  main isoformat args stdin completion order w = (Return out, w') ->
  (balanced (cost_tracker w) -> balanced (cost_tracker w')) /\
  CostTracker.total_input_tokens (cost_tracker w')
    = CostTracker.total_input_tokens (cost_tracker w)
      + sum_tokens ModelResponse.input_tokens (RoundOutput.results out) /\
  CostTracker.total_output_tokens (cost_tracker w')
    = CostTracker.total_output_tokens (cost_tracker w)
      + sum_tokens ModelResponse.output_tokens (RoundOutput.results out).
Proof.
  intros Hrun.
  destruct (main_steps isoformat args stdin completion order w)
    as [(e0 & Hm & _)
       | (ss & spec & a & ms & ss1 & w1 & w2 & ss2 & w3 & _ & Hread & Hne & Hi & Hc & Hu & Hm)];
    rewrite Hm in Hrun; [discriminate Hrun|]. injection Hrun as <- <-.
  apply init_session_frame in Hi as (Ht1 & _).
  apply round_tokens in Hc as (Hin & Hout & Hb).
  apply update_session_frame in Hu as (Ht3 & _).
  destruct (checkpoint_world_frame ss1 a spec w2) as (Ht2 & _).
  rewrite Ht3, Ht2. rewrite Ht1 in Hin, Hout, Hb. cbn [RoundOutput.results]. auto.
Qed.

Lemma main_ledger_witness :
  exists out w',
    main ex_clock ex_resume_args "" ex_completion [1; 0]%nat ex_world = (Return out, w') /\
    balanced (cost_tracker w') /\
    CostTracker.total_input_tokens (cost_tracker w')
      = 1000000 + sum_tokens ModelResponse.input_tokens (RoundOutput.results out).
Proof.
  destruct (main ex_clock ex_resume_args "" ex_completion [1; 0]%nat ex_world)
    as [[out|e] w'] eqn:E; [|vm_compute in E; discriminate E].
  exists out, w'. split; [reflexivity|].
  destruct (main_ledger _ _ _ _ _ _ _ _ E) as (Hb & Hin & _).
  split; [apply Hb; split; reflexivity | exact Hin].
Defined.

(** ** Resumed sessions *)

(** X17: a resumed run takes the artifact, the round number and the
    roster from the stored session: standard input, [--round] and
    [--models] (as long as it names some model) make no difference to the
    result, nor to the world the run leaves. *)
Theorem resume_ignores_command_line (isoformat : nat -> string) (args : Args.t) (stdin1 stdin2 models2 : string)
    (round2 : Z) (completion : nat -> nat -> outcome) (order : list nat) (w : World)
    (id : string) (s0 : SessionState.t) :
  Args.resume args = Some id -> Py.truthy id = true ->
  sessions w !! id = Some s0 ->
  Py.truthy (SessionState.session_id s0) = true ->
  SessionState.models s0 <> [] ->
  parse_models (Args.models args) <> [] ->
  parse_models models2 <> [] ->
  main isoformat args stdin1 completion order w
    = main isoformat (with_models_round args models2 round2) stdin2 completion order w.
Proof.
  intros Hres Hid Hs0 Hsid Hm0 Hne1 Hne2.
  destruct (main_resumed isoformat args stdin1 completion order w id s0 Hres Hid Hne1 Hs0 Hsid Hm0)
    as (w2 & Hc & ->).
  destruct (main_resumed isoformat (with_models_round args models2 round2) stdin2 completion order w
              id s0 Hres Hid Hne2 Hs0 Hsid Hm0) as (w2' & Hc' & ->).
  cbv zeta in *. rewrite Hc in Hc'. injection Hc' as <-. reflexivity.
Qed.

Lemma resume_ignores_command_line_witness :
  main ex_clock ex_resume_args "ignored" ex_completion [1; 0]%nat ex_world
    = main ex_clock (with_models_round ex_resume_args "other-model" 9) EmptyString
        ex_completion [1; 0]%nat ex_world.
Proof.
  refine (resume_ignores_command_line ex_clock ex_resume_args "ignored" EmptyString
            "other-model" 9 ex_completion [1; 0]%nat ex_world "s1" ex_session
            _ _ _ _ _ _ _);
    try reflexivity; discriminate.
Defined.

(** X18: resuming a session n times in a row returns n round outputs and
    leaves a record whose round number has risen by n and whose history
    has grown by n entries, numbered consecutively from the stored round
    number and matching the outputs, with the earlier entries and the
    roster kept. *)
Theorem resume_rounds_history (isoformat : nat -> string) (args : Args.t)
    (runs : list ((nat -> nat -> outcome) * list nat)) (w : World)
    (id : string) (s0 : SessionState.t) :
  Args.resume args = Some id -> Py.truthy id = true ->
  parse_models (Args.models args) <> [] ->
  sessions w !! id = Some s0 ->
  SessionState.session_id s0 = id ->
  SessionState.models s0 <> [] ->
  exists outs w' s entries,
    resume_rounds isoformat args runs w = (Return outs, w') /\
    sessions w' !! id = Some s /\
    SessionState.round s = SessionState.round s0 + Z.of_nat (length runs) /\
    SessionState.history s = SessionState.history s0 ++ entries /\
    HistoryEntry.round <$> entries
      = (fun k => SessionState.round s0 + Z.of_nat k) <$> seq 0 (length runs) /\
    RoundOutput.round <$> outs = HistoryEntry.round <$> entries /\
    SessionState.models s = SessionState.models s0.
Proof.
  intros Hres Hid Hne. revert w s0.
  induction runs as [|[completion order] rest IH]; intros w s0 Hs0 Hsid Hm0.
  - exists [], w, s0, []. cbn. unfold ret. rewrite app_nil_r, Z.add_0_r. auto 10.
  - assert (Htr : Py.truthy (SessionState.session_id s0) = true) by congruence.
    destruct (main_resumed isoformat args EmptyString completion order w id s0
                Hres Hid Hne Hs0 Htr Hm0) as (w2 & _ & Hmain).
    cbv zeta in Hmain.
    match type of Hmain with _ = (Return ?out, ?ww) =>
      set (o1 := out) in *; set (w1 := ww) in * end.
    match eval unfold w1 in w1 with
    | mkWorld _ _ (<[_ := ?s1]> _) _ _ =>
        destruct (IH w1 s1) as (outs & w' & s & entries & Hrun & Hs & Hround & Hhist & Hr & Ho & Hms)
    end.
    + unfold w1. cbn [sessions]. rewrite Hsid. apply lookup_insert_eq.
    + exact Hsid.
    + exact Hm0.
    + exists (o1 :: outs), w', s,
        (round_entry (SessionState.round s0)
           (responses_in (SessionState.models s0) completion order) :: entries).
      cbn [resume_rounds]. unfold bind. rewrite Hmain, Hrun. unfold ret.
      split; [reflexivity|]. split; [exact Hs|].
      cbn [SessionState.round SessionState.history SessionState.models] in Hround, Hhist, Hms, Hr.
      split; [rewrite Hround; cbn [length]; lia|].
      split; [rewrite Hhist, <- app_assoc; reflexivity|].
      split.
      * cbn [fmap list_fmap length seq]. rewrite Hr. cbn [round_entry HistoryEntry.round].
        rewrite Z.add_0_r. f_equal. rewrite <- fmap_S_seq, <- list_fmap_compose.
        apply list_fmap_ext. intros _ k _. cbn. lia.
      * split; [|exact Hms]. cbn [fmap list_fmap]. f_equal. exact Ho.
Qed.

Lemma resume_rounds_history_witness :
  exists outs w' s entries,
    resume_rounds ex_clock ex_resume_args
      [(ex_completion, [1; 0]%nat); (fun _ => ex_agrees, [0; 1]%nat)] ex_world
      = (Return outs, w') /\
    sessions w' !! "s1" = Some s /\
    SessionState.round s = 4 + 2 /\
    SessionState.history s = [HistoryEntry.mk 3 false []] ++ entries /\
    HistoryEntry.round <$> entries = [4; 5] /\
    RoundOutput.round <$> outs = HistoryEntry.round <$> entries /\
    SessionState.models s = ex_roster.
Proof.
  refine (resume_rounds_history ex_clock ex_resume_args
            [(ex_completion, [1; 0]%nat); (fun _ => ex_agrees, [0; 1]%nat)] ex_world
            "s1" ex_session _ _ _ _ _ _);
    try reflexivity; discriminate.
Defined.

(** ** The user message *)

(** X19: with [--press] the user message does not depend on the focus
    section, so [--focus] and [--preserve-intent] do not reach the critic
    through it; without [--press], two different focus sections give two
    different messages. *)
Theorem user_message_focus (round_num : Z) (spec : string) (context : option string)
    (focus1 focus2 : string) :
  user_message true round_num spec focus1 context
    = user_message true round_num spec focus2 context /\
  (focus1 <> focus2 ->
   user_message false round_num spec focus1 context
     <> user_message false round_num spec focus2 context).
Proof.
  split; [reflexivity|]. intros Hne Heq. apply Hne. unfold_messages Heq.
  do 7 apply append_cancel_l in Heq. now apply append_cancel_r in Heq.
Qed.

Lemma user_message_focus_witness :
  user_message true 2 "Plan" "**CRITICAL FOCUS: RISKS**" None
    = user_message true 2 "Plan" EmptyString None /\
  user_message false 2 "Plan" "**CRITICAL FOCUS: RISKS**" None
    <> user_message false 2 "Plan" EmptyString None.
Proof.
  destruct (user_message_focus 2 "Plan" None "**CRITICAL FOCUS: RISKS**" EmptyString)
    as [Hpress Hreview].
  split; [exact Hpress | apply Hreview; discriminate].
Defined.

(** X20: in either mode the user message carries the artifact in full:
    two different artifacts never give the same message, the round, the
    focus section and the context being the same. *)
Theorem user_message_carries_spec (press : bool) (round_num : Z) (focus_section : string)
    (context : option string) (spec1 spec2 : string) :
  spec1 <> spec2 ->
  user_message press round_num spec1 focus_section context
    <> user_message press round_num spec2 focus_section context.
Proof.
  intros Hne Heq. apply Hne. destruct press; unfold_messages Heq;
    do 3 apply append_cancel_l in Heq; now apply append_cancel_r in Heq.
Qed.

Lemma user_message_carries_spec_witness :
  user_message true 3 "Plan A" EmptyString (Some "## Additional Context")
    <> user_message true 3 "Plan A." EmptyString (Some "## Additional Context").
Proof.
  apply (user_message_carries_spec true 3 EmptyString (Some "## Additional Context")
           "Plan A" "Plan A.").
  discriminate.
Defined.

(** ** Profiles *)

(** X21: when [save-profile] has written a profile, loading that
    profile with [--profile] on a command line that gives no setting of
    its own restores the saved settings exactly. *)
Theorem profile_round_trip (profile_name : option string) (args : Settings.t)
    (profiles profiles' : gmap string (option Profile.t)) :
  save_profile_action profile_name args profiles = (Return tt, profiles') ->
  use_profile profile_name default_settings profiles' = Return args.
Proof.
  unfold save_profile_action, use_profile, load_profile, save_profile.
  destruct profile_name as [name|]; cbn [Py.truthy_opt default negb]; [|discriminate].
  destruct (Py.truthy name); cbn [negb]; [|discriminate].
  intros [= <-]. now rewrite lookup_insert_eq, apply_profile_config.
Qed.

Lemma profile_round_trip_witness :
  use_profile (Some "rigorous") default_settings
    (save_profile_action (Some "rigorous") ex_settings ∅).2 = Return ex_settings.
Proof.
  apply (profile_round_trip (Some "rigorous") ex_settings ∅). reflexivity.
Defined.

(** X22: what the command line gives wins over the profile: a roster
    other than the default [gpt-5.2], a non-empty focus, a non-empty
    persona and a non-empty list of context files are kept; and
    preserve-intent is on exactly when the command line or the profile
    switches it on, so a profile can never switch it off. *)
Theorem apply_profile_command_line_first (profile : Profile.t) (args : Settings.t) :
  (Settings.models args <> "gpt-5.2" ->
   Settings.models (apply_profile profile args) = Settings.models args) /\
  (Py.truthy_opt (Settings.focus args) = true ->
   Settings.focus (apply_profile profile args) = Settings.focus args) /\
  (Py.truthy_opt (Settings.persona args) = true ->
   Settings.persona (apply_profile profile args) = Settings.persona args) /\
  (Settings.context args <> [] ->
   Settings.context (apply_profile profile args) = Settings.context args) /\
  Settings.preserve_intent (apply_profile profile args)
    = Settings.preserve_intent args || default false (Profile.preserve_intent profile).
Proof.
  unfold apply_profile. cbn [Settings.models Settings.focus Settings.persona
                             Settings.context Settings.preserve_intent].
  repeat apply conj.
  - intros Hm. destruct (Profile.models profile); [|reflexivity].
    destruct (String.eqb_spec (Settings.models args) "gpt-5.2"); congruence.
  - intros ->. now destruct (Profile.focus profile).
  - intros ->. now destruct (Profile.persona profile).
  - intros Hc. destruct (Profile.context profile); [|reflexivity].
    now rewrite bool_decide_eq_false_2.
  - destruct (default false (Profile.preserve_intent profile)),
      (Settings.preserve_intent args); reflexivity.
Qed.

Lemma apply_profile_command_line_first_witness :
  Settings.focus
    (apply_profile (profile_config ex_settings)
       (Settings.mk "gpt-5.2" (Some "coherence") None [] false)) = Some "coherence" /\
  Settings.preserve_intent
    (apply_profile (profile_config ex_settings)
       (Settings.mk "gpt-5.2" (Some "coherence") None [] false)) = true.
Proof.
  destruct (apply_profile_command_line_first (profile_config ex_settings)
              (Settings.mk "gpt-5.2" (Some "coherence") None [] false))
    as (_ & Hfocus & _ & _ & Hpreserve).
  split; [apply Hfocus; reflexivity | rewrite Hpreserve; reflexivity].
Defined.

(** ** API keys *)

(** X23: the environment comes first: a variable that is set to a
    non-empty value keeps it whatever [keys.json] holds, and a variable
    whose name does not end in [_API_KEY] is never touched; both hold also
    when loading stops on an exception. *)
Theorem load_api_keys_environment_first (file : keys_file) (st st' : KeyState)
    (r : option crash) :
  load_api_keys file st = (r, st') ->
  (forall name value,
     environ st !! name = Some value -> value <> EmptyString ->
     environ st' !! name = Some value) /\
  (forall name,
     endswith name "_API_KEY" = false -> environ st' !! name = environ st !! name).
Proof.
  intros Hrun. split.
  - intros name value Hv Hne.
    destruct (load_api_keys_cases file st st' r Hrun name)
      as [[He _] | (items & _ & s & _ & _ & _ & Hfalse & _)]; [congruence|].
    rewrite Hv in Hfalse. destruct value; [congruence | discriminate Hfalse].
  - intros name Hend.
    destruct (load_api_keys_cases file st st' r Hrun name)
      as [[He _] | (items & _ & s & _ & _ & Hend' & _)]; congruence.
Qed.

Lemma load_api_keys_environment_first_witness :
  environ (load_api_keys ex_keys ex_key_state).2 !! "OPENAI_API_KEY" = Some "sk-env" /\
  environ (load_api_keys ex_keys ex_key_state).2 !! "comment" = None.
Proof.
  destruct (load_api_keys_environment_first ex_keys ex_key_state
              (load_api_keys ex_keys ex_key_state).2 (load_api_keys ex_keys ex_key_state).1
              (surjective_pairing _)) as [Hkept Hother].
  split.
  - apply Hkept; [reflexivity | discriminate].
  - rewrite Hother; reflexivity.
Defined.

(** X24: [_keys_from_config] records where a key came from: every
    variable whose value changed is recorded, and a name that is newly
    recorded stands in the file with a non-empty string, which is the
    value the variable now has. *)
Theorem load_api_keys_provenance (file : keys_file) (st st' : KeyState)
    (r : option crash) (name : string) :
  load_api_keys file st = (r, st') ->
  (environ st' !! name <> environ st !! name -> name ∈ keys_from_config st') /\
  (name ∈ keys_from_config st' ->
   name ∈ keys_from_config st \/
   exists items v,
     file = Keys items /\ (name, JString v) ∈ items /\ v <> EmptyString /\
     environ st' !! name = Some v).
Proof.
  intros Hrun.
  destruct (load_api_keys_cases file st st' r Hrun name)
    as [[He Hk] | (items & -> & s & Hin & Hs & _ & _ & He & Hk)].
  - split; [congruence|]. intros H. left. now apply Hk.
  - split; [auto|]. intros _. right. exists items, s. auto.
Qed.

Lemma load_api_keys_provenance_witness :
  "GEMINI_API_KEY" ∈ keys_from_config (load_api_keys ex_keys ex_key_state).2.
Proof.
  apply (load_api_keys_provenance ex_keys ex_key_state
           (load_api_keys ex_keys ex_key_state).2 (load_api_keys ex_keys ex_key_state).1
           "GEMINI_API_KEY" (surjective_pairing _)).
  vm_compute. discriminate.
Defined.

(** X25: a file whose items can all be stored (strings without null byte
    under names without [=] or null byte, or values that count as false)
    is loaded without exception, and every [_API_KEY] name it gives a
    non-empty string to, and that the environment does not set, ends up
    set to that string and recorded. *)
Theorem load_api_keys_loads (items : list (string * json_value)) (st : KeyState) :
  Forall storable items ->
  exists st',
    load_api_keys (Keys items) st = (None, st') /\
    forall name v,
      (name, JString v) ∈ items -> NoDup items.*1 ->
      endswith name "_API_KEY" = true -> v <> EmptyString ->
      Py.truthy_opt (environ st !! name) = false ->
      environ st' !! name = Some v /\ name ∈ keys_from_config st'.
Proof.
  cbn [load_api_keys]. revert st.
  induction items as [|[k x] rest IH]; intros st Hall.
  - exists st. split; [reflexivity|]. intros name v Hin. inversion Hin.
  - apply Forall_cons in Hall as [Hst Hall].
    destruct (load_item_storable k x st Hst) as (st1 & Hitem).
    destruct (IH st1 Hall) as (st' & Hrun & Hloaded).
    exists st'. cbn [load_items]. rewrite Hitem. split; [exact Hrun|].
    intros name v Hin Hnd Hend Hv Hfalse.
    cbn [fmap list_fmap fst] in Hnd. apply NoDup_cons in Hnd as [Hnotin Hnd].
    apply elem_of_cons in Hin as [[= <- <-] | Hin].
    + apply load_item_cases in Hitem
        as [[_ [? | [Hx | ?]]] | (s & [= <-] & _ & _ & _ & ->)]; try congruence.
      * cbn in Hx. destruct v; [congruence | discriminate Hx].
      * destruct (load_items_kept rest _ st' None name v Hrun
                    (lookup_insert_eq _ _ _) Hv) as [He Hk].
        split; [exact He | apply Hk, elem_of_union; left; now apply elem_of_singleton].
    + assert (name <> k).
      { intros ->. apply Hnotin. apply (list_elem_of_fmap_2 fst) in Hin. exact Hin. }
      apply (Hloaded name v Hin Hnd Hend Hv).
      apply load_item_cases in Hitem as [[-> _] | (s & _ & _ & _ & _ & ->)];
        [assumption|].
      cbn [environ]. rewrite lookup_insert_ne by congruence. assumption.
Qed.

Lemma load_api_keys_loads_witness :
  exists st',
    load_api_keys ex_keys ex_key_state = (None, st') /\
    environ st' !! "GEMINI_API_KEY" = Some "g-file" /\
    "GEMINI_API_KEY" ∈ keys_from_config st'.
Proof.
  destruct (load_api_keys_loads
              [("OPENAI_API_KEY", JString "sk-file"); ("GEMINI_API_KEY", JString "g-file");
               ("comment", JString "shared keys")] ex_key_state)
    as (st' & Hrun & Hloaded).
  - repeat (apply Forall_cons; split; [repeat split|]). apply Forall_nil_2.
  - exists st'. split; [exact Hrun|].
    apply Hloaded; [| |reflexivity|discriminate|reflexivity].
    + apply list_elem_of_further, list_elem_of_here.
    + refine (bool_decide_unpack _ _). vm_compute. exact I.
Defined.
